(** * Raster analytics functions: NDVI, top-value ranking, statistics

    A shallow embedding of [geofunctions_A4_Khizer.py].  The functions
    of the module call NumPy on whole arrays; the embedding keeps that
    shape: a small model of the NumPy operations the module uses
    ([Module np]), and on top of it the module's functions, one
    definition per source function, one [let] per source line.

    Numbers are modelled as NumPy has them:
    - an integer band holds machine integers of a fixed width; its
      arithmetic wraps around (an integer of [Z] reduced modulo [2^w]);
    - a floating band holds IEEE 754 binary64 values, modelled by the
      Standard Library's [spec_float] with [prec = 53], [emax = 1024];
      the operations are the library's [SFadd], [SFsub], [SFdiv], ...,
      which round to nearest-even and know infinities, signed zeros
      and NaN.
    Band stacks of dtype float32 and complex are not modelled.

    Sums are added in the order NumPy adds them (the identity first,
    then the pairwise summation of its inner loop), so that means and
    deviations have the bits the program prints.

    The array operations of [calculate_ndvi] consult NumPy's
    floating-point error settings and Python's warnings filter, a
    state of the interpreter: [calculate_ndvi] is the function in a
    fresh interpreter, [calculate_ndvi_under] the function in any
    state.

    The functions that plot ([read_and_plot_tiff],
    [plot_raster_with_coordinates], [plot_ndvi],
    [draw_square_on_raster]) are modelled by what they do: the calls
    to matplotlib, what is printed and what is read from the
    keyboard, in order, and the value returned or the exception
    raised. *)

From Stdlib Require Import String.
From Stdlib Require Import ZArith List Bool Lia.
From Stdlib Require Import Sorting.Mergesort Sorting.Sorted Sorting.Permutation.
From Stdlib Require Import Structures.Orders Classes.RelationClasses.
From Stdlib Require Import Floats.SpecFloat.
From Stdlib Require Import Ascii DecimalString.
Import ListNotations.
Open Scope string_scope.
Open Scope list_scope.
Open Scope nat_scope.

(** ** Exceptions and results *)

Inductive exception : Type :=
| IndexError
| ValueError
| RasterioIOError.

Inductive result (A : Type) : Type :=
| Ok (a : A)
| Raise (e : exception).

Arguments Ok {A} a.
Arguments Raise {A} e.

Definition bind {A B : Type} (r : result A) (k : A -> result B) : result B :=
  match r with
  | Ok a => k a
  | Raise e => Raise e
  end.

Notation "x <- c ;; k" := (bind c (fun x => k))
  (at level 61, c at next level, right associativity).

Definition raises {A : Type} (r : result A) : bool :=
  match r with
  | Ok _ => false
  | Raise _ => true
  end.

(** ** binary64

    [spec_float] has one NaN, two zeros, two infinities, and finite
    numbers [S754_finite s m e] of value [(-1)^s * m * 2^e]. *)

Definition float : Type := spec_float.

Module Float64.

Definition prec : Z := 53.
Definition emax : Z := 1024.

Definition add : float -> float -> float := SFadd prec emax.
Definition sub : float -> float -> float := SFsub prec emax.
Definition mul : float -> float -> float := SFmul prec emax.
Definition div : float -> float -> float := SFdiv prec emax.
Definition sqrt : float -> float := SFsqrt prec emax.

Definition eqb : float -> float -> bool := SFeqb.
Definition ltb : float -> float -> bool := SFltb.
Definition leb : float -> float -> bool := SFleb.

(** Conversion of an integer, rounding to nearest-even when it has
    more than 53 significant bits. *)
Definition of_Z (z : Z) : float := binary_normalize prec emax z 0 false.

Definition is_nan (x : float) : bool :=
  match x with
  | S754_nan => true
  | _ => false
  end.

Definition is_finite (x : float) : bool :=
  match x with
  | S754_zero _ | S754_finite _ _ _ => true
  | _ => false
  end.

Definition is_inf (x : float) : bool :=
  match x with
  | S754_infinity _ => true
  | _ => false
  end.

Definition is_zero (x : float) : bool :=
  match x with
  | S754_zero _ => true
  | _ => false
  end.

Definition opp : float -> float := SFopp.

Definition nan : float := S754_nan.
Definition zero : float := S754_zero false.
Definition one : float := of_Z 1.

(** [m * 2^e] for a dyadic literal such as [0.5 = 1 * 2^-1]. *)
Definition dyadic (m e : Z) : float := binary_normalize prec emax m e false.

(** Closed interval test with IEEE comparisons: false on NaN. *)
Definition between (lo hi x : float) : bool := leb lo x && leb x hi.

End Float64.

(** ** dtypes *)

Inductive int_dtype : Type :=
| int8 | uint8 | int16 | uint16 | int32 | uint32 | int64 | uint64.

Definition bits (k : int_dtype) : Z :=
  match k with
  | int8 | uint8 => 8
  | int16 | uint16 => 16
  | int32 | uint32 => 32
  | int64 | uint64 => 64
  end.

Definition signed (k : int_dtype) : bool :=
  match k with
  | int8 | int16 | int32 | int64 => true
  | uint8 | uint16 | uint32 | uint64 => false
  end.

(** The value a [w]-bit register holds after an operation whose exact
    result is [z]: two's complement for the signed dtypes. *)
Definition wrap (k : int_dtype) (z : Z) : Z :=
  if signed k
  then (z + 2 ^ (bits k - 1)) mod 2 ^ bits k - 2 ^ (bits k - 1)
  else z mod 2 ^ bits k.

Definition in_range (k : int_dtype) (z : Z) : Prop :=
  if signed k
  then (- 2 ^ (bits k - 1) <= z < 2 ^ (bits k - 1))%Z
  else (0 <= z < 2 ^ bits k)%Z.

Inductive dtype : Type :=
| Int (k : int_dtype)
| Float64.

Definition elem (d : dtype) : Type :=
  match d with
  | Int _ => Z
  | Float64 => float
  end.

(** A 2-D array as the list of its rows, a 3-D array as the list of
    its bands. *)
Definition array1 (A : Type) : Type := list A.
Definition array2 (A : Type) : Type := list (list A).
Definition array3 (A : Type) : Type := list (list (list A)).

(** What [src.read()] returns: an array indexed [band, row, column],
    every element of the data set's dtype. *)
Record ndarray3 : Type := {
  stack_dtype : dtype;
  stack_data : array3 (elem stack_dtype)
}.

Definition band_count (bands : ndarray3) : nat := length (stack_data bands).

Definition shape2 {A : Type} (a : array2 A) : list nat := map (@length A) a.

(** Swapping the operands of a comparison reverses its outcome. *)
Lemma SFcompare_swap (x y : float) :
  SFcompare y x = option_map CompOpp (SFcompare x y).
Proof.
  destruct x as [[]|[]| |[] mx ex], y as [[]|[]| |[] my ey]; simpl; try reflexivity.
  all: pose proof (Pos.compare_cont_antisym mx my Eq) as H; simpl in H.
  all: rewrite (Z.compare_antisym ex ey), <- H; simpl.
  all: destruct (ex ?= ey)%Z; simpl; try reflexivity.
  all: destruct (Pos.compare_cont Eq mx my); reflexivity.
Qed.

(** ** The NumPy operations the module uses *)

Module np.

Fixpoint map2 {A B C : Type} (f : A -> B -> C) (a : list A) (b : list B) : list C :=
  match a, b with
  | x :: a', y :: b' => f x y :: map2 f a' b'
  | _, _ => []
  end.

Definition lift2 {A B C : Type} (f : A -> B -> C) : array2 A -> array2 B -> array2 C :=
  map2 (map2 f).

Definition lift1 {A B : Type} (f : A -> B) : array2 A -> array2 B :=
  map (map f).

(** [a[i]] for a non-negative literal [i]: IndexError out of range. *)
Definition getitem {A : Type} (a : list A) (i : nat) : result A :=
  match nth_error a i with
  | Some x => Ok x
  | None => Raise IndexError
  end.

(** Scalar kernels of the ufuncs, by dtype. *)
Definition add1 (d : dtype) : elem d -> elem d -> elem d :=
  match d with
  | Int k => fun a b => wrap k (a + b)
  | Float64 => Float64.add
  end.

Definition subtract1 (d : dtype) : elem d -> elem d -> elem d :=
  match d with
  | Int k => fun a b => wrap k (a - b)
  | Float64 => Float64.sub
  end.

(** [/] is true division: integer operands are converted to
    binary64 first, the result is binary64 for every dtype here. *)
Definition true_divide1 (d : dtype) : elem d -> elem d -> float :=
  match d with
  | Int _ => fun a b => Float64.div (Float64.of_Z a) (Float64.of_Z b)
  | Float64 => Float64.div
  end.

(** [x != c] for a Python integer [c] converted to the dtype; on
    floats it is the IEEE comparison: NaN differs from everything,
    [-0.0] does not differ from [0]. *)
Definition not_equal1 (d : dtype) (c : Z) : elem d -> bool :=
  match d with
  | Int k => fun a => negb (a =? wrap k c)%Z
  | Float64 => fun a => negb (Float64.eqb a (Float64.of_Z c))
  end.

Definition add {d : dtype} : array2 (elem d) -> array2 (elem d) -> array2 (elem d) :=
  lift2 (add1 d).

Definition subtract {d : dtype} : array2 (elem d) -> array2 (elem d) -> array2 (elem d) :=
  lift2 (subtract1 d).

Definition true_divide {d : dtype} : array2 (elem d) -> array2 (elem d) -> array2 float :=
  lift2 (true_divide1 d).

Definition not_equal {d : dtype} (a : array2 (elem d)) (c : Z) : array2 bool :=
  lift1 (not_equal1 d c) a.

(** [np.where(cond, x, c)] with [x] a binary64 array and [c] a
    Python integer broadcast over it. *)
Definition where_ (cond : array2 bool) (x : array2 float) (c : Z) : array2 float :=
  lift2 (fun (b : bool) v => if b then v else Float64.of_Z c) cond x.

(** [np.clip] on binary64: [min(max(x, lo), hi)], where a NaN [x] is
    passed through and [max]/[min] are the C comparisons
    [x > lo ? x : lo] and [x < hi ? x : hi]. *)
Definition fmax_clip (x lo : float) : float :=
  if Float64.is_nan x then x else if Float64.ltb lo x then x else lo.

Definition fmin_clip (x hi : float) : float :=
  if Float64.is_nan x then x else if Float64.ltb x hi then x else hi.

Definition clip1 (lo hi : Z) (x : float) : float :=
  fmin_clip (fmax_clip x (Float64.of_Z lo)) (Float64.of_Z hi).

Definition clip (a : array2 float) (lo hi : Z) : array2 float :=
  lift1 (clip1 lo hi) a.

(** [a.flatten()]: row-major. *)
Definition flatten {A : Type} (a : array2 A) : array1 A := concat a.

(** *** Sorting

    NumPy sorts floats by [a < b || (b != b && a == a)]: the IEEE
    order on numbers, every NaN after every number.  Which of two
    equal keys comes first is not specified by NumPy (the default
    kind is not stable); the model sorts the (key, position) pairs
    with the Standard Library's merge sort, and nothing proved below
    depends on how it orders equal keys. *)
Definition sort_lt (a b : float) : bool :=
  Float64.ltb a b || (Float64.is_nan b && negb (Float64.is_nan a)).

Definition sort_le (a b : float) : bool := negb (sort_lt b a).

Module KeyOrder <: TotalLeBool.
Definition t : Type := (float * nat)%type.
Definition leb (p q : t) : bool := sort_le (fst p) (fst q).
Theorem leb_total : forall p q : t, leb p q = true \/ leb q p = true.
Proof.
  intros [a i] [b j]; unfold leb, sort_le, sort_lt, Float64.ltb, SFltb; simpl.
  rewrite (SFcompare_swap b a).
  destruct a as [sa|sa| |sa ma ea], b as [sb|sb| |sb mb eb];
    try (simpl; auto; fail);
    destruct (SFcompare _ _) as [[]|]; simpl; auto.
Qed.
End KeyOrder.

Module KeySort := Sort KeyOrder.

Definition enumerate {A : Type} (a : list A) : list (A * nat) :=
  combine a (seq 0 (length a)).

(** [a.argsort()] and [np.sort(a)] of a 1-D array. *)
Definition argsort (a : array1 float) : list nat :=
  map snd (KeySort.sort (enumerate a)).

Definition sort (a : array1 float) : array1 float :=
  map fst (KeySort.sort (enumerate a)).

(** [a[idx]] for an array of positions [idx]. *)
Fixpoint take {A : Type} (a : list A) (idx : list nat) : result (list A) :=
  match idx with
  | [] => Ok []
  | i :: idx' =>
      x <- getitem a i ;;
      xs <- take a idx' ;;
      Ok (x :: xs)
  end.

(** *** Reductions

    A reduction by an operation that has no identity ([np.fmin],
    [np.fmax]) starts from the first element and takes the others in
    index order. *)
Definition reduce (f : float -> float -> float) (a : array1 float) : option float :=
  match a with
  | [] => None
  | x :: a' => Some (fold_left f a' x)
  end.

(** *** Sums

    [np.add.reduce] does not add in index order.  Over an array
    stored row after row without gaps (as the array [calculate_ndvi]
    returns is, and every copy or flattening of one) its inner loop
    takes the whole array at once, and is the pairwise summation of
    NumPy's [loops_utils.h]:

    - fewer than 8 terms are added one after the other, from a zero;
    - up to 128 terms are added in eight accumulators, [r[j]] taking
      the terms [j], [8 + j], [16 + j], ... of the whole blocks of
      eight; the accumulators are added as
      [((r0 + r1) + (r2 + r3)) + ((r4 + r5) + (r6 + r7))], and the
      terms after the last whole block are added to that one after
      the other;
    - more than 128 terms are cut in two, the first part of [n / 2]
      terms less [n / 2 % 8], each part is summed in the same way,
      and the two sums are added.

    The summation is written for any addition, so that the additions
    of two runs can be compared.  The recursion is on a depth, and
    the length of the array is depth enough
    ([pairwise_sum_unfold]). *)
Section PairwiseSum.

Context {A : Type}.
Variable add : A -> A -> A.
Variable zero : A.

(** [r[j] = a[j]], then [r[j] += a[i + j]] for [i = 8, 16, ...] while
    [i < n - n % 8]. *)
Definition accumulator (a : list A) (j : nat) : A :=
  fold_left add (map (fun i => nth (8 * i + j) a zero) (seq 1 (length a / 8 - 1)))
    (nth j a zero).

Definition unrolled_sum (a : list A) : A :=
  let r := accumulator a in
  let res := add (add (add (r 0) (r 1)) (add (r 2) (r 3)))
                 (add (add (r 4) (r 5)) (add (r 6) (r 7))) in
  fold_left add (skipn (8 * (length a / 8)) a) res.

Fixpoint pairwise_sum_rec (depth : nat) (a : list A) : A :=
  let n := length a in
  if n <? 8 then fold_left add a zero
  else if n <=? 128 then unrolled_sum a
  else
    match depth with
    | 0 => unrolled_sum a
    | S depth' =>
        let n2 := n / 2 in
        let n2 := n2 - n2 mod 8 in
        add (pairwise_sum_rec depth' (firstn n2 a)) (pairwise_sum_rec depth' (skipn n2 a))
    end.

Definition pairwise_sum (a : list A) : A := pairwise_sum_rec (length a) a.

End PairwiseSum.

(** [np.sum(a)] of a binary64 array: the result starts as the
    identity [0.0] of the addition, and the pairwise sum of the array
    is added to it.  (The short loop of the pairwise sum starts from
    a zero, [0.] or [-0.0] with the version of NumPy: as the identity
    is added after it, the sum is the same, [sum_from_minus_zero].) *)
Definition sum (a : array1 float) : float :=
  Float64.add Float64.zero (pairwise_sum Float64.add Float64.zero a).

Definition isnan (a : array1 float) : list bool := map Float64.is_nan a.

(** [_replace_nan(a, 0)] of [nanfunctions]. *)
Definition replace_nan (a : array1 float) : array1 float :=
  map (fun x => if Float64.is_nan x then Float64.zero else x) a.

Definition count_not_nan (a : array1 float) : nat :=
  length (filter (fun x => negb (Float64.is_nan x)) a).

Definition divide_by_count (tot : float) (cnt : nat) : float :=
  Float64.div tot (Float64.of_Z (Z.of_nat cnt)).

(** [np.fmin], [np.fmax]: the other operand when one is NaN. *)
Definition fmin (x y : float) : float :=
  if Float64.leb x y || Float64.is_nan y then x else y.

Definition fmax (x y : float) : float :=
  if Float64.leb y x || Float64.is_nan y then x else y.

(** [np.nanmin(a)], [np.nanmax(a)] over all elements: the reduction
    by [fmin]/[fmax], which has no identity. *)
Definition nanmin (a : array2 float) : result float :=
  match reduce fmin (flatten a) with
  | Some m => Ok m
  | None => Raise ValueError
  end.

Definition nanmax (a : array2 float) : result float :=
  match reduce fmax (flatten a) with
  | Some m => Ok m
  | None => Raise ValueError
  end.

(** [np.nanmean(a)]: NaN replaced by 0, summed, divided by the
    number of entries that are not NaN. *)
Definition nanmean (a : array2 float) : float :=
  let flat := flatten a in
  let arr := replace_nan flat in
  let cnt := count_not_nan flat in
  let tot := sum arr in
  divide_by_count tot cnt.

(** [np.mean] of a 1-D array: its sum, divided by its length. *)
Definition mean (a : array1 float) : float :=
  divide_by_count (sum a) (length a).

(** [np.median] of a 1-D array without NaN: the array is partitioned
    so that the one or two middle places hold what they hold in the
    sorted array, and the mean of them is taken. *)
Definition median (a : array1 float) : float :=
  let sz := length a in
  let part := sort a in
  let szh := Nat.div sz 2 in
  if Nat.even sz
  then mean (firstn 2 (skipn (szh - 1) part))
  else mean (firstn 1 (skipn szh part)).

(** [np.nanmedian(a)]: the NaN entries are removed, then the median
    is taken; NaN when nothing is left.  (NumPy removes them by moving
    numbers from the end of the array into their places, which leaves
    the numbers in another order than here: the median is the same,
    [median_of_permutation].) *)
Definition nanmedian (a : array2 float) : float :=
  let arr1d := filter (fun x => negb (Float64.is_nan x)) (flatten a) in
  match arr1d with
  | [] => Float64.nan
  | _ => median arr1d
  end.

(** [np.nanvar(a)] with [ddof = 0], and [np.nanstd(a)], its square
    root. *)
Definition nanvar (a : array2 float) : float :=
  let flat := flatten a in
  let mask := isnan flat in
  let arr := replace_nan flat in
  let cnt := count_not_nan flat in
  let avg := divide_by_count (sum arr) cnt in
  let arr := map (fun x => Float64.sub x avg) arr in
  let arr := map2 (fun (m : bool) x => if m then Float64.zero else x) mask arr in
  let sqr := map (fun x => Float64.mul x x) arr in
  let var := sum sqr in
  let dof := cnt in
  divide_by_count var dof.

Definition nanstd (a : array2 float) : float := Float64.sqrt (nanvar a).

End np.

(** ** rasterio

    [rasterio.open(path)] is a lookup in the file system; a data set
    gives its bands ([src.read()]) and its metadata.  [src.crs] is
    None on a file that has no coordinate system; otherwise it is an
    object, kept here as the text its [to_string()] gives. *)

Record DatasetReader : Type := {
  read : ndarray3;
  crs : option String.string;
  bounds : Z * Z * Z * Z
}.

Definition filesystem : Type := String.string -> option DatasetReader.

Definition rasterio_open (fs : filesystem) (path : String.string) : result DatasetReader :=
  match fs path with
  | Some src => Ok src
  | None => Raise RasterioIOError
  end.

(** ** calculate_ndvi *)

(** The body of the [with] block, on the array [src.read()] returned. *)
Definition ndvi_of_bands (bands : ndarray3) : result (array2 float) :=
  red_band <- np.getitem (stack_data bands) 2 ;;
  nir_band <- np.getitem (stack_data bands) 3 ;;
  let denominator := np.add nir_band red_band in
  let ndvi :=
    np.where_ (np.not_equal denominator 0)
              (np.true_divide (np.subtract nir_band red_band) denominator) 0 in
  let ndvi := np.clip ndvi (-1) 1 in
  Ok ndvi.

Definition calculate_ndvi (fs : filesystem) (path_tiff : String.string) : result (array2 float) :=
  src <- rasterio_open fs path_tiff ;;
  let bands := read src in
  ndvi_of_bands bands.

(** ** print_ndvi_stats

    The function prints six lines and returns nothing; the model
    returns what was printed, and the exception when a reduction
    raised before the end. *)

Inductive line : Type :=
| Text (s : String.string)
| Labelled (s : String.string) (v : float).

Definition io (A : Type) : Type := (list line * result A)%type.

Definition io_bind {A B : Type} (c : io A) (k : A -> io B) : io B :=
  match c with
  | (out, Ok a) => let '(out', r) := k a in (out ++ out', r)
  | (out, Raise e) => (out, Raise e)
  end.

Definition io_lift {A : Type} (r : result A) : io A := ([], r).
Definition print_text (s : String.string) : io unit := ([Text s], Ok tt).
Definition print (s : String.string) (v : float) : io unit := ([Labelled s v], Ok tt).

Definition print_ndvi_stats (ndvi : array2 float) : io unit :=
  io_bind (print_text "NDVI Statistics:") (fun _ =>
  io_bind (io_lift (np.nanmin ndvi)) (fun minimum =>
  io_bind (print "Minimum:" minimum) (fun _ =>
  io_bind (io_lift (np.nanmax ndvi)) (fun maximum =>
  io_bind (print "Maximum:" maximum) (fun _ =>
  io_bind (print "Mean:" (np.nanmean ndvi)) (fun _ =>
  io_bind (print "Median:" (np.nanmedian ndvi)) (fun _ =>
  print "Standard Deviation:" (np.nanstd ndvi)))))))).

(** ** get_top_ndvi_values *)

(** [a[start:]]: a negative [start] counts from the end, and both
    ends are clamped to the array. *)
Definition slice_from {A : Type} (a : list A) (start : Z) : list A :=
  let n := Z.of_nat (length a) in
  let lo := if (start <? 0)%Z then Z.max (start + n) 0 else Z.min start n in
  skipn (Z.to_nat lo) a.

(** [a[::-1]] *)
Definition reversed {A : Type} (a : list A) : list A := rev a.

Record DataFrame : Type := {
  NDVI : list float;
  Index : list nat
}.

Definition rows (df : DataFrame) : list (float * nat) := combine (NDVI df) (Index df).

Definition get_top_ndvi_values (ndvi : array2 float) (num_values : Z) : result DataFrame :=
  let flat_ndvi := np.flatten ndvi in
  let top_indices := reversed (slice_from (np.argsort flat_ndvi) (- num_values)) in
  top_values <- np.take flat_ndvi top_indices ;;
  let df := {| NDVI := top_values; Index := top_indices |} in
  Ok df.

(** The call without [num_values]. *)
Definition default_num_values : Z := 10.

Definition get_top_ndvi_values_default (ndvi : array2 float) : result DataFrame :=
  get_top_ndvi_values ndvi default_num_values.

(** ** Paths and directory listings

    [os.path.join] of POSIX.  [glob.glob] is a question to the
    operating system: the functions below take its answer as an
    argument, the list of matches for each pattern, in the order
    [glob] gives them. *)

Module os_path.

Definition sep : ascii := "/"%char.

Definition startswith_sep (s : String.string) : bool :=
  match s with
  | String c _ => Ascii.eqb c sep
  | EmptyString => false
  end.

Fixpoint endswith_sep (s : String.string) : bool :=
  match s with
  | EmptyString => false
  | String c EmptyString => Ascii.eqb c sep
  | String _ s' => endswith_sep s'
  end.

(** [join(a, b)]: [b] alone when it is absolute, otherwise [a] and
    [b] with one separator between them, unless [a] is empty or
    brings its own. *)
Definition join (a b : String.string) : String.string :=
  let path := a in
  if startswith_sep b then b
  else if String.eqb path "" || endswith_sep path then path ++ b
  else path ++ String sep b.

End os_path.

Definition glob_results : Type := String.string -> list String.string.

(** ** xarray

    A [DataArray] is an array with named dimensions and a name. *)

Record DataArray : Type := {
  values : ndarray3;
  dims : list String.string;
  name : String.string
}.

(** A 2-D array of some dtype: one band. *)
Record ndarray2 : Type := {
  plane_dtype : dtype;
  plane_data : array2 (elem plane_dtype)
}.

(** [raster_dataset.shape[0]] *)
Definition shape0 (raster_dataset : DataArray) : nat := band_count (values raster_dataset).

(** [raster_dataset[band]]: the band, without the names the
    DataArray carries. *)
Definition getitem_band (raster_dataset : DataArray) (band : nat) : result ndarray2 :=
  plane <- np.getitem (stack_data (values raster_dataset)) band ;;
  Ok {| plane_dtype := stack_dtype (values raster_dataset); plane_data := plane |}.

(** ** matplotlib and the console

    The plotting functions return little; what they do is call
    matplotlib, print, and read the keyboard.  The model records the
    calls in order, with their arguments. *)

(** What is handed to [imshow]: a band, an array of floats, a stack
    with its bands as the last axis ([transpose(1, 2, 0)]), or the
    mean of a DataArray over its bands.  The mean is only displayed;
    it is recorded as the expression, its values are not computed
    here. *)
Inductive picture : Type :=
| Plane (a : ndarray2)
| Floats (a : array2 float)
| Channels (a : ndarray3)
| MeanOverBands (d : DataArray).

Record imshow_kw : Type := {
  cmap : option String.string;
  extent : option (list Z);
  vmin : option Z;
  vmax : option Z
}.

Definition no_kw : imshow_kw :=
  {| cmap := None; extent := None; vmin := None; vmax := None |}.

Inductive event : Type :=
| Printed (s : String.string)
| PrintedData (d : DataArray)
| Prompted (s : String.string)
| Subplots (nrows ncols : nat) (figsize : nat * nat)
| AxImshow (ax : nat) (img : picture) (kw : imshow_kw)
| AxSetTitle (ax : nat) (title : String.string)
| AxAxis (ax : nat) (arg : String.string)
| TightLayout
| Imshow (img : picture) (kw : imshow_kw)
| Title (s : String.string)
| Xlabel (s : String.string)
| Ylabel (s : String.string)
| Colorbar (label : String.string)
| Axis (arg : String.string)
| Plot (xs ys : list Z) (color : String.string)
| ShowFigure.

(** The exceptions above, and the others these functions can end
    with. *)
Inductive error : Type :=
| Exception (e : exception)
| TypeError
| EOFError
| AttributeError
| FloatingPointError
| RuntimeWarning.

Inductive outcome (A : Type) : Type :=
| Returned (a : A)
| Raised (e : error).

Arguments Returned {A} a.
Arguments Raised {A} e.

(** A line typed at the keyboard, as [int] reads it: an integer
    literal with its value, or a text [int] rejects. *)
Inductive typed : Type :=
| Integer (n : Z)
| NotAnInteger.

(** A run of a function: from the lines that will be typed, to the
    calls made, the lines left unread, and how the run ended. *)
Definition script (A : Type) : Type :=
  list typed -> list event * list typed * outcome A.

Definition ret {A : Type} (a : A) : script A := fun kb => ([], kb, Returned a).

Definition raise {A : Type} (e : error) : script A := fun kb => ([], kb, Raised e).

Definition emit (e : event) : script unit := fun kb => ([e], kb, Returned tt).

Definition lift {A : Type} (r : result A) : script A :=
  match r with
  | Ok a => ret a
  | Raise e => raise (Exception e)
  end.

Definition then_ {A B : Type} (c : script A) (k : A -> script B) : script B :=
  fun kb =>
    match c kb with
    | (out, kb', Returned a) =>
        let '(out', kb'', r) := k a kb' in (out ++ out', kb'', r)
    | (out, kb', Raised e) => (out, kb', Raised e)
    end.

Notation "x <~ c ;; k" := (then_ c (fun x => k))
  (at level 61, c at next level, right associativity).
Notation "c ;;; k" := (then_ c (fun _ => k))
  (at level 61, right associativity).

Fixpoint for_each {A : Type} (items : list A) (body : A -> script unit) : script unit :=
  match items with
  | [] => ret tt
  | x :: rest => body x ;;; for_each rest body
  end.

Definition shown {A : Type} (run : list event * list typed * outcome A) : list event :=
  fst (fst run).

Definition unread {A : Type} (run : list event * list typed * outcome A) : list typed :=
  snd (fst run).

Definition ended {A : Type} (run : list event * list typed * outcome A) : outcome A :=
  snd run.

(** [print(...)] *)
Definition print_line (s : String.string) : script unit := emit (Printed s).

(** [int(input(prompt))]: the prompt is written, a line is read
    (EOFError when there is none) and converted (ValueError when it
    is no integer literal). *)
Definition input (prompt : String.string) : script typed :=
  fun kb =>
    match kb with
    | [] => ([Prompted prompt], [], Raised EOFError)
    | line :: kb' => ([Prompted prompt], kb', Returned line)
    end.

Definition int_ (line : typed) : script Z :=
  match line with
  | Integer n => ret n
  | NotAnInteger => raise (Exception ValueError)
  end.

(** matplotlib takes image data of shape (M, N), (M, N, 1), (M, N, 3)
    or (M, N, 4), and raises TypeError on any other.  A stack shown
    with its bands as the last axis has as many channels as bands. *)
Definition valid_image (img : picture) : bool :=
  match img with
  | Channels a => (band_count a =? 1) || (band_count a =? 3) || (band_count a =? 4)
  | Plane _ | Floats _ | MeanOverBands _ => true
  end.

Definition plt_imshow (img : picture) (kw : imshow_kw) : script unit :=
  if valid_image img then emit (Imshow img kw) else raise TypeError.

Definition ax_imshow (ax : nat) (img : picture) (kw : imshow_kw) : script unit :=
  if valid_image img then emit (AxImshow ax img kw) else raise TypeError.

(** [plt.subplots(nrows, ncols, figsize)]: the grid of axes, numbered
    row by row; a grid needs at least one row (ValueError otherwise).
    With one row matplotlib returns the row itself; flattened it is
    the same list. *)
Definition axes_grid (nrows ncols : nat) : array2 nat :=
  map (fun r => seq (r * ncols) ncols) (seq 0 nrows).

Definition plt_subplots (nrows ncols : nat) (figsize : nat * nat) : script (array2 nat) :=
  if nrows =? 0 then raise (Exception ValueError)
  else emit (Subplots nrows ncols figsize) ;;; ret (axes_grid nrows ncols).

(** The decimal digits of a number, as an f-string writes it. *)
Definition decimal (n : nat) : String.string := NilEmpty.string_of_uint (Nat.to_uint n).

(** ** read_and_plot_tiff *)

Definition read_and_plot_tiff (fs : filesystem) (glob_glob : glob_results)
    (file_path : String.string) : script DataArray :=
  let tiff_files := glob_glob (os_path.join file_path "*.tif") in
  match tiff_files with
  | [] => raise (Exception ValueError)
  | first :: _ =>
      src <~ lift (rasterio_open fs first) ;;
      let raster_data := read src in
      let raster_dataset :=
        {| values := raster_data; dims := ["band"; "y"; "x"]; name := "raster" |} in
      let num_bands := shape0 raster_dataset in
      let num_rows := (num_bands + 1) / 2 in
      axes <~ plt_subplots num_rows 2 (12, 4 * num_rows) ;;
      for_each (combine (seq 0 num_bands) (np.flatten axes)) (fun '(band, ax) =>
        plane <~ lift (getitem_band raster_dataset band) ;;
        ax_imshow ax (Plane plane)
          {| cmap := Some "viridis"; extent := None; vmin := None; vmax := None |} ;;;
        emit (AxSetTitle ax ("Band " ++ decimal (band + 1))) ;;;
        emit (AxAxis ax "on")) ;;;
      emit TightLayout ;;;
      emit ShowFigure ;;;
      let combined_image := MeanOverBands raster_dataset in
      plt_imshow combined_image
        {| cmap := Some "viridis"; extent := None; vmin := None; vmax := None |} ;;;
      emit (Title "Combined Bands") ;;;
      emit (Colorbar "Pixel Value") ;;;
      emit (Axis "on") ;;;
      emit ShowFigure ;;;
      print_line "Raster Cell Values:" ;;;
      emit (PrintedData raster_dataset) ;;;
      ret raster_dataset
  end.

(** ** plot_raster_with_coordinates

    [bounds] is (left, bottom, right, top), as rasterio has it.
    [src.crs.to_string()] is an attribute lookup on [src.crs]: on a
    file without a coordinate system that is None, which has no
    [to_string], and the lookup raises AttributeError. *)

Definition to_string (crs : option String.string) : script String.string :=
  match crs with
  | Some text => ret text
  | None => raise AttributeError
  end.

Definition plot_raster_with_coordinates (fs : filesystem) (path_tiff : String.string)
    : script String.string :=
  src <~ lift (rasterio_open fs path_tiff) ;;
  let raster_data := read src in
  crs_name <~ to_string (crs src) ;;
  let '(left_, bottom, right_, top) := bounds src in
  let '(xmin, ymin) := (left_, bottom) in
  let '(xmax, ymax) := (right_, top) in
  plt_imshow (Channels raster_data)
    {| cmap := None; extent := Some [xmin; xmax; ymin; ymax]; vmin := None; vmax := None |} ;;;
  emit (Xlabel "X Coordinate") ;;;
  emit (Ylabel "Y Coordinate") ;;;
  emit (Title ("Raster Image - Coordinate System: " ++ crs_name)) ;;;
  emit (Colorbar "Pixel Value") ;;;
  emit ShowFigure ;;;
  ret crs_name.

(** ** plot_ndvi *)

Definition plot_ndvi (ndvi : array2 float) : script unit :=
  plt_imshow (Floats ndvi)
    {| cmap := Some "RdYlGn"; extent := None; vmin := Some (-1)%Z; vmax := Some 1%Z |} ;;;
  emit (Title "Normalized Difference Vegetation Index (NDVI)") ;;;
  emit (Colorbar "NDVI") ;;;
  emit ShowFigure.

(** ** draw_square_on_raster *)

Definition draw_square_on_raster (fs : filesystem) (path_tiff : String.string)
    : script unit :=
  src <~ lift (rasterio_open fs path_tiff) ;;
  let raster_data := read src in
  plt_imshow (Channels raster_data) no_kw ;;;
  print_line "Enter the coordinates for the square:" ;;;
  xmin <~ (line <~ input "xmin (x > 200): " ;; int_ line) ;;
  ymin <~ (line <~ input "ymin (y > 200): " ;; int_ line) ;;
  xmax <~ (line <~ input "xmax (x < 400): " ;; int_ line) ;;
  ymax <~ (line <~ input "ymax (y < 400): " ;; int_ line) ;;
  emit (Plot [xmin; xmax; xmax; xmin; xmin] [ymin; ymin; ymax; ymax; ymin] "red") ;;;
  emit ShowFigure.

(** ** Floating-point errors: [np.seterr] and the warnings filter

    The array operations of [calculate_ndvi] read a state the
    function is not given: how NumPy treats a floating-point error
    ([np.seterr], [np.errstate]) and what Python does with a warning
    (the warnings filter).  After an array operation NumPy looks at
    the flags the processor raised during it, in the order divide by
    zero, overflow, underflow, invalid value, and treats each as the
    state says: not at all, with a RuntimeWarning, with a
    FloatingPointError, or with a line on the console.  A warning is
    an exception when the filter says so.  (The modes 'call' and
    'log', which hand the error to a callback, are not modelled.)

    [calculate_ndvi] above is the function in a state where none of
    this raises, as in a fresh interpreter; [calculate_ndvi_under]
    below is the function in any state. *)

Inductive fp_error : Type :=
| DivideByZero
| Overflow
| Underflow
| Invalid.

Inductive handling : Type :=
| Ignore
| Warn
| RaiseError
| PrintMessage.

Record errstate : Type := {
  divide : handling;
  over : handling;
  under : handling;
  invalid : handling
}.

(** The settings of a fresh interpreter. *)
Definition default_errstate : errstate :=
  {| divide := Warn; over := Warn; under := Ignore; invalid := Warn |}.

(** [np.seterr(all=h)] *)
Definition seterr_all (h : handling) : errstate :=
  {| divide := h; over := h; under := h; invalid := h |}.

Record ambient : Type := {
  seterr : errstate;
  warnings_as_errors : bool
}.

Definition fresh_interpreter : ambient :=
  {| seterr := default_errstate; warnings_as_errors := false |}.

Definition handling_of (s : errstate) (e : fp_error) : handling :=
  match e with
  | DivideByZero => divide s
  | Overflow => over s
  | Underflow => under s
  | Invalid => invalid s
  end.

(** The flags raised during one array operation. *)
Definition flags : Type := fp_error -> bool.

Definition no_flags : flags := fun _ => false.

(** A sum or a difference [r] of [x] and [y]: overflow when two
    finite numbers give an infinity, invalid when two numbers give
    NaN (the difference of two equal infinities).  A sum of two
    binary64 numbers that is tiny is exact, and raises no underflow. *)
Definition sum_flags (x y r : float) : flags :=
  fun e =>
    match e with
    | Overflow => Float64.is_finite x && Float64.is_finite y && Float64.is_inf r
    | Invalid =>
        negb (Float64.is_nan x) && negb (Float64.is_nan y) && Float64.is_nan r
    | DivideByZero | Underflow => false
    end.

(** Whether the quotient of two finite numbers other than zero raises
    the underflow flag (it is tiny and not exact) is up to the
    processor, which finds a result tiny before or after rounding it:
    the answer of the machine is an argument. *)
Definition underflows : Type := float -> float -> bool.

Definition never_underflows : underflows := fun _ _ => false.

Definition finite_nonzero (x : float) : bool :=
  Float64.is_finite x && negb (Float64.is_zero x).

Definition quotient_flags (tiny : underflows) (x y r : float) : flags :=
  fun e =>
    match e with
    | DivideByZero => finite_nonzero x && Float64.is_zero y
    | Overflow => Float64.is_finite x && finite_nonzero y && Float64.is_inf r
    | Underflow => finite_nonzero x && finite_nonzero y && tiny x y
    | Invalid =>
        negb (Float64.is_nan x) && negb (Float64.is_nan y) && Float64.is_nan r
    end.

(** The flags of the scalar kernels, by dtype.  Integer sums and
    differences wrap around in silence; integers are divided as
    binary64 numbers, where a zero divisor is the one error there can
    be. *)
Definition add_flags1 (d : dtype) : elem d -> elem d -> flags :=
  match d with
  | Int _ => fun _ _ => no_flags
  | Float64 => fun x y => sum_flags x y (Float64.add x y)
  end.

Definition subtract_flags1 (d : dtype) : elem d -> elem d -> flags :=
  match d with
  | Int _ => fun _ _ => no_flags
  | Float64 => fun x y => sum_flags x y (Float64.sub x y)
  end.

Definition true_divide_flags1 (tiny : underflows) (d : dtype) : elem d -> elem d -> flags :=
  match d with
  | Int _ => fun a b e =>
      match e with
      | DivideByZero => (b =? 0)%Z && negb (a =? 0)%Z
      | Invalid => (b =? 0)%Z && (a =? 0)%Z
      | Overflow | Underflow => false
      end
  | Float64 => fun x y => quotient_flags tiny x y (Float64.div x y)
  end.

(** A flag is raised during an array operation when it is at one
    element. *)
Definition raised_by {A B : Type} (f : A -> B -> flags) (a : array2 A) (b : array2 B) : flags :=
  fun e => existsb (fun up : bool => up) (np.flatten (np.lift2 (fun x y => f x y e) a b)).

Definition attempt {A B : Type} (r : outcome A) (k : A -> outcome B) : outcome B :=
  match r with
  | Returned a => k a
  | Raised e => Raised e
  end.

Notation "x <== c ;; k" := (attempt c (fun x => k))
  (at level 61, c at next level, right associativity).

Definition of_result {A : Type} (r : result A) : outcome A :=
  match r with
  | Ok a => Returned a
  | Raise e => Raised (Exception e)
  end.

Definition treat (st : ambient) (h : handling) : outcome unit :=
  match h with
  | Ignore | PrintMessage => Returned tt
  | Warn => if warnings_as_errors st then Raised RuntimeWarning else Returned tt
  | RaiseError => Raised FloatingPointError
  end.

Definition check (st : ambient) (raised : flags) (e : fp_error) : outcome unit :=
  if raised e then treat st (handling_of (seterr st) e) else Returned tt.

Definition handle_fperr (st : ambient) (raised : flags) : outcome unit :=
  _ <== check st raised DivideByZero ;;
  _ <== check st raised Overflow ;;
  _ <== check st raised Underflow ;;
  check st raised Invalid.

(** An array operation in a state: the array when the errors of the
    operation let it through. *)
Definition add_under {d : dtype} (st : ambient) (a b : array2 (elem d))
    : outcome (array2 (elem d)) :=
  _ <== handle_fperr st (raised_by (add_flags1 d) a b) ;;
  Returned (np.add a b).

Definition subtract_under {d : dtype} (st : ambient) (a b : array2 (elem d))
    : outcome (array2 (elem d)) :=
  _ <== handle_fperr st (raised_by (subtract_flags1 d) a b) ;;
  Returned (np.subtract a b).

Definition true_divide_under {d : dtype} (st : ambient) (tiny : underflows)
    (a b : array2 (elem d)) : outcome (array2 float) :=
  _ <== handle_fperr st (raised_by (true_divide_flags1 tiny d) a b) ;;
  Returned (np.true_divide a b).

(** Comparisons, [np.where] and [np.clip] raise no flag.  The
    arguments of [np.where] are evaluated from left to right, and the
    quotient at every pixel, also where the denominator is zero. *)
Definition ndvi_of_bands_under (st : ambient) (tiny : underflows) (bands : ndarray3)
    : outcome (array2 float) :=
  red_band <== of_result (np.getitem (stack_data bands) 2) ;;
  nir_band <== of_result (np.getitem (stack_data bands) 3) ;;
  denominator <== add_under st nir_band red_band ;;
  let nonzero := np.not_equal denominator 0 in
  difference <== subtract_under st nir_band red_band ;;
  quotient <== true_divide_under st tiny difference denominator ;;
  let ndvi := np.where_ nonzero quotient 0 in
  let ndvi := np.clip ndvi (-1) 1 in
  Returned ndvi.

Definition calculate_ndvi_under (st : ambient) (tiny : underflows)
    (fs : filesystem) (path_tiff : String.string) : outcome (array2 float) :=
  src <== of_result (rasterio_open fs path_tiff) ;;
  let bands := read src in
  ndvi_of_bands_under st tiny bands.

(** * Vocabulary of the statements

    The definitions below are not part of the program: they name what
    the theorems talk about. *)

(** ** Example data *)

(** The array [[-1, 0], [0.5, 1]]. *)
Definition example_ndvi : array2 float :=
  [[Float64.of_Z (-1); Float64.of_Z 0]; [Float64.dyadic 1 (-1); Float64.of_Z 1]].

Definition half : float := Float64.dyadic 1 (-1).

Definition minus_half : float := Float64.dyadic (-1) (-1).

Definition stack (d : dtype) (data : array3 (elem d)) : ndarray3 :=
  {| stack_dtype := d; stack_data := data |}.

Definition dataset (bands : ndarray3) : DatasetReader :=
  {| read := bands; crs := Some "EPSG:32633"; bounds := (0, 0, 1, 1)%Z |}.

Definition single_file (path : String.string) (src : DatasetReader) : filesystem :=
  fun p => if String.eqb p path then Some src else None.

(** One pixel per band, bands 0 and 1 zero, red and near-infrared as
    given. *)
Definition one_pixel (d : dtype) (zero red nir : elem d) : ndarray3 :=
  stack d [[[zero]]; [[zero]]; [[red]]; [[nir]]].

(** ** Bands and pixels *)

(** Band [b] of a stack (the empty array when there is none). *)
Definition band (bands : ndarray3) (b : nat) : array2 (elem (stack_dtype bands)) :=
  nth b (stack_data bands) [].

Definition pixel {A : Type} (a : array2 A) (i j : nat) : option A :=
  match nth_error a i with
  | Some row => nth_error row j
  | None => None
  end.

Definition both {A B C : Type} (f : A -> B -> C) (x : option A) (y : option B) : option C :=
  match x, y with
  | Some x, Some y => Some (f x y)
  | _, _ => None
  end.

(** The NDVI of one pixel, as the array expression computes it. *)
Definition ndvi_at (d : dtype) (nir red : elem d) : float :=
  let denominator := np.add1 d nir red in
  np.clip1 (-1) 1
    (if np.not_equal1 d 0 denominator
     then np.true_divide1 d (np.subtract1 d nir red) denominator
     else Float64.of_Z 0).

(** The array [calculate_ndvi] returns for given bands. *)
Definition ndvi_array (d : dtype) (nir_band red_band : array2 (elem d)) : array2 float :=
  np.clip
    (np.where_ (np.not_equal (np.add nir_band red_band) 0)
       (np.true_divide (np.subtract nir_band red_band) (np.add nir_band red_band)) 0)
    (-1) 1.

(** The denominator the code computes at a pixel compares equal to 0. *)
Definition denominator_is_zero (d : dtype) (nir red : elem d) : Prop :=
  np.not_equal1 d 0 (np.add1 d nir red) = false.

(** The two values sum to exactly zero: as integers, or as binary64
    numbers (two zeros of any sign, or a finite number and its
    opposite). *)
Definition exact_zero_sum (d : dtype) : elem d -> elem d -> Prop :=
  match d with
  | Int _ => fun nir red => (nir + red = 0)%Z
  | Float64 => fun nir red =>
      (Float64.is_zero nir = true /\ Float64.is_zero red = true) \/
      (Float64.is_finite nir = true /\ red = Float64.opp nir)
  end.

(** [-1 <= x <= 1] *)
Definition in_unit_range (x : float) : bool :=
  Float64.between (Float64.of_Z (-1)) (Float64.of_Z 1) x.

(** A finite binary64 number: a zero, or a mantissa and an exponent
    in the format's range. *)
Definition finite_number (x : float) : bool :=
  Float64.is_finite x && valid_binary 53 1024 x.

(** Every integer is finite; a float is when it is a finite number. *)
Definition finite_elem (d : dtype) : elem d -> Prop :=
  match d with
  | Int _ => fun _ => True
  | Float64 => fun x => finite_number x = true
  end.

(** ** Rounding *)

(** The exponent [shr_fexp] brings a mantissa [m] at exponent [e] to. *)
Definition round_exp (m e : Z) : Z := Z.max e (fexp 53 1024 (Zdigits2 m + e)).

(** What [binary_round_aux] returns for a final mantissa and exponent. *)
Definition round_result (s : bool) (m2 e2 : Z) : float :=
  match m2 with
  | 0%Z => S754_zero s
  | Z.pos p => if (e2 <=? 971)%Z then S754_finite s p e2 else S754_infinity s
  | Z.neg _ => S754_nan
  end.

Definition max_mantissa : Z := 2 ^ 53 - 1.

(** [m * 2^e] is at most the largest finite binary64 number. *)
Definition below_max (m e : Z) : Prop :=
  (e <= 971 /\ m <= max_mantissa * 2 ^ (971 - e))%Z.

(** The exponent the format gives [m * 2^k]. *)
Definition grid_exp (m k : Z) : Z := fexp 53 1024 (Zdigits2 (Z.abs m) + k)%Z.

(** ** The order of the sort *)

(** A float's place in the order NumPy sorts by, as a triple compared
    lexicographically: NaN above [+inf], the finite numbers by sign,
    exponent and mantissa, both zeros together. *)
Definition rank (x : float) : Z * Z * Z :=
  match x with
  | S754_nan => (3, 0, 0)
  | S754_infinity false => (2, 0, 0)
  | S754_infinity true => (-2, 0, 0)
  | S754_zero _ => (0, 0, 0)
  | S754_finite false m e => (1, e, Zpos m)
  | S754_finite true m e => (-1, - e, Zneg m)
  end%Z.

Definition rank_lt (a b : Z * Z * Z) : Prop :=
  let '(a1, a2, a3) := a in
  let '(b1, b2, b3) := b in
  (a1 < b1 \/ (a1 = b1 /\ (a2 < b2 \/ (a2 = b2 /\ a3 < b3))))%Z.

(** The (value, position) pairs of an array in ascending order of
    value: [argsort] is their positions, [np.sort] their values. *)
Definition sorted_pairs (flat : array1 float) : list (float * nat) :=
  np.KeySort.sort (np.enumerate flat).

Definition key_le (p q : float * nat) : Prop := np.sort_le (fst p) (fst q) = true.

(** The flat index of a row points at the row's value. *)
Definition dereferences (flat : array1 float) (p : float * nat) : Prop :=
  nth_error flat (snd p) = Some (fst p).

(** The rows [get_top_ndvi_values] returns. *)
Definition ranked (ndvi : array2 float) (num_values : Z) : list (float * nat) :=
  rev (slice_from (sorted_pairs (np.flatten ndvi)) (- num_values)).

(** ** NaN entries and numbers *)

Definition count_nan (a : array1 float) : nat := length (filter Float64.is_nan a).

Definition not_nan (x : float) : bool := negb (Float64.is_nan x).

(** The entries of an array that are not NaN, in row-major order. *)
Definition numbers (a : array2 float) : list float := filter not_nan (np.flatten a).

(** Equal, or two zeros that differ in sign at most. *)
Definition same_number (x y : float) : Prop :=
  x = y \/ (Float64.is_zero x = true /\ Float64.is_zero y = true).

(** ** Statistics, as the spec names them

    Over a list of numbers: least and greatest element, arithmetic
    mean, median, and the population standard deviation (the square
    root of the mean squared deviation from the mean, the divisor
    being the number of values). *)
Module Spec.

Definition is_minimum (m : float) (xs : list float) : Prop :=
  In m xs /\ Forall (fun x => Float64.leb m x = true) xs.

Definition is_maximum (m : float) (xs : list float) : Prop :=
  In m xs /\ Forall (fun x => Float64.leb x m = true) xs.

(** What the sum of binary64 numbers is depends on the order in
    which they are added.  [is_sum s xs]: [s] is what one order
    gives, every term of [xs] added once; zeros may be added too,
    which change a sum in the sign of a zero at most. *)
Inductive is_sum : float -> list float -> Prop :=
| sum_of_none : is_sum Float64.zero []
| sum_of_one (x : float) : is_sum x [x]
| sum_of_two (s t : float) (xs ys : list float) :
    is_sum s xs -> is_sum t ys -> is_sum (Float64.add s t) (xs ++ ys)
| sum_in_other_order (s : float) (xs ys : list float) :
    Permutation xs ys -> is_sum s xs -> is_sum s ys.

Definition is_mean (m : float) (xs : list float) : Prop :=
  exists s : float,
    is_sum s xs /\ m = Float64.div s (Float64.of_Z (Z.of_nat (length xs))).

Definition squared_deviation (mu x : float) : float :=
  Float64.mul (Float64.sub x mu) (Float64.sub x mu).

Definition is_population_std (sd : float) (xs : list float) : Prop :=
  exists mu ss : float,
    is_mean mu xs /\
    is_sum ss (map (squared_deviation mu) xs) /\
    sd = Float64.sqrt (Float64.div ss (Float64.of_Z (Z.of_nat (length xs)))).

Definition ascending (s : list float) : Prop :=
  StronglySorted (fun x y => Float64.leb x y = true) s.

(** The middle element of a list of odd length, the two middle
    elements of a list of even length. *)
Definition middle (s : list float) : list float :=
  let n := length s in
  if Nat.even n then firstn 2 (skipn (n / 2 - 1) s) else firstn 1 (skipn (n / 2) s).

Definition is_median (m : float) (xs : list float) : Prop :=
  exists s : list float, Permutation s xs /\ ascending s /\ is_mean m (middle s).

(** The statistics with the terms added in the order of the list,
    from zero. *)
Definition total (xs : list float) : float := fold_left Float64.add xs Float64.zero.

Definition arithmetic_mean (xs : list float) : float :=
  Float64.div (total xs) (Float64.of_Z (Z.of_nat (length xs))).

Definition squared_deviations (xs : list float) : list float :=
  let mu := arithmetic_mean xs in
  map (fun x => Float64.mul (Float64.sub x mu) (Float64.sub x mu)) xs.

Definition population_std (xs : list float) : float :=
  Float64.sqrt
    (Float64.div (total (squared_deviations xs)) (Float64.of_Z (Z.of_nat (length xs)))).

(** The sample standard deviation divides by one less. *)
Definition sample_std (xs : list float) : float :=
  Float64.sqrt
    (Float64.div (total (squared_deviations xs))
       (Float64.of_Z (Z.of_nat (length xs) - 1))).

End Spec.

(** The pairwise summation run on lists of terms, with concatenation
    for the addition: the eight accumulators put together, and
    accumulator [j] after the first [k] blocks of eight. *)
Definition tree8 {X : Type} (r : nat -> list X) : list X :=
  ((r 0 ++ r 1) ++ (r 2 ++ r 3)) ++ ((r 4 ++ r 5) ++ (r 6 ++ r 7)).

Definition lane {X : Type} (b : list (list X)) (k j : nat) : list X :=
  concat (map (fun i => nth (8 * i + j) b []) (seq 0 k)).

(** The sum of a list of integers. *)
Definition exact_sum (ms : list Z) : Z := fold_right Z.add 0%Z ms.

(** The numbers [m * 2^k] for the integers [m] of a list: numbers on
    one grid. *)
Definition on_grid (k : Z) (ms : list Z) : list float :=
  map (fun m => Float64.dyadic m k) ms.

(** A sum accumulated from a given start. *)
Definition fold_sum (a : list float) (acc : float) : float := fold_left Float64.add a acc.

(** [np.fmin] and [np.fmax] are [pick] for [<=] and for [>=]. *)
Definition pick (le : float -> float -> bool) (x y : float) : float :=
  if le x y || Float64.is_nan y then x else y.

Definition geb (x y : float) : bool := Float64.leb y x.

(** The extremum of the numbers seen, NaN while there were none. *)
Definition extremum (le : float -> float -> bool) (m : float) (seen : list float) : Prop :=
  match seen with
  | [] => m = Float64.nan
  | _ => In m seen /\ Forall (fun x => le m x = true) seen
  end.

(** The six lines [print_ndvi_stats] prints. *)
Definition report (minimum maximum mean median std : float) : list line :=
  [Text "NDVI Statistics:";
   Labelled "Minimum:" minimum;
   Labelled "Maximum:" maximum;
   Labelled "Mean:" mean;
   Labelled "Median:" median;
   Labelled "Standard Deviation:" std].

(** ** The NDVI of a pixel *)

(** The difference and the sum of the two values fit the dtype:
    always on floats, which round instead. *)
Definition nothing_wraps (d : dtype) : elem d -> elem d -> Prop :=
  match d with
  | Int k => fun nir red => in_range k (nir - red) /\ in_range k (nir + red)
  | Float64 => fun _ _ => True
  end.

(** (nir - red) / (nir + red) in binary64, 0 where the sum is 0, cut
    to [-1, 1]: on integers the difference and the sum are the exact
    ones. *)
Definition clipped_quotient (d : dtype) : elem d -> elem d -> float :=
  match d with
  | Int _ => fun nir red =>
      np.clip1 (-1) 1
        (if (nir + red =? 0)%Z then Float64.zero
         else Float64.div (Float64.of_Z (nir - red)) (Float64.of_Z (nir + red)))
  | Float64 => fun nir red =>
      np.clip1 (-1) 1
        (if Float64.eqb (Float64.add nir red) Float64.zero then Float64.zero
         else Float64.div (Float64.sub nir red) (Float64.add nir red))
  end.

(** A value an array of the dtype can hold: an integer in the
    dtype's range, a float that is not NaN or infinite. *)
Definition representable (d : dtype) : elem d -> Prop :=
  match d with
  | Int k => fun x => in_range k x
  | Float64 => fun x => Float64.is_finite x = true
  end.

(** Zero (of either sign, on floats). *)
Definition is_zero_elem (d : dtype) : elem d -> Prop :=
  match d with
  | Int _ => fun x => x = 0%Z
  | Float64 => fun x => Float64.is_zero x = true
  end.

(** The opposite of the value fits the dtype too: not so for a
    positive value of an unsigned dtype. *)
Definition negatable (d : dtype) : elem d -> Prop :=
  match d with
  | Int k => fun x => in_range k (- x)
  | Float64 => fun _ => True
  end.

(** Both differences of the two values fit the dtype. *)
Definition difference_fits (d : dtype) : elem d -> elem d -> Prop :=
  match d with
  | Int k => fun nir red => in_range k (nir - red) /\ in_range k (red - nir)
  | Float64 => fun _ _ => True
  end.

(** NaN, or a number in [-1, 1]. *)
Definition nan_or_in_unit_range (v : float) : Prop :=
  Float64.is_nan v = true \/ in_unit_range v = true.

(** ** Plots *)

Definition viridis : imshow_kw :=
  {| cmap := Some "viridis"; extent := None; vmin := None; vmax := None |}.

(** Band [b] of a stack, as a 2-D array. *)
Definition band_plane (bands : ndarray3) (b : nat) : ndarray2 :=
  {| plane_dtype := stack_dtype bands; plane_data := band bands b |}.

(** The three calls [read_and_plot_tiff] makes for band [b]. *)
Definition band_panel (bands : ndarray3) (b : nat) : list event :=
  [AxImshow b (Plane (band_plane bands b)) viridis;
   AxSetTitle b ("Band " ++ decimal (b + 1));
   AxAxis b "on"].

(** What [read_and_plot_tiff] builds from the bands it read. *)
Definition raster_of (bands : ndarray3) : DataArray :=
  {| values := bands; dims := ["band"; "y"; "x"]; name := "raster" |}.

(** The images put on the axes of a grid, and the titles given. *)
Definition panels (out : list event) : list (nat * picture) :=
  flat_map (fun e => match e with AxImshow ax img _ => [(ax, img)] | _ => [] end) out.

Definition titles (out : list event) : list (nat * String.string) :=
  flat_map (fun e => match e with AxSetTitle ax t => [(ax, t)] | _ => [] end) out.

Definition is_plot (e : event) : bool :=
  match e with
  | Plot _ _ _ => true
  | _ => false
  end.

(** The first four lines typed are integers. *)
Definition four_integers (keyboard : list typed) : bool :=
  match keyboard with
  | Integer _ :: Integer _ :: Integer _ :: Integer _ :: _ => true
  | _ => false
  end.

(** The calls of [draw_square_on_raster] before the square is drawn. *)
Definition square_prompts (bands : ndarray3) : list event :=
  [Imshow (Channels bands) no_kw;
   Printed "Enter the coordinates for the square:";
   Prompted "xmin (x > 200): ";
   Prompted "ymin (y > 200): ";
   Prompted "xmax (x < 400): ";
   Prompted "ymax (y < 400): "].
(** A file of three bands of one row, for the examples. *)
Definition three_band_file : DatasetReader :=
  dataset (stack (Int uint8) [[[1; 2]]; [[3; 4]]; [[5; 6]]]%Z).

(** ** States *)

(** The state turns the floating-point error [e] into an exception. *)
Definition raises_on (st : ambient) (e : fp_error) : bool :=
  match treat st (handling_of (seterr st) e) with
  | Returned _ => false
  | Raised _ => true
  end.

(** No floating-point error is an exception in this state. *)
Definition quiet (st : ambient) : bool :=
  negb (raises_on st DivideByZero || raises_on st Overflow ||
        raises_on st Underflow || raises_on st Invalid).

(** The bands hold integers. *)
Definition integer_bands (bands : ndarray3) : Prop :=
  exists k : int_dtype, stack_dtype bands = Int k.

(** No denominator of the stack compares equal to zero. *)
Definition no_zero_denominator (bands : ndarray3) : Prop :=
  Forall (Forall (fun nonzero : bool => nonzero = true))
    (np.not_equal (np.add (band bands 3) (band bands 2)) 0).

(** [np.seterr(all='raise')] in an interpreter otherwise fresh. *)
Definition raise_all : ambient :=
  {| seterr := seterr_all RaiseError; warnings_as_errors := false |}.

(** [warnings.simplefilter('error')] in an interpreter otherwise
    fresh. *)
Definition strict_warnings : ambient :=
  {| seterr := default_errstate; warnings_as_errors := true |}.

(** * Facts about the binary64 order *)

Lemma SFcompare_Lt_iff (x y : float) :
  SFcompare x y = Some Lt <->
  Float64.is_nan x = false /\ Float64.is_nan y = false /\ rank_lt (rank x) (rank y).
Proof.
  destruct x as [[]|[]| |[] mx ex], y as [[]|[]| |[] my ey]; simpl;
    try (intuition (try discriminate; try lia); fail);
    change (Pos.compare_cont Eq mx my) with (mx ?= my)%positive;
    destruct (Z.compare_spec ex ey); simpl;
    try destruct (Pos.compare_spec mx my); simpl;
    intuition (try discriminate; try lia).
Qed.

Lemma SFcompare_Eq_iff (x y : float) :
  SFcompare x y = Some Eq <->
  Float64.is_nan x = false /\ Float64.is_nan y = false /\ rank x = rank y.
Proof.
  destruct x as [[]|[]| |[] mx ex], y as [[]|[]| |[] my ey]; simpl;
    try (intuition (try discriminate; try congruence); fail);
    change (Pos.compare_cont Eq mx my) with (mx ?= my)%positive;
    destruct (Z.compare_spec ex ey); simpl;
    try destruct (Pos.compare_spec mx my); simpl;
    intuition (try discriminate; try congruence; try (f_equal; lia));
    try match goal with H : (_, _, _) = (_, _, _) |- _ => injection H; intros; lia end.
Qed.

Lemma SFcompare_None_iff (x y : float) :
  SFcompare x y = None <-> Float64.is_nan x = true \/ Float64.is_nan y = true.
Proof.
  destruct x as [[]|[]| |[] mx ex], y as [[]|[]| |[] my ey]; simpl;
    intuition discriminate.
Qed.

Lemma ltb_iff (x y : float) :
  Float64.ltb x y = true <->
  Float64.is_nan x = false /\ Float64.is_nan y = false /\ rank_lt (rank x) (rank y).
Proof.
  rewrite <- SFcompare_Lt_iff. unfold Float64.ltb, SFltb.
  destruct (SFcompare x y) as [[]|]; intuition (try discriminate; try reflexivity).
Qed.

Lemma leb_iff (x y : float) :
  Float64.leb x y = true <->
  Float64.is_nan x = false /\ Float64.is_nan y = false /\
  (rank_lt (rank x) (rank y) \/ rank x = rank y).
Proof.
  pose proof (SFcompare_Lt_iff x y) as HL. pose proof (SFcompare_Eq_iff x y) as HE.
  unfold Float64.leb, SFleb.
  destruct (SFcompare x y) as [[]|] eqn:E.
  - intuition.
  - intuition.
  - split; [discriminate|]. intros (Hx & Hy & [H|H]).
    + assert (Some Gt = Some Lt) by (apply HL; auto). discriminate.
    + assert (Some Gt = Some Eq) by (apply HE; auto). discriminate.
  - split; [discriminate|]. intros (Hx & Hy & _).
    apply SFcompare_None_iff in E. destruct E; congruence.
Qed.

Lemma rank_nan (x : float) :
  Float64.is_nan x = false -> rank_lt (rank x) (3, 0, 0)%Z.
Proof. destruct x as [[]|[]| |[] m e]; simpl; try discriminate; lia. Qed.

Lemma sort_lt_iff (a b : float) :
  np.sort_lt a b = true <-> rank_lt (rank a) (rank b).
Proof.
  unfold np.sort_lt. rewrite orb_true_iff, andb_true_iff, negb_true_iff, ltb_iff.
  split.
  - intros [(_ & _ & H)|[Hb Ha]]; [exact H|].
    destruct b; try discriminate. apply rank_nan; assumption.
  - intros H. destruct (Float64.is_nan b) eqn:Hb.
    + right. split; [reflexivity|]. destruct b; try discriminate.
      destruct a as [[]|[]| |[] m e]; simpl in *; try reflexivity; lia.
    + left. repeat split; try assumption.
      destruct a as [[]|[]| |[] m e]; simpl in *; try reflexivity.
      destruct b as [[]|[]| |[] m' e']; simpl in *; try discriminate; lia.
Qed.

Lemma sort_le_iff (a b : float) :
  np.sort_le a b = true <-> ~ rank_lt (rank b) (rank a).
Proof.
  unfold np.sort_le. rewrite negb_true_iff, <- not_true_iff_false, sort_lt_iff. tauto.
Qed.

Lemma sort_le_trans (a b c : float) :
  np.sort_le a b = true -> np.sort_le b c = true -> np.sort_le a c = true.
Proof.
  rewrite !sort_le_iff.
  destruct (rank a) as [[a1 a2] a3], (rank b) as [[b1 b2] b3], (rank c) as [[c1 c2] c3].
  unfold rank_lt. lia.
Qed.

Lemma sort_le_refl (a : float) : np.sort_le a a = true.
Proof.
  rewrite sort_le_iff. destruct (rank a) as [[a1 a2] a3]. unfold rank_lt. lia.
Qed.

(** In the sort order nothing but NaN comes after a NaN. *)
Lemma sort_le_nan (x y : float) :
  np.sort_le x y = true -> Float64.is_nan x = true -> Float64.is_nan y = true.
Proof.
  rewrite sort_le_iff. intros H Hx. destruct x; try discriminate.
  destruct (Float64.is_nan y) eqn:Hy; [reflexivity|].
  exfalso. apply H. apply rank_nan. assumption.
Qed.

(** On numbers the sort order is the IEEE order. *)
Lemma sort_le_leb (x y : float) :
  Float64.is_nan x = false -> Float64.is_nan y = false ->
  np.sort_le x y = true -> Float64.leb x y = true.
Proof.
  rewrite sort_le_iff, leb_iff. intros Hx Hy H. repeat split; try assumption.
  destruct (rank x) as [[a1 a2] a3], (rank y) as [[b1 b2] b3].
  unfold rank_lt in *.
  destruct (Z.eq_dec a1 b1), (Z.eq_dec a2 b2), (Z.eq_dec a3 b3);
    subst; try (right; reflexivity); left; lia.
Qed.

Lemma leb_sort_le (x y : float) :
  Float64.leb x y = true -> np.sort_le x y = true.
Proof.
  rewrite sort_le_iff, leb_iff. intros (_ & _ & H).
  destruct (rank x) as [[a1 a2] a3], (rank y) as [[b1 b2] b3].
  unfold rank_lt in *. destruct H as [H|H]; [lia|].
  injection H as -> -> ->. lia.
Qed.

(** * Facts about lists, slices and sorted lists *)

Section ListFacts.

Context {A B : Type}.

Lemma combine_seq_In (a : list A) (k : nat) (v : A) (i : nat) :
  In (v, i) (combine a (seq k (length a))) <->
  k <= i /\ nth_error a (i - k) = Some v.
Proof.
  revert k. induction a as [|x a IH]; intros k; simpl.
  - split; [tauto|]. intros [_ H]. destruct (i - k); discriminate.
  - rewrite IH. split.
    + intros [H|[H1 H2]].
      * injection H as -> ->. rewrite Nat.sub_diag. split; [lia|reflexivity].
      * split; [lia|]. replace (i - k) with (S (i - S k)) by lia. exact H2.
    + intros [H1 H2]. destruct (i - k) as [|n] eqn:E.
      * left. injection H2 as ->. f_equal. lia.
      * right. split; [lia|]. replace (i - S k) with n by lia. exact H2.
Qed.

Lemma enumerate_In (a : list A) (v : A) (i : nat) :
  In (v, i) (np.enumerate a) <-> nth_error a i = Some v.
Proof.
  unfold np.enumerate. rewrite combine_seq_In, Nat.sub_0_r.
  split; [tauto|]. split; [lia|assumption].
Qed.

Lemma map_fst_combine_seq (a : list A) (k : nat) :
  map fst (combine a (seq k (length a))) = a.
Proof.
  revert k. induction a as [|x a IH]; intros k; simpl; [|rewrite IH]; reflexivity.
Qed.

Lemma map_snd_combine_seq (a : list A) (k : nat) :
  map snd (combine a (seq k (length a))) = seq k (length a).
Proof.
  revert k. induction a as [|x a IH]; intros k; simpl; [|rewrite IH]; reflexivity.
Qed.

Lemma length_enumerate (a : list A) : length (np.enumerate a) = length a.
Proof.
  unfold np.enumerate. rewrite length_combine, length_seq. apply Nat.min_id.
Qed.

Lemma slice_from_map (f : A -> B) (l : list A) (start : Z) :
  slice_from (map f l) start = map f (slice_from l start).
Proof. unfold slice_from. rewrite length_map, skipn_map. reflexivity. Qed.

Lemma slice_from_incl (l : list A) (start : Z) : incl (slice_from l start) l.
Proof.
  unfold slice_from. intros x Hx.
  rewrite <- (firstn_skipn (Z.to_nat
    (if (start <? 0)%Z then Z.max (start + Z.of_nat (length l)) 0
     else Z.min start (Z.of_nat (length l)))) l).
  apply in_or_app. right. exact Hx.
Qed.

(** The three cases of [a[-n:]]. *)
Lemma slice_from_last (l : list A) (n : Z) :
  (0 < n)%Z ->
  slice_from l (- n) = skipn (length l - Z.to_nat n) l.
Proof.
  intros Hn. unfold slice_from.
  destruct (Z.ltb_spec (- n) 0) as [_|H]; [|lia].
  f_equal. lia.
Qed.

Lemma slice_from_minus_zero (l : list A) : slice_from l (- 0) = l.
Proof.
  unfold slice_from. simpl.
  replace (Z.to_nat (Z.min 0 (Z.of_nat (length l)))) with 0 by lia.
  reflexivity.
Qed.

Lemma slice_from_negative_count (l : list A) (n : Z) :
  (n <= 0)%Z ->
  slice_from l (- n) = skipn (Nat.min (Z.to_nat (- n)) (length l)) l.
Proof.
  intros Hn. unfold slice_from.
  destruct (Z.ltb_spec (- n) 0) as [H|_]; [lia|].
  f_equal. lia.
Qed.

Lemma take_pairs (a : list A) (T : list (A * nat)) :
  Forall (fun p => nth_error a (snd p) = Some (fst p)) T ->
  np.take a (map snd T) = Ok (map fst T).
Proof.
  induction 1 as [|[v i] T Hp _ IH]; simpl; [reflexivity|].
  unfold np.getitem. simpl in Hp. rewrite Hp. simpl. rewrite IH. reflexivity.
Qed.

End ListFacts.

Section SortedFacts.

Context {A : Type}.
Variable R : A -> A -> Prop.

Lemma StronglySorted_skipn (n : nat) (l : list A) :
  StronglySorted R l -> StronglySorted R (skipn n l).
Proof.
  revert l. induction n as [|n IH]; intros l H; [exact H|].
  destruct l as [|x l]; [exact H|]. simpl. apply IH.
  apply StronglySorted_inv in H. tauto.
Qed.

Lemma StronglySorted_snoc_flip (l : list A) (x : A) :
  StronglySorted (fun a b => R b a) l -> Forall (R x) l ->
  StronglySorted (fun a b => R b a) (l ++ [x]).
Proof.
  induction 1 as [|y l Hs IH Hy]; intros Hx; simpl.
  - constructor; constructor.
  - inversion Hx; subst. constructor; [apply IH; assumption|].
    apply Forall_app. split; [assumption|]. constructor; [assumption|constructor].
Qed.

Lemma StronglySorted_rev (l : list A) :
  StronglySorted R l -> StronglySorted (fun x y => R y x) (rev l).
Proof.
  induction 1 as [|x l Hs IH Hx]; simpl; [constructor|].
  apply StronglySorted_snoc_flip; [exact IH|].
  apply Forall_forall. intros y Hy. apply in_rev in Hy.
  rewrite Forall_forall in Hx. apply Hx. exact Hy.
Qed.

Lemma StronglySorted_sub (P : A -> Prop) (R' : A -> A -> Prop) (l : list A) :
  (forall x y, P x -> P y -> R x y -> R' x y) ->
  Forall P l -> StronglySorted R l -> StronglySorted R' l.
Proof.
  intros HR HP Hs. induction Hs as [|x l Hs IH Hx]; [constructor|].
  inversion HP as [|? ? Px Pl]; subst. constructor; [apply IH; exact Pl|].
  rewrite Forall_forall in *. intros y Hy. apply HR; auto.
Qed.

(** In a sorted list everything before position [n] is below
    everything from position [n] on. *)
Lemma StronglySorted_split (n : nat) (l : list A) :
  StronglySorted R l ->
  forall x y, In x (firstn n l) -> In y (skipn n l) -> R x y.
Proof.
  intros Hs. revert n. induction Hs as [|z l Hs IH Hz]; intros n x y Hx Hy.
  - rewrite firstn_nil in Hx. destruct Hx.
  - destruct n as [|n]; [destruct Hx|]. simpl in Hx, Hy. destruct Hx as [<-|Hx].
    + rewrite Forall_forall in Hz. apply Hz.
      rewrite <- (firstn_skipn n l). apply in_or_app. right. exact Hy.
    + apply (IH n); assumption.
Qed.

End SortedFacts.

Lemma StronglySorted_map {A B : Type} (f : A -> B) (R : B -> B -> Prop) (l : list A) :
  StronglySorted (fun x y => R (f x) (f y)) l -> StronglySorted R (map f l).
Proof.
  induction 1 as [|x l Hs IH Hx]; simpl; constructor; [exact IH|].
  apply Forall_map. exact Hx.
Qed.

(** * The sorted (key, position) pairs behind [argsort] *)

Lemma sorted_pairs_perm (flat : array1 float) :
  Permutation (np.enumerate flat) (sorted_pairs flat).
Proof. apply np.KeySort.Permuted_sort. Qed.

Lemma sorted_pairs_sorted (flat : array1 float) :
  StronglySorted key_le (sorted_pairs flat).
Proof.
  apply np.KeySort.StronglySorted_sort.
  intros p q r Hpq Hqr. unfold is_true, np.KeyOrder.leb in *.
  eapply sort_le_trans; eassumption.
Qed.

Lemma sorted_pairs_deref (flat : array1 float) :
  Forall (dereferences flat) (sorted_pairs flat).
Proof.
  apply Forall_forall. intros [v i] Hin. unfold dereferences. simpl.
  apply enumerate_In.
  eapply Permutation_in; [apply Permutation_sym, sorted_pairs_perm|exact Hin].
Qed.

Lemma sorted_pairs_length (flat : array1 float) :
  length (sorted_pairs flat) = length flat.
Proof.
  rewrite <- (Permutation_length (sorted_pairs_perm flat)). apply length_enumerate.
Qed.

Lemma argsort_perm (flat : array1 float) :
  Permutation (np.argsort flat) (seq 0 (length flat)).
Proof.
  unfold np.argsort. fold (sorted_pairs flat).
  rewrite <- (map_snd_combine_seq flat 0).
  apply Permutation_map, Permutation_sym, sorted_pairs_perm.
Qed.

Lemma sort_perm (flat : array1 float) : Permutation (np.sort flat) flat.
Proof.
  unfold np.sort. fold (sorted_pairs flat).
  rewrite <- (map_fst_combine_seq flat 0) at 2.
  apply Permutation_map, Permutation_sym, sorted_pairs_perm.
Qed.

Lemma sort_sorted (flat : array1 float) :
  StronglySorted (fun x y => np.sort_le x y = true) (np.sort flat).
Proof. apply StronglySorted_map. apply sorted_pairs_sorted. Qed.

(** The values at the positions [argsort] returns are the sorted
    values. *)
Lemma take_argsort (flat : array1 float) :
  np.take flat (np.argsort flat) = Ok (np.sort flat).
Proof.
  unfold np.argsort, np.sort. fold (sorted_pairs flat).
  apply take_pairs. apply sorted_pairs_deref.
Qed.

Lemma combine_fst_snd {A B : Type} (l : list (A * B)) :
  combine (map fst l) (map snd l) = l.
Proof. induction l as [|[a b] l IH]; simpl; [|rewrite IH]; reflexivity. Qed.

(** ** What [get_top_ndvi_values] returns *)

Lemma ranked_incl (ndvi : array2 float) (n : Z) :
  incl (ranked ndvi n) (sorted_pairs (np.flatten ndvi)).
Proof.
  intros p Hp. unfold ranked in Hp. apply in_rev in Hp.
  eapply slice_from_incl. exact Hp.
Qed.

Lemma ranked_deref (ndvi : array2 float) (n : Z) :
  Forall (dereferences (np.flatten ndvi)) (ranked ndvi n).
Proof.
  apply Forall_forall. intros p Hp.
  pose proof (sorted_pairs_deref (np.flatten ndvi)) as H.
  rewrite Forall_forall in H. apply H. eapply ranked_incl. exact Hp.
Qed.

Lemma get_top_ndvi_values_ranked (ndvi : array2 float) (n : Z) :
  get_top_ndvi_values ndvi n =
  Ok {| NDVI := map fst (ranked ndvi n); Index := map snd (ranked ndvi n) |}.
Proof.
  unfold get_top_ndvi_values, reversed, np.argsort.
  fold (sorted_pairs (np.flatten ndvi)).
  rewrite slice_from_map, <- map_rev. fold (ranked ndvi n).
  rewrite (take_pairs (np.flatten ndvi) (ranked ndvi n) (ranked_deref ndvi n)).
  reflexivity.
Qed.

Lemma ranked_sorted (ndvi : array2 float) (n : Z) :
  StronglySorted (fun p q => key_le q p) (ranked ndvi n).
Proof.
  unfold ranked, slice_from. apply StronglySorted_rev, StronglySorted_skipn.
  apply sorted_pairs_sorted.
Qed.

Lemma ranked_NoDup (ndvi : array2 float) (n : Z) :
  NoDup (map snd (ranked ndvi n)).
Proof.
  unfold ranked, slice_from. rewrite map_rev. apply NoDup_rev.
  rewrite <- skipn_map.
  set (k := Z.to_nat _).
  assert (H : NoDup (map snd (sorted_pairs (np.flatten ndvi)))).
  { eapply Permutation_NoDup; [apply Permutation_sym, argsort_perm|apply seq_NoDup]. }
  rewrite <- (firstn_skipn k (map snd _)) in H.
  eapply NoDup_app_remove_l. exact H.
Qed.

Lemma ranked_length_positive (ndvi : array2 float) (n : Z) :
  (0 < n)%Z ->
  length (ranked ndvi n) = Nat.min (Z.to_nat n) (length (np.flatten ndvi)).
Proof.
  intros Hn. unfold ranked.
  rewrite length_rev, slice_from_last, length_skipn, sorted_pairs_length by exact Hn.
  lia.
Qed.

(** Without [num_values] the table has the 10 largest entries, or
    all of them when there are fewer. *)
Lemma top_values_default_count (ndvi : array2 float) :
  exists df : DataFrame,
    get_top_ndvi_values_default ndvi = Ok df /\
    length (NDVI df) = Nat.min 10 (length (np.flatten ndvi)).
Proof.
  eexists. split; [apply get_top_ndvi_values_ranked|]. simpl.
  rewrite length_map. apply (ranked_length_positive ndvi 10). reflexivity.
Qed.

Lemma ranked_not_nan (ndvi : array2 float) (n : Z) :
  Forall (fun x => Float64.is_nan x = false) (np.flatten ndvi) ->
  Forall (fun p => Float64.is_nan (fst p) = false) (ranked ndvi n).
Proof.
  intros Hnan. apply Forall_forall. intros p Hp.
  pose proof (ranked_deref ndvi n) as Hd. rewrite Forall_forall in Hd, Hnan.
  apply Hnan. eapply nth_error_In. apply Hd. exact Hp.
Qed.

(** Whatever is left out of the table is below everything in it. *)
Lemma ranked_top (ndvi : array2 float) (n : Z) (j : nat) (x : float) :
  nth_error (np.flatten ndvi) j = Some x ->
  ~ In j (map snd (ranked ndvi n)) ->
  Forall (fun p => np.sort_le x (fst p) = true) (ranked ndvi n).
Proof.
  intros Hj Hout. apply Forall_forall. intros q Hq.
  unfold ranked, slice_from in *. set (k := Z.to_nat _) in *.
  set (S := sorted_pairs (np.flatten ndvi)) in *.
  apply in_rev in Hq.
  assert (HS : In (x, j) S).
  { eapply Permutation_in; [apply sorted_pairs_perm|]. apply enumerate_In. exact Hj. }
  rewrite <- (firstn_skipn k S) in HS. apply in_app_or in HS. destruct HS as [HS|HS].
  - apply (StronglySorted_split key_le k S (sorted_pairs_sorted _) (x, j) q HS Hq).
  - exfalso. apply Hout. rewrite map_rev, <- in_rev.
    apply (in_map snd) in HS. exact HS.
Qed.

(** C4. For an NDVI array without NaN and a positive count N, the
    ranking returns a table of exactly min(N, number of elements)
    rows, in descending order of value, each row's flat index pointing
    at the row's value in the row-major flattening of the array; the
    rows are distinct positions and no element left out is larger than
    one in the table; when N is at least the number of elements the
    table holds every element. *)
Theorem top_values_ranking (ndvi : array2 float) (num_values : Z) :
  (0 < num_values)%Z ->
  Forall (fun x => Float64.is_nan x = false) (np.flatten ndvi) ->
  exists df : DataFrame,
    get_top_ndvi_values ndvi num_values = Ok df /\
    length (NDVI df) = Nat.min (Z.to_nat num_values) (length (np.flatten ndvi)) /\
    length (Index df) = length (NDVI df) /\
    StronglySorted (fun x y => Float64.leb y x = true) (NDVI df) /\
    Forall (dereferences (np.flatten ndvi)) (rows df) /\
    NoDup (Index df) /\
    (forall j x, nth_error (np.flatten ndvi) j = Some x -> ~ In j (Index df) ->
       Forall (fun v => Float64.leb x v = true) (NDVI df)) /\
    ((Z.of_nat (length (np.flatten ndvi)) <= num_values)%Z ->
       Permutation (rows df) (np.enumerate (np.flatten ndvi))).
Proof.
  intros Hn Hnan. eexists. split; [apply get_top_ndvi_values_ranked|].
  unfold rows. simpl. rewrite combine_fst_snd, !length_map.
  pose proof (ranked_not_nan ndvi num_values Hnan) as Hnum.
  repeat split.
  - apply ranked_length_positive. exact Hn.
  - apply StronglySorted_map.
    apply StronglySorted_sub
      with (R := fun p q => key_le q p) (P := fun p => Float64.is_nan (fst p) = false);
      [|exact Hnum|apply ranked_sorted].
    intros p q Hp Hq Hle. apply sort_le_leb; assumption.
  - apply ranked_deref.
  - apply ranked_NoDup.
  - intros j x Hj Hout. apply Forall_map.
    pose proof (ranked_top ndvi num_values j x Hj Hout) as Htop.
    rewrite Forall_forall in *. intros p Hp.
    apply sort_le_leb; [|apply Hnum; exact Hp|apply Htop; exact Hp].
    apply Hnan. eapply nth_error_In. exact Hj.
  - intros Hall. unfold ranked. rewrite slice_from_last by exact Hn.
    replace (length _ - Z.to_nat num_values) with 0
      by (rewrite sorted_pairs_length; lia).
    rewrite skipn_0.
    eapply Permutation_trans; [apply Permutation_sym, Permutation_rev|].
    apply Permutation_sym, sorted_pairs_perm.
Qed.

Lemma top_values_ranking_witness :
  (0 < 2)%Z /\
  Forall (fun x => Float64.is_nan x = false) (np.flatten example_ndvi) /\
  exists df : DataFrame,
    get_top_ndvi_values example_ndvi 2 = Ok df /\
    length (NDVI df) = Nat.min (Z.to_nat 2) (length (np.flatten example_ndvi)) /\
    length (Index df) = length (NDVI df) /\
    StronglySorted (fun x y => Float64.leb y x = true) (NDVI df) /\
    Forall (dereferences (np.flatten example_ndvi)) (rows df) /\
    NoDup (Index df) /\
    (forall j x, nth_error (np.flatten example_ndvi) j = Some x -> ~ In j (Index df) ->
       Forall (fun v => Float64.leb x v = true) (NDVI df)) /\
    ((Z.of_nat (length (np.flatten example_ndvi)) <= 2)%Z ->
       Permutation (rows df) (np.enumerate (np.flatten example_ndvi))).
Proof.
  split; [lia|]. split; [repeat constructor|].
  apply (top_values_ranking example_ndvi 2); [lia|repeat constructor].
Defined.

(** ** A count that is not positive *)

Lemma ranked_values (ndvi : array2 float) (n : Z) :
  map fst (ranked ndvi n) = rev (slice_from (np.sort (np.flatten ndvi)) (- n)).
Proof. unfold ranked, np.sort. rewrite slice_from_map, map_rev. reflexivity. Qed.

Lemma ranked_indices (ndvi : array2 float) (n : Z) :
  map snd (ranked ndvi n) = rev (slice_from (np.argsort (np.flatten ndvi)) (- n)).
Proof. unfold ranked, np.argsort. rewrite slice_from_map, map_rev. reflexivity. Qed.

Lemma sort_length (flat : array1 float) : length (np.sort flat) = length flat.
Proof. apply Permutation_length, sort_perm. Qed.

Lemma argsort_length (flat : array1 float) : length (np.argsort flat) = length flat.
Proof.
  rewrite (Permutation_length (argsort_perm flat)). apply length_seq.
Qed.

Lemma ranked_values_sorted (ndvi : array2 float) (n : Z) :
  StronglySorted (fun x y => np.sort_le y x = true) (map fst (ranked ndvi n)).
Proof. apply StronglySorted_map. apply ranked_sorted. Qed.

(** C9. With a count of exactly 0 the slice [[-0:]] is the whole
    sorted array: the ranking returns every element, in descending
    order, and raises nothing. *)
Theorem top_values_zero_count (ndvi : array2 float) :
  exists df : DataFrame,
    get_top_ndvi_values ndvi 0 = Ok df /\
    NDVI df = rev (np.sort (np.flatten ndvi)) /\
    Index df = rev (np.argsort (np.flatten ndvi)) /\
    length (NDVI df) = length (np.flatten ndvi) /\
    Permutation (NDVI df) (np.flatten ndvi) /\
    Permutation (Index df) (seq 0 (length (np.flatten ndvi))) /\
    Forall (dereferences (np.flatten ndvi)) (rows df) /\
    StronglySorted (fun x y => np.sort_le y x = true) (NDVI df) /\
    (Forall (fun x => Float64.is_nan x = false) (np.flatten ndvi) ->
     StronglySorted (fun x y => Float64.leb y x = true) (NDVI df)).
Proof.
  eexists. split; [apply get_top_ndvi_values_ranked|].
  unfold rows. simpl. rewrite combine_fst_snd.
  rewrite ranked_values, ranked_indices, !slice_from_minus_zero.
  repeat split.
  - rewrite length_rev. apply sort_length.
  - eapply Permutation_trans; [apply Permutation_sym, Permutation_rev|apply sort_perm].
  - eapply Permutation_trans; [apply Permutation_sym, Permutation_rev|apply argsort_perm].
  - apply ranked_deref.
  - apply StronglySorted_rev with (R := fun x y => np.sort_le x y = true).
    apply sort_sorted.
  - intros Hnan.
    apply StronglySorted_sub
      with (R := fun x y => np.sort_le y x = true) (P := fun x => Float64.is_nan x = false).
    + intros x y Hx Hy. apply sort_le_leb; assumption.
    + eapply Permutation_Forall; [|exact Hnan].
      eapply Permutation_trans; [apply Permutation_sym, sort_perm|apply Permutation_rev].
    + apply StronglySorted_rev with (R := fun x y => np.sort_le x y = true).
      apply sort_sorted.
Qed.

(** C6, as the claim has it, fails: a count of zero or below raises
    nothing.  On [[-1, 0], [0.5, 1]] the flattening is already
    ascending, [argsort] is [0, 1, 2, 3]; [[-0:]] keeps all of it and
    [[1:]] (the count -1) drops position 0. *)
Lemma nonpositive_count_is_not_rejected :
  get_top_ndvi_values example_ndvi 0 =
    Ok {| NDVI := [Float64.of_Z 1; Float64.dyadic 1 (-1); Float64.of_Z 0; Float64.of_Z (-1)];
          Index := [3; 2; 1; 0] |} /\
  get_top_ndvi_values example_ndvi (-1) =
    Ok {| NDVI := [Float64.of_Z 1; Float64.dyadic 1 (-1); Float64.of_Z 0];
          Index := [3; 2; 1] |} /\
  ~ (forall (ndvi : array2 float) (num_values : Z),
       (num_values <= 0)%Z -> raises (get_top_ndvi_values ndvi num_values) = true).
Proof.
  split; [vm_compute; reflexivity|]. split; [vm_compute; reflexivity|].
  intros H.
  assert (E : raises (get_top_ndvi_values example_ndvi 0) = true) by (apply H; lia).
  vm_compute in E. discriminate.
Qed.

(** C6, amended. For a count N that is zero or negative the ranking
    raises nothing: it returns the sorted array without its |N|
    smallest entries (all of it for N = 0, nothing when |N| is at
    least the number of elements), in descending order. *)
Theorem top_values_nonpositive_count (ndvi : array2 float) (num_values : Z) :
  (num_values <= 0)%Z ->
  let dropped := Nat.min (Z.to_nat (- num_values)) (length (np.flatten ndvi)) in
  exists df : DataFrame,
    get_top_ndvi_values ndvi num_values = Ok df /\
    raises (get_top_ndvi_values ndvi num_values) = false /\
    NDVI df = rev (skipn dropped (np.sort (np.flatten ndvi))) /\
    Index df = rev (skipn dropped (np.argsort (np.flatten ndvi))) /\
    length (NDVI df) = length (np.flatten ndvi) - dropped /\
    Forall (dereferences (np.flatten ndvi)) (rows df) /\
    StronglySorted (fun x y => np.sort_le y x = true) (NDVI df).
Proof.
  intros Hn dropped. eexists. rewrite get_top_ndvi_values_ranked.
  split; [reflexivity|]. unfold rows. simpl. rewrite combine_fst_snd.
  pose proof (ranked_values_sorted ndvi num_values) as Hsorted.
  rewrite ranked_values, ranked_indices in *.
  rewrite !slice_from_negative_count in * by exact Hn.
  rewrite sort_length, argsort_length in *. fold dropped in Hsorted |- *.
  repeat split.
  - rewrite length_rev, length_skipn, sort_length. reflexivity.
  - apply ranked_deref.
  - exact Hsorted.
Qed.

Lemma top_values_nonpositive_count_witness :
  (-1 <= 0)%Z /\
  exists df : DataFrame,
    get_top_ndvi_values example_ndvi (-1) = Ok df /\
    raises (get_top_ndvi_values example_ndvi (-1)) = false /\
    NDVI df = rev (skipn 1 (np.sort (np.flatten example_ndvi))) /\
    Index df = rev (skipn 1 (np.argsort (np.flatten example_ndvi))) /\
    length (NDVI df) = length (np.flatten example_ndvi) - 1 /\
    Forall (dereferences (np.flatten example_ndvi)) (rows df) /\
    StronglySorted (fun x y => np.sort_le y x = true) (NDVI df).
Proof.
  split; [lia|]. apply (top_values_nonpositive_count example_ndvi (-1)). lia.
Defined.

(** ** NaN entries *)

Lemma filter_nan_repeat (l : list float) :
  filter Float64.is_nan l = repeat Float64.nan (count_nan l).
Proof.
  unfold count_nan. induction l as [|x l IH]; simpl; [reflexivity|].
  destruct x; simpl; try exact IH. f_equal. exact IH.
Qed.

Lemma count_nan_perm (l l' : list float) :
  Permutation l l' -> count_nan l = count_nan l'.
Proof.
  unfold count_nan. induction 1 as [|x l l' _ IH|x y l|l l' l'' _ IH1 _ IH2]; simpl.
  - reflexivity.
  - destruct (Float64.is_nan x); simpl; congruence.
  - destruct (Float64.is_nan x), (Float64.is_nan y); reflexivity.
  - congruence.
Qed.

Lemma filter_all_nan (l : list float) :
  Forall (fun y => Float64.is_nan y = true) l ->
  filter not_nan l = [] /\ filter Float64.is_nan l = l.
Proof.
  unfold not_nan. induction 1 as [|y l Hy _ [IH1 IH2]]; simpl; [split; reflexivity|].
  rewrite Hy. simpl. rewrite IH1, IH2. split; reflexivity.
Qed.

(** A list in sort order is its numbers followed by its NaNs. *)
Lemma sorted_nan_last (l : list float) :
  StronglySorted (fun x y => np.sort_le x y = true) l ->
  l = filter not_nan l ++ repeat Float64.nan (count_nan l).
Proof.
  rewrite <- filter_nan_repeat.
  induction 1 as [|x l Hs IH Hx]; simpl; [reflexivity|].
  unfold not_nan at 1. destruct (Float64.is_nan x) eqn:Ex; simpl.
  - assert (Hall : Forall (fun y => Float64.is_nan y = true) l).
    { rewrite Forall_forall in *. intros y Hy. eapply sort_le_nan; eauto. }
    destruct (filter_all_nan l Hall) as [E1 E2]. rewrite E1, E2. reflexivity.
  - f_equal. exact IH.
Qed.

Lemma filter_not_nan_Forall (l : list float) :
  Forall (fun x => Float64.is_nan x = false) (filter not_nan l).
Proof.
  apply Forall_forall. intros x Hx. apply filter_In in Hx.
  destruct Hx as [_ Hx]. unfold not_nan in Hx. apply negb_true_iff. exact Hx.
Qed.

Lemma count_nan_le_length (l : list float) : count_nan l <= length l.
Proof. unfold count_nan. apply filter_length_le. Qed.

Lemma length_filter_not_nan (l : list float) :
  length (filter not_nan l) = length l - count_nan l.
Proof.
  unfold count_nan, not_nan. induction l as [|x l IH]; [reflexivity|].
  pose proof (filter_length_le Float64.is_nan l).
  cbn [filter length]. destruct x; cbn [Float64.is_nan negb length]; lia.
Qed.

(** C10. The ascending sort behind the ranking puts every NaN after
    every number, so in the descending table the NaN rows come first:
    for a positive count N the table is min(N, number of NaN entries)
    rows of NaN followed by rows of numbers, and when the array holds
    at least N NaN entries the table is N rows of NaN. *)
Theorem nan_rows_come_first (ndvi : array2 float) (num_values : Z) :
  (0 < num_values)%Z ->
  let flat := np.flatten ndvi in
  np.take flat (np.argsort flat) = Ok (np.sort flat) /\
  np.sort flat = filter not_nan (np.sort flat) ++ repeat Float64.nan (count_nan flat) /\
  exists df : DataFrame,
    get_top_ndvi_values ndvi num_values = Ok df /\
    (exists numbers : list float,
       NDVI df = repeat Float64.nan (Nat.min (Z.to_nat num_values) (count_nan flat))
                   ++ numbers /\
       Forall (fun x => Float64.is_nan x = false) numbers) /\
    (Z.to_nat num_values <= count_nan flat ->
       NDVI df = repeat Float64.nan (Z.to_nat num_values)).
Proof.
  intros Hn flat.
  pose proof (sorted_nan_last (np.sort flat) (sort_sorted flat)) as Hsplit.
  rewrite (count_nan_perm (np.sort flat) flat (sort_perm flat)) in Hsplit.
  split; [apply take_argsort|]. split; [exact Hsplit|].
  eexists. split; [apply get_top_ndvi_values_ranked|]. simpl.
  rewrite ranked_values, slice_from_last by exact Hn. fold flat.
  rewrite sort_length.
  set (nums := filter not_nan (np.sort flat)) in *.
  set (c := count_nan flat) in *.
  assert (Hc : c <= length flat) by apply count_nan_le_length.
  assert (Hnums : length nums = length flat - c).
  { unfold nums. rewrite length_filter_not_nan, sort_length.
    rewrite (count_nan_perm (np.sort flat) flat (sort_perm flat)). reflexivity. }
  set (k := length flat - Z.to_nat num_values).
  assert (E : rev (skipn k (np.sort flat)) =
              repeat Float64.nan (Nat.min (Z.to_nat num_values) c) ++ rev (skipn k nums)).
  { rewrite Hsplit at 1. rewrite skipn_app, rev_app_distr, Hnums. f_equal.
    assert (Hrep : forall m n, skipn m (repeat Float64.nan n) = repeat Float64.nan (n - m)).
    { induction m as [|m IHm]; intros [|n]; simpl; try reflexivity. apply IHm. }
    rewrite Hrep, rev_repeat. f_equal. lia. }
  split.
  - exists (rev (skipn k nums)). split; [exact E|].
    apply Forall_rev.
    pose proof (filter_not_nan_Forall (np.sort flat)) as Hf. fold nums in Hf.
    rewrite <- (firstn_skipn k nums) in Hf. apply Forall_app in Hf. tauto.
  - intros Hle. rewrite E.
    replace (Nat.min (Z.to_nat num_values) c) with (Z.to_nat num_values) by lia.
    rewrite skipn_all2 by lia. simpl. apply app_nil_r.
Qed.

Lemma nan_rows_come_first_witness :
  let ndvi := [[Float64.one; Float64.nan]; [Float64.zero; half]] in
  (0 < 1)%Z /\
  get_top_ndvi_values ndvi 1 = Ok {| NDVI := [Float64.nan]; Index := [1] |} /\
  exists df : DataFrame,
    get_top_ndvi_values ndvi 1 = Ok df /\ NDVI df = repeat Float64.nan 1.
Proof.
  intros ndvi. split; [lia|]. split; [vm_compute; reflexivity|].
  destruct (nan_rows_come_first ndvi 1) as (_ & _ & df & Hdf & _ & Hall); [lia|].
  exists df. split; [exact Hdf|]. apply Hall. vm_compute. lia.
Defined.

(** * Facts about element-wise operations *)

Lemma nth_error_map2 {A B C : Type} (f : A -> B -> C) (a : list A) (b : list B) (i : nat) :
  nth_error (np.map2 f a b) i = both f (nth_error a i) (nth_error b i).
Proof.
  revert b i. induction a as [|x a IH]; intros [|y b] [|i]; simpl; try reflexivity.
  - destruct (nth_error a i); reflexivity.
  - apply IH.
Qed.

Section Elementwise.

Context {A B C : Type}.

Lemma pixel_lift2 (f : A -> B -> C) (a : array2 A) (b : array2 B) (i j : nat) :
  pixel (np.lift2 f a b) i j = both f (pixel a i j) (pixel b i j).
Proof.
  unfold pixel, np.lift2. rewrite nth_error_map2.
  destruct (nth_error a i) as [ra|], (nth_error b i) as [rb|]; simpl; try reflexivity.
  - apply nth_error_map2.
  - destruct (nth_error ra j); reflexivity.
Qed.

Lemma pixel_lift1 (f : A -> B) (a : array2 A) (i j : nat) :
  pixel (np.lift1 f a) i j = option_map f (pixel a i j).
Proof.
  unfold pixel, np.lift1. rewrite nth_error_map.
  destruct (nth_error a i) as [ra|]; simpl; [apply nth_error_map|reflexivity].
Qed.

Lemma length_map2 (f : A -> B -> C) (a : list A) (b : list B) :
  length a = length b -> length (np.map2 f a b) = length a.
Proof.
  revert b. induction a as [|x a IH]; intros [|y b] H; simpl in *; try discriminate;
    [reflexivity|]. f_equal. apply IH. lia.
Qed.

Lemma shape2_lift2 (f : A -> B -> C) (a : array2 A) (b : array2 B) :
  shape2 a = shape2 b -> shape2 (np.lift2 f a b) = shape2 a.
Proof.
  unfold shape2, np.lift2. revert b.
  induction a as [|ra a IH]; intros [|rb b] H; simpl in *; try discriminate;
    [reflexivity|].
  injection H as H1 H2. f_equal; [apply length_map2; exact H1|apply IH; exact H2].
Qed.

Lemma shape2_lift1 (f : A -> B) (a : array2 A) : shape2 (np.lift1 f a) = shape2 a.
Proof.
  unfold shape2, np.lift1. rewrite map_map. apply map_ext. intros row. apply length_map.
Qed.

(** An element of the result of an element-wise operation comes from
    a pair of elements at one position. *)
Lemma Forall2d_lift2 (P : C -> Prop) (f : A -> B -> C) (a : array2 A) (b : array2 B) :
  (forall x y, P (f x y)) -> Forall (Forall P) (np.lift2 f a b).
Proof.
  intros Hf. unfold np.lift2. revert b.
  induction a as [|ra a IH]; intros [|rb b]; simpl; constructor; [|apply IH].
  revert rb. induction ra as [|x ra IHr]; intros [|y rb]; simpl; constructor;
    [apply Hf|apply IHr].
Qed.

End Elementwise.

(** Row-major flattening: in an array of [w] columns the element at
    row [i], column [j] has flat index [i * w + j]. *)
Lemma flatten_row_major {A : Type} (a : array2 A) (w i j : nat) :
  Forall (fun row => length row = w) a ->
  j < w ->
  nth_error (np.flatten a) (i * w + j) = pixel a i j.
Proof.
  intros Hw Hj. unfold np.flatten, pixel. revert i.
  induction Hw as [|row a Hrow _ IH]; intros i; simpl.
  - destruct (i * w + j); destruct i; reflexivity.
  - destruct i as [|i]; simpl.
    + apply nth_error_app1. lia.
    + rewrite nth_error_app2 by lia.
      replace (w + i * w + j - length row) with (i * w + j) by lia. apply IH.
Qed.

(** * calculate_ndvi *)

Lemma ndvi_of_bands_eq (bands : ndarray3) (red nir : array2 (elem (stack_dtype bands))) :
  nth_error (stack_data bands) 2 = Some red ->
  nth_error (stack_data bands) 3 = Some nir ->
  ndvi_of_bands bands = Ok (ndvi_array (stack_dtype bands) nir red).
Proof.
  intros H2 H3. unfold ndvi_of_bands, np.getitem. rewrite H2, H3. reflexivity.
Qed.

Lemma band_nth_error (bands : ndarray3) (b : nat) :
  b < band_count bands -> nth_error (stack_data bands) b = Some (band bands b).
Proof. intros H. apply nth_error_nth'. exact H. Qed.

Lemma ndvi_of_four_bands (bands : ndarray3) :
  4 <= band_count bands ->
  ndvi_of_bands bands = Ok (ndvi_array (stack_dtype bands) (band bands 3) (band bands 2)).
Proof.
  intros H. apply ndvi_of_bands_eq; apply band_nth_error; lia.
Qed.

Lemma pixel_ndvi_array (d : dtype) (nir red : array2 (elem d)) (i j : nat) :
  pixel (ndvi_array d nir red) i j = both (ndvi_at d) (pixel nir i j) (pixel red i j).
Proof.
  unfold ndvi_array, np.clip, np.where_, np.not_equal, np.true_divide, np.subtract, np.add.
  rewrite pixel_lift1, pixel_lift2, pixel_lift1, !pixel_lift2.
  destruct (pixel nir i j) as [n|], (pixel red i j) as [r|]; reflexivity.
Qed.

Lemma shape_ndvi_array (d : dtype) (nir red : array2 (elem d)) :
  shape2 red = shape2 nir -> shape2 (ndvi_array d nir red) = shape2 red.
Proof.
  intros H.
  assert (HD : shape2 (np.add nir red) = shape2 nir)
    by (apply shape2_lift2; congruence).
  assert (HS : shape2 (np.subtract nir red) = shape2 nir)
    by (apply shape2_lift2; congruence).
  assert (HX : shape2 (np.true_divide (np.subtract nir red) (np.add nir red)) = shape2 nir)
    by (unfold np.true_divide; rewrite shape2_lift2; congruence).
  assert (HC : shape2 (np.not_equal (np.add nir red) 0) = shape2 nir)
    by (unfold np.not_equal; rewrite shape2_lift1; exact HD).
  unfold ndvi_array, np.clip, np.where_. rewrite shape2_lift1, shape2_lift2; congruence.
Qed.

Lemma calculate_ndvi_reads (fs : filesystem) (path_tiff : String.string) (src : DatasetReader) :
  fs path_tiff = Some src -> calculate_ndvi fs path_tiff = ndvi_of_bands (read src).
Proof. intros H. unfold calculate_ndvi, rasterio_open. rewrite H. reflexivity. Qed.

(** ** Too few bands *)

(** C5. On a band stack with fewer than 4 bands the NDVI computation
    raises (the IndexError of [bands[2]] or [bands[3]]) and returns
    nothing. *)
Theorem ndvi_needs_four_bands
    (fs : filesystem) (path_tiff : String.string) (src : DatasetReader) :
  fs path_tiff = Some src ->
  band_count (read src) < 4 ->
  calculate_ndvi fs path_tiff = Raise IndexError /\
  raises (calculate_ndvi fs path_tiff) = true.
Proof.
  intros Hsrc Hcount. rewrite (calculate_ndvi_reads fs path_tiff src Hsrc).
  unfold ndvi_of_bands, np.getitem, band_count in *.
  destruct (nth_error (stack_data (read src)) 2) as [red|] eqn:E2;
    [|split; reflexivity].
  destruct (nth_error (stack_data (read src)) 3) as [nir|] eqn:E3;
    [|split; reflexivity].
  assert (H : nth_error (stack_data (read src)) 3 <> None) by congruence.
  apply nth_error_Some in H. lia.
Qed.

Lemma ndvi_needs_four_bands_witness :
  let src := dataset (stack (Int uint16) [[[1]]; [[2]]; [[100]]]%Z) in
  let fs := single_file "scene.tif" src in
  fs "scene.tif" = Some src /\
  band_count (read src) < 4 /\
  calculate_ndvi fs "scene.tif" = Raise IndexError /\
  raises (calculate_ndvi fs "scene.tif") = true.
Proof.
  intros src fs. split; [reflexivity|].
  split; [apply Nat.ltb_lt; reflexivity|].
  apply (ndvi_needs_four_bands fs "scene.tif" src);
    [reflexivity|apply Nat.ltb_lt; reflexivity].
Defined.

(** ** Determinism *)

Lemma treat_cases (st : ambient) (h : handling) :
  treat st h = Returned tt \/
  treat st h = Raised FloatingPointError \/ treat st h = Raised RuntimeWarning.
Proof. destruct h; cbn [treat]; destruct (warnings_as_errors st); auto. Qed.

Lemma check_quiet (st : ambient) (raised : flags) (e : fp_error) :
  quiet st = true -> check st raised e = Returned tt.
Proof.
  unfold quiet, raises_on, check. intros H.
  apply negb_true_iff in H. rewrite !orb_false_iff in H.
  destruct H as [[[H1 H2] H3] H4].
  destruct (raised e); [|reflexivity].
  destruct e;
    match goal with
    | |- treat st ?h = _ => destruct (treat st h) as [[]|]; [reflexivity|discriminate]
    end.
Qed.

Lemma handle_fperr_quiet (st : ambient) (raised : flags) :
  quiet st = true -> handle_fperr st raised = Returned tt.
Proof.
  intros H. unfold handle_fperr. rewrite !(check_quiet st raised _ H). reflexivity.
Qed.

(** An array operation either goes through or ends with one of the
    two exceptions of a floating-point error. *)
Lemma handle_fperr_cases (st : ambient) (raised : flags) :
  handle_fperr st raised = Returned tt \/
  handle_fperr st raised = Raised FloatingPointError \/
  handle_fperr st raised = Raised RuntimeWarning.
Proof.
  unfold handle_fperr, check.
  destruct (raised DivideByZero), (raised Overflow), (raised Underflow), (raised Invalid);
    repeat match goal with
      | |- context [treat st ?h] =>
          let H := fresh in
          destruct (treat_cases st h) as [H|[H|H]]; rewrite H; cbn [attempt]; auto
      end; auto.
Qed.

(** Whatever the state, an array that is returned is the array
    [calculate_ndvi] returns. *)
Lemma ndvi_of_bands_under_returned
    (st : ambient) (tiny : underflows) (bands : ndarray3) (ndvi : array2 float) :
  ndvi_of_bands_under st tiny bands = Returned ndvi -> ndvi_of_bands bands = Ok ndvi.
Proof.
  unfold ndvi_of_bands_under, ndvi_of_bands, add_under, subtract_under, true_divide_under.
  destruct (np.getitem (stack_data bands) 2) as [red_band|e]; [|discriminate].
  destruct (np.getitem (stack_data bands) 3) as [nir_band|e]; [|discriminate].
  cbn [of_result attempt bind].
  repeat match goal with
    | |- context [handle_fperr st ?r] =>
        let H := fresh in
        destruct (handle_fperr_cases st r) as [H|[H|H]]; rewrite H; cbn [attempt];
        try discriminate
    end.
  intros E. injection E as <-. reflexivity.
Qed.

(** In a state where no floating-point error is an exception the
    function is [calculate_ndvi]. *)
Lemma ndvi_of_bands_under_quiet (st : ambient) (tiny : underflows) (bands : ndarray3) :
  quiet st = true ->
  ndvi_of_bands_under st tiny bands = of_result (ndvi_of_bands bands).
Proof.
  intros H.
  unfold ndvi_of_bands_under, ndvi_of_bands, add_under, subtract_under, true_divide_under.
  destruct (np.getitem (stack_data bands) 2) as [red_band|e]; [|reflexivity].
  destruct (np.getitem (stack_data bands) 3) as [nir_band|e]; [|reflexivity].
  cbn [of_result attempt bind].
  repeat (rewrite (handle_fperr_quiet st _ H); cbn [attempt]). reflexivity.
Qed.

(** The state adds two exceptions to those of [calculate_ndvi], and
    nothing else. *)
Lemma ndvi_of_bands_under_raised
    (st : ambient) (tiny : underflows) (bands : ndarray3) (e : error) :
  ndvi_of_bands_under st tiny bands = Raised e ->
  e = FloatingPointError \/ e = RuntimeWarning \/
  exists e' : exception, e = Exception e' /\ ndvi_of_bands bands = Raise e'.
Proof.
  unfold ndvi_of_bands_under, ndvi_of_bands, add_under, subtract_under, true_divide_under.
  destruct (np.getitem (stack_data bands) 2) as [red_band|e2].
  2:{ cbn [of_result attempt bind]. intros E. injection E as <-.
      right. right. exists e2. split; reflexivity. }
  destruct (np.getitem (stack_data bands) 3) as [nir_band|e3].
  2:{ cbn [of_result attempt bind]. intros E. injection E as <-.
      right. right. exists e3. split; reflexivity. }
  cbn [of_result attempt bind].
  repeat match goal with
    | |- context [handle_fperr st ?r] =>
        let H := fresh in
        destruct (handle_fperr_cases st r) as [H|[H|H]]; rewrite H; cbn [attempt];
        try (intros E; injection E as <-; auto; fail)
    end.
  discriminate.
Qed.

Lemma handle_fperr_no_flags (st : ambient) (raised : flags) :
  (forall e, raised e = false) -> handle_fperr st raised = Returned tt.
Proof.
  intros H. unfold handle_fperr, check. rewrite !H. reflexivity.
Qed.

Lemma raised_by_none {A B : Type} (f : A -> B -> flags) (Q : B -> Prop)
    (a : array2 A) (b : array2 B) (e : fp_error) :
  (forall x y, Q y -> f x y e = false) ->
  Forall (Forall Q) b ->
  raised_by f a b e = false.
Proof.
  intros Hf Hb. unfold raised_by, np.flatten, np.lift2.
  revert a. induction Hb as [|row b Hrow _ IH]; intros [|arow a]; cbn [np.map2 concat];
    try reflexivity.
  rewrite existsb_app, IH, orb_false_r.
  clear IH. revert arow. induction Hrow as [|y row Hy _ IH]; intros [|x arow];
    cbn [np.map2 existsb]; try reflexivity.
  rewrite (Hf x y Hy), IH. reflexivity.
Qed.

Lemma nonzero_denominators (k : int_dtype) (den : array2 Z) :
  Forall (Forall (fun nonzero : bool => nonzero = true)) (@np.not_equal (Int k) den 0) ->
  Forall (Forall (fun y : Z => y <> 0%Z)) den.
Proof.
  unfold np.not_equal, np.lift1. intros H.
  induction den as [|row den IH]; [constructor|].
  cbn [map] in H. inversion H as [|? ? Hrow Hden]; subst. constructor; [|apply IH; exact Hden].
  clear -Hrow. induction row as [|y row IH]; [constructor|].
  cbn [map] in Hrow. inversion Hrow as [|? ? Hy Hr]; subst. constructor; [|apply IH; exact Hr].
  cbn [np.not_equal1] in Hy.
  replace (wrap k 0) with 0%Z in Hy by (destruct k; reflexivity).
  apply negb_true_iff, Z.eqb_neq in Hy. exact Hy.
Qed.

(** On integer bands without a zero denominator no array operation
    raises a flag, and the state is not consulted. *)
Lemma ndvi_of_integer_bands_under (st : ambient) (tiny : underflows) (bands : ndarray3) :
  integer_bands bands ->
  no_zero_denominator bands ->
  ndvi_of_bands_under st tiny bands = of_result (ndvi_of_bands bands).
Proof.
  intros [k Hk] Hden. destruct bands as [d data]. cbn [stack_dtype] in Hk. subst d.
  unfold no_zero_denominator, band in Hden. cbn [stack_dtype stack_data] in Hden.
  unfold ndvi_of_bands_under, ndvi_of_bands, add_under, subtract_under, true_divide_under,
    np.getitem.
  cbn [stack_dtype stack_data].
  destruct (nth_error data 2) as [red_band|] eqn:E2; [|reflexivity].
  destruct (nth_error data 3) as [nir_band|] eqn:E3; [|reflexivity].
  rewrite (nth_error_nth data 2 [] E2), (nth_error_nth data 3 [] E3) in Hden.
  apply nonzero_denominators in Hden.
  cbn [of_result attempt bind].
  rewrite (handle_fperr_no_flags st (raised_by (add_flags1 (Int k)) nir_band red_band))
    by (intros e; apply (raised_by_none _ (fun _ => True)); [reflexivity|];
        apply Forall_forall; intros; apply Forall_forall; intros; exact I).
  cbn [attempt].
  rewrite (handle_fperr_no_flags st (raised_by (subtract_flags1 (Int k)) nir_band red_band))
    by (intros e; apply (raised_by_none _ (fun _ => True)); [reflexivity|];
        apply Forall_forall; intros; apply Forall_forall; intros; exact I).
  cbn [attempt].
  rewrite handle_fperr_no_flags; [reflexivity|].
  intros e. apply (raised_by_none _ (fun y : Z => y <> 0%Z)); [|exact Hden].
  intros x y Hy. cbn [true_divide_flags1].
  apply Z.eqb_neq in Hy. destruct e; rewrite ?Hy; reflexivity.
Qed.

Lemma calculate_ndvi_under_reads
    (st : ambient) (tiny : underflows)
    (fs : filesystem) (path_tiff : String.string) (src : DatasetReader) :
  fs path_tiff = Some src ->
  calculate_ndvi_under st tiny fs path_tiff = ndvi_of_bands_under st tiny (read src).
Proof. intros H. unfold calculate_ndvi_under, rasterio_open. rewrite H. reflexivity. Qed.




(** ** A zero denominator *)

Lemma wrap_zero (k : int_dtype) : wrap k 0 = 0%Z.
Proof. destruct k; reflexivity. Qed.

Lemma exact_zero_sum_denominator (d : dtype) (nir red : elem d) :
  exact_zero_sum d nir red -> denominator_is_zero d nir red.
Proof.
  unfold denominator_is_zero. destruct d as [k|]; simpl.
  - intros ->. rewrite wrap_zero. reflexivity.
  - intros [[Hn Hr]|[Hn ->]].
    + destruct nir as [[]| | |], red as [[]| | |]; try discriminate; reflexivity.
    + destruct nir as [[]|[]| |s m e]; try discriminate; try reflexivity.
      unfold Float64.add, Float64.opp, SFadd, SFopp.
      generalize (fst (shl_align m e (Z.min e e))). intros p.
      replace (cond_Zopp s (Z.pos p) + cond_Zopp (negb s) (Z.pos p))%Z with 0%Z
        by (destruct s; unfold cond_Zopp, negb; lia).
      reflexivity.
Qed.

Lemma ndvi_at_zero_denominator (d : dtype) (nir red : elem d) :
  denominator_is_zero d nir red -> ndvi_at d nir red = Float64.zero.
Proof. unfold denominator_is_zero, ndvi_at. intros ->. reflexivity. Qed.

(** C2. At every pixel where red plus near-infrared is exactly zero
    the NDVI returned is exactly 0: the positive zero of binary64, not
    NaN, and nothing is raised. *)
Theorem zero_denominator_gives_zero
    (fs : filesystem) (path_tiff : String.string) (src : DatasetReader)
    (i j : nat) (red nir : elem (stack_dtype (read src))) :
  fs path_tiff = Some src ->
  4 <= band_count (read src) ->
  pixel (band (read src) 2) i j = Some red ->
  pixel (band (read src) 3) i j = Some nir ->
  exact_zero_sum (stack_dtype (read src)) nir red ->
  exists ndvi : array2 float,
    calculate_ndvi fs path_tiff = Ok ndvi /\
    pixel ndvi i j = Some Float64.zero /\
    Float64.is_nan Float64.zero = false.
Proof.
  intros Hsrc Hcount Hred Hnir Hsum.
  exists (ndvi_array (stack_dtype (read src)) (band (read src) 3) (band (read src) 2)).
  rewrite (calculate_ndvi_reads fs path_tiff src Hsrc).
  split; [apply ndvi_of_four_bands; exact Hcount|].
  split; [|reflexivity].
  rewrite pixel_ndvi_array, Hnir, Hred. simpl. f_equal.
  apply ndvi_at_zero_denominator, exact_zero_sum_denominator. exact Hsum.
Qed.

Lemma zero_denominator_gives_zero_witness :
  let src := dataset (one_pixel (Int uint16) 0%Z 0%Z 0%Z) in
  calculate_ndvi (single_file "scene.tif" src) "scene.tif" = Ok [[Float64.zero]] /\
  exists ndvi : array2 float,
    calculate_ndvi (single_file "scene.tif" src) "scene.tif" = Ok ndvi /\
    pixel ndvi 0 0 = Some Float64.zero /\
    Float64.is_nan Float64.zero = false.
Proof.
  intros src. split; [reflexivity|].
  apply (zero_denominator_gives_zero (single_file "scene.tif" src) "scene.tif" src
           0 0 0%Z 0%Z);
    first [reflexivity | apply Nat.leb_le; reflexivity].
Defined.

(** ** The value at one pixel *)

Lemma wrap_in_range (k : int_dtype) (z : Z) : in_range k z -> wrap k z = z.
Proof.
  unfold in_range, wrap.
  destruct k; simpl; intros H;
    try (rewrite Z.mod_small by lia; lia); apply Z.mod_small; lia.
Qed.

(** On a float64 stack an element is the quotient of the binary64
    difference by the binary64 sum, clipped. *)
Lemma ndvi_at_float64 (nir red : float) :
  ndvi_at Float64 nir red =
  np.clip1 (-1) 1
    (if Float64.eqb (Float64.add nir red) Float64.zero
     then Float64.zero
     else Float64.div (Float64.sub nir red) (Float64.add nir red)).
Proof.
  unfold ndvi_at. cbn [np.not_equal1 np.add1 np.subtract1 np.true_divide1].
  change (Float64.of_Z 0) with Float64.zero.
  destruct (Float64.eqb (Float64.add nir red) Float64.zero); reflexivity.
Qed.

(** On an integer stack an element is the quotient of the exact
    difference by the exact sum, clipped, provided neither the
    difference nor the sum leaves the range of the dtype. *)
Lemma ndvi_at_int_in_range (k : int_dtype) (nir red : Z) :
  in_range k (nir - red) -> in_range k (nir + red) ->
  ndvi_at (Int k) nir red =
  np.clip1 (-1) 1
    (if (nir + red =? 0)%Z
     then Float64.zero
     else Float64.div (Float64.of_Z (nir - red)) (Float64.of_Z (nir + red))).
Proof.
  intros Hsub Hadd. unfold ndvi_at.
  cbn [np.not_equal1 np.add1 np.subtract1 np.true_divide1].
  rewrite (wrap_in_range k _ Hsub), (wrap_in_range k _ Hadd), wrap_zero.
  change (Float64.of_Z 0) with Float64.zero.
  destruct (nir + red =? 0)%Z; reflexivity.
Qed.

(** The spec's example: red 100, near-infrared 300 give exactly 0.5,
    on an integer stack and on a float64 stack. *)
Lemma ndvi_example_half :
  ndvi_of_bands (one_pixel (Int uint16) 0 100 300)%Z = Ok [[half]] /\
  ndvi_of_bands (one_pixel Float64 Float64.zero (Float64.of_Z 100) (Float64.of_Z 300))
    = Ok [[half]].
Proof. split; vm_compute; reflexivity. Qed.

(** The result has the shape of a band. *)
Lemma ndvi_shape (bands : ndarray3) :
  4 <= band_count bands ->
  shape2 (band bands 2) = shape2 (band bands 3) ->
  exists ndvi, ndvi_of_bands bands = Ok ndvi /\ shape2 ndvi = shape2 (band bands 2).
Proof.
  intros Hcount Hshape. eexists. split; [apply ndvi_of_four_bands; exact Hcount|].
  apply shape_ndvi_array. exact Hshape.
Qed.

(** With at least 4 bands the computation returns, and the element
    at a pixel is [ndvi_at] of the near-infrared and red values there:
    the quotient of their difference by their sum, both computed in
    the dtype of the bands, 0 where the sum compares equal to 0,
    clipped to [-1, 1]. *)
Lemma ndvi_elementwise (bands : ndarray3) :
  4 <= band_count bands ->
  exists ndvi,
    ndvi_of_bands bands = Ok ndvi /\
    forall i j,
      pixel ndvi i j =
      both (ndvi_at (stack_dtype bands)) (pixel (band bands 3) i j) (pixel (band bands 2) i j).
Proof.
  intros Hcount. eexists. split; [apply ndvi_of_four_bands; exact Hcount|].
  intros i j. apply pixel_ndvi_array.
Qed.

(** C1 does not hold on integer bands: the subtraction and the
    addition are done in the dtype of the bands and wrap around.  On
    a uint16 stack with red 300 and near-infrared 100 the difference
    100 - 300 is stored as 65336, the quotient 65336 / 400 is clipped,
    and the element returned is 1, where (nir - red) / (nir + red) is
    -0.5, already inside [-1, 1]. *)
Theorem ndvi_wraps_on_unsigned_bands :
  let src := dataset (one_pixel (Int uint16) 0 300 100)%Z in
  calculate_ndvi (single_file "scene.tif" src) "scene.tif" = Ok [[Float64.one]] /\
  np.subtract1 (Int uint16) 100%Z 300%Z = 65336%Z /\
  np.clip1 (-1) 1 (Float64.div (Float64.of_Z (100 - 300)) (Float64.of_Z (100 + 300)))
    = minus_half /\
  Float64.one <> minus_half.
Proof.
  intros src. split; [vm_compute; reflexivity|]. split; [reflexivity|].
  split; [vm_compute; reflexivity|]. vm_compute. discriminate.
Qed.

(** The same happens when the sum overflows a signed dtype: int16
    bands with red 10000 and near-infrared 30000 give a negative
    denominator and a negative NDVI where the quotient is 0.5. *)
Lemma ndvi_wraps_on_signed_bands :
  np.add1 (Int int16) 30000%Z 10000%Z = (-25536)%Z /\
  Float64.ltb (ndvi_at (Int int16) 30000%Z 10000%Z) Float64.zero = true /\
  np.clip1 (-1) 1 (Float64.div (Float64.of_Z (30000 - 10000)) (Float64.of_Z (30000 + 10000)))
    = half.
Proof. repeat split; vm_compute; reflexivity. Qed.

(** ** The range of the result *)

Lemma of_Z_one : Float64.of_Z 1 = S754_finite false 4503599627370496 (-52).
Proof. reflexivity. Qed.

Lemma of_Z_minus_one : Float64.of_Z (-1) = S754_finite true 4503599627370496 (-52).
Proof. reflexivity. Qed.

Lemma ltb_leb (x y : float) : Float64.ltb x y = true -> Float64.leb x y = true.
Proof.
  unfold Float64.ltb, Float64.leb, SFltb, SFleb.
  destruct (SFcompare x y) as [[]|]; intros H; try discriminate; reflexivity.
Qed.

(** [np.clip(x, -1, 1)] passes NaN through and brings every other
    value into [-1, 1]. *)
Lemma clip1_nan : np.clip1 (-1) 1 Float64.nan = Float64.nan.
Proof. reflexivity. Qed.

Lemma clip1_range (x : float) :
  Float64.is_nan x = false -> in_unit_range (np.clip1 (-1) 1 x) = true.
Proof.
  intros Hx. unfold in_unit_range, Float64.between, np.clip1, np.fmax_clip, np.fmin_clip.
  rewrite Hx.
  destruct (Float64.ltb (Float64.of_Z (-1)) x) eqn:Elo.
  - rewrite Hx. destruct (Float64.ltb x (Float64.of_Z 1)) eqn:Ehi.
    + rewrite (ltb_leb _ _ Elo), (ltb_leb _ _ Ehi). reflexivity.
    + reflexivity.
  - reflexivity.
Qed.

Lemma clip1_nan_or_range (x : float) :
  Float64.is_nan (np.clip1 (-1) 1 x) = true \/ in_unit_range (np.clip1 (-1) 1 x) = true.
Proof.
  destruct (Float64.is_nan x) eqn:Hx.
  - left. destruct x; try discriminate. reflexivity.
  - right. apply clip1_range. exact Hx.
Qed.

(** * Rounding in binary64

    What the division of the NDVI needs to know about the rounding of
    [SpecFloat]: a rounded result is never NaN, it is not an infinity
    when the exact value is at most the largest finite number, and it
    is not zero when the exact value is at least the smallest
    positive number. *)

Section Rounding.

Local Open Scope Z_scope.

(** ** Digits and exponents *)

Lemma fexp64 (e : Z) : fexp 53 1024 e = Z.max (e - 53) (-1074).
Proof. reflexivity. Qed.

(** The number of binary digits of a mantissa. *)
Lemma digits2_pos_size (p : positive) : digits2_pos p = Pos.size p.
Proof. induction p as [p IH|p IH|]; simpl; [rewrite IH|rewrite IH|]; reflexivity. Qed.

Lemma Zdigits2_log2 (m : Z) : 0 < m -> Zdigits2 m = Z.log2 m + 1.
Proof.
  destruct m as [|p|p]; try lia. intros _. simpl. rewrite digits2_pos_size.
  destruct p; simpl; try rewrite Pos2Z.inj_succ; lia.
Qed.

Lemma Zdigits2_nonneg (m : Z) : 0 <= Zdigits2 m.
Proof. destruct m; simpl; lia. Qed.

(** A positive [m] has at most [k] digits exactly when [m < 2^k]. *)
Lemma Zdigits2_le_iff (m k : Z) : 0 < m -> (Zdigits2 m <= k <-> m < 2 ^ k).
Proof.
  intros Hm. rewrite (Zdigits2_log2 m Hm).
  rewrite (Z.log2_lt_pow2 m k Hm). lia.
Qed.

Lemma Zdigits2_lower (m : Z) : 0 < m -> 2 ^ (Zdigits2 m - 1) <= m.
Proof.
  intros Hm. rewrite (Zdigits2_log2 m Hm).
  replace (Z.log2 m + 1 - 1) with (Z.log2 m) by lia.
  apply Z.log2_spec. exact Hm.
Qed.

Lemma Zdigits2_upper (m : Z) : 0 <= m -> m < 2 ^ Zdigits2 m.
Proof.
  intros Hm. destruct (Z.eq_dec m 0) as [->|Hne]; [reflexivity|].
  apply Zdigits2_le_iff; lia.
Qed.

(** ** Shifting right

    One step of [shr_1] halves the mantissa; [n] steps divide it by
    [2^n], and lose nothing when the mantissa is a multiple of [2^n]. *)
Lemma shr_1_m (mrs : shr_record) :
  0 <= shr_m mrs -> shr_m (shr_1 mrs) = shr_m mrs / 2.
Proof.
  destruct mrs as [m r s]. cbn [shr_m]. intros Hm.
  destruct m as [|[p|p|]|p]; cbn [shr_1 shr_m]; try lia; try reflexivity.
  - rewrite (Pos2Z.inj_xI p). apply Z.div_unique with 1; lia.
  - rewrite (Pos2Z.inj_xO p). apply Z.div_unique with 0; lia.
Qed.

Lemma iter_shr_1_m (n : positive) (mrs : shr_record) :
  0 <= shr_m mrs ->
  shr_m (iter_pos shr_1 n mrs) = shr_m mrs / 2 ^ Zpos n.
Proof.
  revert mrs. induction n as [n IH|n IH|]; intros mrs Hm; cbn [iter_pos].
  - assert (H1 : 0 <= shr_m (shr_1 mrs)).
    { rewrite shr_1_m by exact Hm. apply Z.div_pos; lia. }
    assert (H2 : 0 <= shr_m (iter_pos shr_1 n (shr_1 mrs))).
    { rewrite IH by exact H1. apply Z.div_pos; [exact H1|]. apply Z.pow_pos_nonneg; lia. }
    rewrite IH, IH, shr_1_m by assumption.
    rewrite !Z.div_div by (try apply Z.pow_pos_nonneg; lia).
    rewrite (Pos2Z.inj_xI n).
    replace (2 * Z.pos n + 1) with (1 + Z.pos n + Z.pos n) by lia.
    rewrite !Z.pow_add_r by lia. f_equal. ring.
  - assert (H2 : 0 <= shr_m (iter_pos shr_1 n mrs)).
    { rewrite IH by exact Hm. apply Z.div_pos; [exact Hm|]. apply Z.pow_pos_nonneg; lia. }
    rewrite IH, IH by assumption.
    rewrite !Z.div_div by (try apply Z.pow_pos_nonneg; lia).
    rewrite (Pos2Z.inj_xO n).
    replace (2 * Z.pos n) with (Z.pos n + Z.pos n) by lia.
    rewrite Z.pow_add_r by lia. reflexivity.
  - rewrite shr_1_m by exact Hm. reflexivity.
Qed.

Lemma shr_1_exact (q : Z) :
  0 <= q ->
  shr_1 (Build_shr_record (2 * q) false false) = Build_shr_record q false false.
Proof. destruct q as [|p|p]; try lia; reflexivity. Qed.

Lemma iter_shr_1_exact (n : positive) (q : Z) :
  0 <= q ->
  iter_pos shr_1 n (Build_shr_record (q * 2 ^ Zpos n) false false)
  = Build_shr_record q false false.
Proof.
  revert q. induction n as [n IH|n IH|]; intros q Hq; cbn [iter_pos].
  - replace (q * 2 ^ Z.pos n~1) with (2 * ((q * 2 ^ Z.pos n) * 2 ^ Z.pos n)).
    + rewrite shr_1_exact by (apply Z.mul_nonneg_nonneg; [apply Z.mul_nonneg_nonneg|]; lia).
      rewrite IH by (apply Z.mul_nonneg_nonneg; lia). apply IH. exact Hq.
    + rewrite (Pos2Z.inj_xI n).
      replace (2 * Z.pos n + 1) with (Z.pos n + Z.pos n + 1) by lia.
      rewrite !Z.pow_add_r by lia. ring.
  - replace (q * 2 ^ Z.pos n~0) with ((q * 2 ^ Z.pos n) * 2 ^ Z.pos n).
    + rewrite IH by (apply Z.mul_nonneg_nonneg; lia). apply IH. exact Hq.
    + rewrite (Pos2Z.inj_xO n).
      replace (2 * Z.pos n) with (Z.pos n + Z.pos n) by lia. 
      rewrite Z.pow_add_r by lia. ring.
  - replace (q * 2 ^ 1) with (2 * q) by lia. apply shr_1_exact. exact Hq.
Qed.

Lemma shr_m_of_loc (m : Z) (l : location) : shr_m (shr_record_of_loc m l) = m.
Proof. destruct l as [|[]]; reflexivity. Qed.

Lemma round_exp_ge (m e : Z) : e <= round_exp m e.
Proof. unfold round_exp. lia. Qed.

(** [shr_fexp] brings a mantissa to the exponent [round_exp] and
    divides it accordingly. *)
Lemma shr_fexp_spec (m e : Z) (l : location) :
  0 <= m ->
  snd (shr_fexp 53 1024 m e l) = round_exp m e /\
  shr_m (fst (shr_fexp 53 1024 m e l)) = m / 2 ^ (round_exp m e - e).
Proof.
  intros Hm. unfold shr_fexp, shr, round_exp.
  set (f := fexp 53 1024 (Zdigits2 m + e)).
  destruct (f - e) as [|p|p] eqn:En; cbn [fst snd].
  - replace (Z.max e f - e) with 0 by lia.
    rewrite shr_m_of_loc, Z.div_1_r. split; lia.
  - replace (Z.max e f - e) with (Z.pos p) by lia.
    rewrite iter_shr_1_m by (rewrite shr_m_of_loc; exact Hm).
    rewrite shr_m_of_loc. split; lia.
  - replace (Z.max e f - e) with 0 by lia.
    rewrite shr_m_of_loc, Z.div_1_r. split; lia.
Qed.

Lemma shr_fexp_exact (m e : Z) :
  0 <= m ->
  m mod 2 ^ (round_exp m e - e) = 0 ->
  loc_of_shr_record (fst (shr_fexp 53 1024 m e loc_Exact)) = loc_Exact.
Proof.
  intros Hm Hmod. unfold shr_fexp, shr, round_exp in *.
  set (f := fexp 53 1024 (Zdigits2 m + e)) in *.
  destruct (f - e) as [|p|p] eqn:En; cbn [fst snd]; try reflexivity.
  replace (Z.max e f - e) with (Z.pos p) in Hmod by lia.
  cbn [shr_record_of_loc].
  rewrite (Z.div_mod m (2 ^ Z.pos p)) at 1 by (apply Z.pow_nonzero; lia).
  rewrite Hmod, Z.add_0_r, Z.mul_comm.
  rewrite iter_shr_1_exact; [reflexivity|].
  apply Z.div_pos; [exact Hm|]. apply Z.pow_pos_nonneg; lia.
Qed.

Lemma round_nearest_even_bounds (m : Z) (l : location) :
  m <= round_nearest_even m l <= m + 1.
Proof.
  unfold round_nearest_even. destruct l as [|[]]; try lia. destruct (Z.even m); lia.
Qed.

(** ** The two stages of [binary_round_aux]

    A shift to the exponent of the format, a rounding of the shifted
    mantissa [m1] up by at most one (by nothing when the shift was
    exact), and a second shift in case the rounding made it longer. *)
Lemma binary_round_aux_spec (s : bool) (m e : Z) (l : location) :
  0 <= m ->
  exists m1 : Z,
    let e1 := round_exp m e in
    let e2 := round_exp m1 e1 in
    m / 2 ^ (e1 - e) <= m1 <= m / 2 ^ (e1 - e) + 1 /\
    (l = loc_Exact -> m mod 2 ^ (e1 - e) = 0 -> m1 = m / 2 ^ (e1 - e)) /\
    binary_round_aux 53 1024 s m e l = round_result s (m1 / 2 ^ (e2 - e1)) e2.
Proof.
  intros Hm. unfold binary_round_aux.
  destruct (shr_fexp_spec m e l Hm) as [He1 Hm1].
  destruct (shr_fexp 53 1024 m e l) as [mrs' e'] eqn:E1. cbn [fst snd] in He1, Hm1.
  set (m1 := round_nearest_even (shr_m mrs') (loc_of_shr_record mrs')).
  pose proof (round_nearest_even_bounds (shr_m mrs') (loc_of_shr_record mrs')) as Hb.
  fold m1 in Hb.
  assert (H0 : 0 <= shr_m mrs').
  { rewrite Hm1. apply Z.div_pos; [exact Hm|]. apply Z.pow_pos_nonneg; [lia|].
    pose proof (round_exp_ge m e). lia. }
  assert (Hm1' : 0 <= m1) by lia.
  destruct (shr_fexp_spec m1 e' loc_Exact Hm1') as [He2 Hm2].
  destruct (shr_fexp 53 1024 m1 e' loc_Exact) as [mrs'' e''] eqn:E2.
  cbn [fst snd] in He2, Hm2.
  exists m1. cbn zeta. subst e' e''. rewrite <- Hm1. split; [exact Hb|]. split.
  - intros -> Hmod. unfold m1.
    pose proof (shr_fexp_exact m e Hm Hmod) as Hex. rewrite E1 in Hex. cbn [fst] in Hex.
    rewrite Hex. reflexivity.
  - rewrite <- Hm2. unfold round_result.
    change (1024 - 53) with 971. destruct (shr_m mrs''); reflexivity.
Qed.

Lemma round_result_not_nan (s : bool) (m2 e2 : Z) :
  0 <= m2 -> Float64.is_nan (round_result s m2 e2) = false.
Proof.
  unfold round_result. destruct m2; try lia; intros _; [reflexivity|].
  destruct (e2 <=? 971); reflexivity.
Qed.

Lemma binary_round_aux_not_nan (s : bool) (m e : Z) (l : location) :
  0 <= m -> Float64.is_nan (binary_round_aux 53 1024 s m e l) = false.
Proof.
  intros Hm. destruct (binary_round_aux_spec s m e l Hm) as (m1 & Hb & _ & ->).
  apply round_result_not_nan. apply Z.div_pos.
  - assert (0 <= m / 2 ^ (round_exp m e - e)); [|lia].
    apply Z.div_pos; [exact Hm|]. apply Z.pow_pos_nonneg; [lia|].
    pose proof (round_exp_ge m e). lia.
  - apply Z.pow_pos_nonneg; [lia|]. pose proof (round_exp_ge m1 (round_exp m e)). lia.
Qed.

Lemma pow2_pos (k : Z) : 0 <= k -> 0 < 2 ^ k.
Proof. intros. apply Z.pow_pos_nonneg; lia. Qed.

Lemma pow2_split (a b : Z) : 0 <= a -> 0 <= b -> 2 ^ (a + b) = 2 ^ a * 2 ^ b.
Proof. intros. apply Z.pow_add_r; assumption. Qed.

(** ** No overflow below the largest finite number *)

Lemma below_max_digits (m e : Z) :
  0 < m -> below_max m e -> Zdigits2 m + e <= 1024.
Proof.
  intros Hm [He Hle].
  assert (H : Zdigits2 m <= 1024 - e); [|lia].
  apply Zdigits2_le_iff; [exact Hm|].
  replace (1024 - e) with (53 + (971 - e)) by lia.
  rewrite pow2_split by lia.
  pose proof (pow2_pos (971 - e)). unfold max_mantissa in Hle. nia.
Qed.

Lemma round_exp_le (m e : Z) :
  0 < m -> below_max m e -> round_exp m e <= 971.
Proof.
  intros Hm Hb. pose proof (below_max_digits m e Hm Hb) as Hd.
  destruct Hb as [He _]. unfold round_exp. rewrite fexp64. lia.
Qed.

(** After the first shift the mantissa has at most 53 bits. *)
Lemma shifted_mantissa_lt (m e : Z) :
  0 <= m -> m / 2 ^ (round_exp m e - e) < 2 ^ 53.
Proof.
  intros Hm. pose proof (round_exp_ge m e) as Hge.
  pose proof (Zdigits2_upper m Hm) as Hup.
  pose proof (Zdigits2_nonneg m) as Hd0.
  apply Z.div_lt_upper_bound; [apply pow2_pos; lia|].
  rewrite <- pow2_split by lia.
  eapply Z.lt_le_trans; [exact Hup|].
  apply Z.pow_le_mono_r; [lia|].
  unfold round_exp in *. rewrite fexp64 in *. lia.
Qed.

Lemma round_result_not_inf (s : bool) (m2 e2 : Z) :
  e2 <= 971 -> Float64.is_inf (round_result s m2 e2) = false.
Proof.
  intros He. unfold round_result. destruct m2; try reflexivity.
  destruct (Z.leb_spec e2 971); [reflexivity|lia].
Qed.

Lemma binary_round_aux_no_overflow (s : bool) (m e : Z) :
  0 < m -> below_max m e ->
  Float64.is_inf (binary_round_aux 53 1024 s m e loc_Exact) = false.
Proof.
  intros Hm Hb.
  destruct (binary_round_aux_spec s m e loc_Exact) as (m1 & Hm1 & Hex & ->); [lia|].
  apply round_result_not_inf.
  pose proof (round_exp_le m e Hm Hb) as He1.
  pose proof (round_exp_ge m e) as Hge.
  pose proof (shifted_mantissa_lt m e (Z.lt_le_incl _ _ Hm)) as Hq.
  set (e1 := round_exp m e) in *. set (q := m / 2 ^ (e1 - e)) in *.
  assert (Hq0 : 0 <= q) by (apply Z.div_pos; [lia|apply pow2_pos; lia]).
  assert (He1low : -1074 <= e1).
  { unfold e1, round_exp. rewrite fexp64. lia. }
  (* the second shift is by one position at most, and by none when
     the rounded mantissa still has 53 bits *)
  assert (Hd : forall k, m1 < 2 ^ k -> 53 <= k -> round_exp m1 e1 <= e1 + (k - 53)).
  { intros k Hk Hk53. unfold round_exp. rewrite fexp64.
    destruct (Z.eq_dec m1 0) as [->|Hne]; [simpl; lia|].
    assert (Zdigits2 m1 <= k) by (apply Zdigits2_le_iff; lia). lia. }
  destruct (Z.eq_dec e1 971) as [E|E].
  - (* at the top exponent the mantissa cannot be rounded up to 2^53 *)
    assert (Hlt : m1 < 2 ^ 53).
    { destruct Hb as [_ Hle]. rewrite <- E in Hle. fold e1 in Hle.
      destruct (Z.eq_dec q max_mantissa) as [Eq|Nq].
      - assert (Hmod : m mod 2 ^ (e1 - e) = 0).
        { assert (Hpos : 0 < 2 ^ (e1 - e)) by (apply pow2_pos; lia).
          pose proof (Z.div_mod m (2 ^ (e1 - e)) ltac:(lia)) as Hdm.
          pose proof (Z.mod_pos_bound m (2 ^ (e1 - e)) Hpos) as Hmb.
          fold q in Hdm. rewrite Eq in Hdm. lia. }
        rewrite (Hex eq_refl Hmod). exact Hq.
      - unfold max_mantissa in *. lia. }
    specialize (Hd 53 Hlt ltac:(lia)). lia.
  - assert (Hlt : m1 < 2 ^ 54).
    { replace (2 ^ 54) with (2 * 2 ^ 53) by reflexivity. lia. }
    specialize (Hd 54 Hlt ltac:(lia)). lia.
Qed.

(** ** No underflow to zero above the smallest positive number *)

Lemma round_result_not_zero (s : bool) (m2 e2 : Z) :
  0 < m2 -> Float64.is_zero (round_result s m2 e2) = false.
Proof.
  unfold round_result. destruct m2; try lia; intros _.
  destruct (e2 <=? 971); reflexivity.
Qed.

(** A shift that stays below the number of digits leaves something. *)
Lemma shifted_mantissa_pos (m e : Z) :
  0 < m -> -1074 < Zdigits2 m + e -> 0 < m / 2 ^ (round_exp m e - e).
Proof.
  intros Hm Hd. pose proof (round_exp_ge m e) as Hge.
  pose proof (Zdigits2_lower m Hm) as Hlow.
  assert (Hd1 : 1 <= Zdigits2 m).
  { destruct m; try lia. simpl. lia. }
  apply Z.div_str_pos. split; [apply pow2_pos; lia|].
  eapply Z.le_trans; [|exact Hlow].
  apply Z.pow_le_mono_r; [lia|].
  unfold round_exp in *. rewrite fexp64 in *. lia.
Qed.

Lemma binary_round_aux_not_zero (s : bool) (m e : Z) (l : location) :
  0 < m -> -1074 < Zdigits2 m + e ->
  Float64.is_zero (binary_round_aux 53 1024 s m e l) = false.
Proof.
  intros Hm Hd.
  destruct (binary_round_aux_spec s m e l) as (m1 & Hm1 & _ & ->); [lia|].
  apply round_result_not_zero.
  pose proof (shifted_mantissa_pos m e Hm Hd) as Hq.
  assert (H1 : 0 < m1) by lia.
  apply shifted_mantissa_pos; [exact H1|].
  assert (1 <= Zdigits2 m1) by (destruct m1; try lia; simpl; lia).
  assert (-1074 <= round_exp m e) by (unfold round_exp; rewrite fexp64; lia).
  lia.
Qed.

(** ** Alignment *)

Lemma Pos_iter_xO (p n : positive) : Z.pos (Pos.iter xO p n) = Z.pos p * 2 ^ Z.pos n.
Proof.
  induction n as [|n IH] using Pos.peano_ind.
  - cbn [Pos.iter]. rewrite (Pos2Z.inj_xO p). change (2 ^ 1) with 2. lia.
  - rewrite Pos.iter_succ. rewrite (Pos2Z.inj_xO (Pos.iter xO p n)), IH, Pos2Z.inj_succ.
    rewrite Z.pow_succ_r by lia. ring.
Qed.

Lemma shl_align_spec (p : positive) (e e' : Z) :
  snd (shl_align p e e') = Z.min e e' /\
  Z.pos (fst (shl_align p e e')) = Z.pos p * 2 ^ (e - Z.min e e').
Proof.
  unfold shl_align. destruct (e' - e) as [|d|d] eqn:Ed; cbn [fst snd].
  - replace (Z.min e e') with e by lia. rewrite Z.sub_diag. split; lia.
  - replace (Z.min e e') with e by lia. rewrite Z.sub_diag. split; lia.
  - replace (Z.min e e') with e' by lia. rewrite Pos_iter_xO.
    replace (e - e') with (Z.pos d) by lia. split; reflexivity.
Qed.

Lemma Zdigits2_shift (m k : Z) :
  0 < m -> 0 <= k -> Zdigits2 (m * 2 ^ k) = Zdigits2 m + k.
Proof.
  intros Hm Hk. pose proof (pow2_pos k Hk).
  rewrite !Zdigits2_log2 by nia. rewrite Z.log2_mul_pow2 by lia. lia.
Qed.

Lemma below_max_shift (m e e' : Z) :
  0 < m -> e' <= e -> below_max m e -> below_max (m * 2 ^ (e - e')) e'.
Proof.
  intros Hm Hle [He Hb]. split; [lia|].
  replace (971 - e') with ((971 - e) + (e - e')) by lia.
  rewrite pow2_split by lia.
  pose proof (pow2_pos (e - e')). nia.
Qed.

Lemma binary_round_not_nan (s : bool) (p : positive) (e : Z) :
  Float64.is_nan (binary_round 53 1024 s p e) = false.
Proof.
  unfold binary_round.
  destruct (shl_align p e _) as [mz ez]. apply binary_round_aux_not_nan. lia.
Qed.

Lemma binary_round_no_overflow (s : bool) (p : positive) (e : Z) :
  below_max (Z.pos p) e -> Float64.is_inf (binary_round 53 1024 s p e) = false.
Proof.
  intros Hb. unfold binary_round.
  destruct (shl_align_spec p e (fexp 53 1024 (Z.pos (digits2_pos p) + e))) as [He Hm].
  destruct (shl_align p e _) as [mz ez]. cbn [fst snd] in He, Hm.
  apply binary_round_aux_no_overflow; [lia|].
  rewrite Hm, He. apply below_max_shift; [lia|lia|exact Hb].
Qed.

Lemma binary_round_not_zero (s : bool) (p : positive) (e : Z) :
  -1074 < Z.pos (digits2_pos p) + e ->
  Float64.is_zero (binary_round 53 1024 s p e) = false.
Proof.
  intros Hd. unfold binary_round.
  destruct (shl_align_spec p e (fexp 53 1024 (Z.pos (digits2_pos p) + e))) as [He Hm].
  destruct (shl_align p e _) as [mz ez]. cbn [fst snd] in He, Hm.
  apply binary_round_aux_not_zero; [lia|].
  rewrite Hm, He. rewrite Zdigits2_shift by lia. simpl Zdigits2. lia.
Qed.

Lemma binary_normalize_not_nan (m e : Z) (szero : bool) :
  Float64.is_nan (binary_normalize 53 1024 m e szero) = false.
Proof. destruct m; simpl; [reflexivity| |]; apply binary_round_not_nan. Qed.

Lemma binary_normalize_no_overflow (m e : Z) (szero : bool) :
  below_max (Z.abs m) e -> Float64.is_inf (binary_normalize 53 1024 m e szero) = false.
Proof.
  destruct m; simpl; [reflexivity| |]; apply binary_round_no_overflow.
Qed.

Lemma binary_normalize_not_zero (m e : Z) (szero : bool) :
  m <> 0 -> -1074 < Zdigits2 m + e ->
  Float64.is_zero (binary_normalize 53 1024 m e szero) = false.
Proof.
  destruct m; simpl; [congruence| |]; intros _; apply binary_round_not_zero.
Qed.

(** ** Sums, differences and quotients of finite numbers *)

(** A number of the format is at most the largest finite number. *)
Lemma bounded_below_max (m : positive) (e : Z) :
  bounded 53 1024 m e = true -> below_max (Z.pos m) e.
Proof.
  unfold bounded, canonical_mantissa. rewrite andb_true_iff, Z.eqb_eq, Z.leb_le.
  rewrite fexp64. change (1024 - 53) with 971. intros [Hc He]. split; [exact He|].
  assert (Hd : Zdigits2 (Z.pos m) <= 53) by (simpl; lia).
  apply Zdigits2_le_iff in Hd; [|lia].
  pose proof (pow2_pos (971 - e)). unfold max_mantissa. nia.
Qed.

(** Of the sum and the difference of two finite numbers at most one
    overflows: one of them is no larger in magnitude than the larger
    operand. *)
Lemma add_sub_not_both_inf (x y : float) :
  finite_number x = true -> finite_number y = true ->
  Float64.is_inf (SFadd 53 1024 x y) && Float64.is_inf (SFsub 53 1024 x y) = false.
Proof.
  unfold finite_number.
  destruct x as [sx|sx| |sx mx ex], y as [sy|sy| |sy my ey]; simpl;
    try discriminate; intros Hx Hy;
    try (destruct sx, sy; reflexivity); try reflexivity.
  apply bounded_below_max in Hx, Hy.
  set (ez := Z.min ex ey).
  destruct (shl_align_spec mx ex ez) as [_ Ha].
  destruct (shl_align_spec my ey ez) as [_ Hb].
  replace (Z.min ex ez) with ez in Ha by lia.
  replace (Z.min ey ez) with ez in Hb by lia.
  pose proof (below_max_shift (Z.pos mx) ex ez ltac:(lia) ltac:(lia) Hx) as Ba.
  pose proof (below_max_shift (Z.pos my) ey ez ltac:(lia) ltac:(lia) Hy) as Bb.
  rewrite <- Ha in Ba. rewrite <- Hb in Bb.
  set (a := Z.pos (fst (shl_align mx ex ez))) in *.
  set (b := Z.pos (fst (shl_align my ey ez))) in *.
  assert (Hpos : 0 < a /\ 0 < b) by (unfold a, b; lia).
  set (P := cond_Zopp sx a + cond_Zopp sy b).
  set (Q := cond_Zopp sx a - cond_Zopp sy b).
  assert (H : below_max (Z.abs P) ez \/ below_max (Z.abs Q) ez).
  { unfold P, Q, below_max in *. destruct sx, sy; unfold cond_Zopp; lia. }
  destruct H as [H|H].
  - rewrite (binary_normalize_no_overflow P ez false H). reflexivity.
  - rewrite (binary_normalize_no_overflow Q ez false H). apply andb_false_r.
Qed.

Lemma add_not_nan (x y : float) :
  Float64.is_finite x = true -> Float64.is_finite y = true -> Float64.is_nan (SFadd 53 1024 x y) = false.
Proof.
  destruct x as [sx|sx| |sx mx ex], y as [sy|sy| |sy my ey]; simpl;
    try discriminate; intros _ _; try (destruct sx, sy; reflexivity); try reflexivity.
  apply binary_normalize_not_nan.
Qed.

Lemma sub_not_nan (x y : float) :
  Float64.is_finite x = true -> Float64.is_finite y = true -> Float64.is_nan (SFsub 53 1024 x y) = false.
Proof.
  destruct x as [sx|sx| |sx mx ex], y as [sy|sy| |sy my ey]; simpl;
    try discriminate; intros _ _; try (destruct sx, sy; reflexivity); try reflexivity.
  apply binary_normalize_not_nan.
Qed.

(** A quotient is NaN only for a NaN operand, inf / inf or 0 / 0. *)
Lemma div_not_nan (x y : float) :
  Float64.is_nan x = false -> Float64.is_nan y = false ->
  Float64.is_inf x && Float64.is_inf y = false ->
  Float64.is_zero x && Float64.is_zero y = false ->
  Float64.is_nan (SFdiv 53 1024 x y) = false.
Proof.
  destruct x as [sx|sx| |sx mx ex], y as [sy|sy| |sy my ey]; simpl;
    try discriminate; intros _ _ _ _; try reflexivity.
  unfold SFdiv_core_binary.
  set (e' := Z.min _ _). set (m' := match _ with 0 => _ | _ => _ end).
  assert (Hm' : 0 <= m').
  { unfold m'. destruct (ex - ey - e'); try lia. apply Z.shiftl_nonneg. lia. }
  destruct (Z.div_eucl m' (Z.pos my)) as [q r] eqn:E.
  assert (Hq : q = m' / Z.pos my) by (unfold Z.div; rewrite E; reflexivity).
  apply binary_round_aux_not_nan. rewrite Hq. apply Z.div_pos; lia.
Qed.

End Rounding.

(** * Operations that are exact

    Numbers that are integer multiples of one power of two, with a
    sum below 2^53 steps, are added without rounding; and a number
    divided by one is the number. *)

Section Exact.

Local Open Scope Z_scope.

(** A mantissa that fits the exponent of the format is not rounded. *)
Lemma binary_round_exact (s : bool) (p : positive) (e M f : Z) :
  f = fexp 53 1024 (Zdigits2 (Z.pos p) + e) ->
  0 < M ->
  (f <= e /\ M = Z.pos p * 2 ^ (e - f)) \/ (e < f /\ Z.pos p = M * 2 ^ (f - e)) ->
  binary_round 53 1024 s p e = round_result s M f.
Proof.
  intros Hf HM Hcase. unfold binary_round.
  destruct (shl_align_spec p e (fexp 53 1024 (Z.pos (digits2_pos p) + e))) as [He Hm].
  change (Z.pos (digits2_pos p)) with (Zdigits2 (Z.pos p)) in *. rewrite <- Hf in *.
  destruct (shl_align p e f) as [mz ez]. cbn [fst snd] in He, Hm.
  assert (Hd : Zdigits2 M + f = Zdigits2 (Z.pos p) + e).
  { destruct Hcase as [[Hle HMeq]|[Hlt HMeq]];
      rewrite HMeq, Zdigits2_shift by lia; lia. }
  assert (E3 : round_exp M f = f).
  { unfold round_exp. rewrite Hd, <- Hf. lia. }
  destruct (binary_round_aux_spec s (Z.pos mz) ez loc_Exact ltac:(lia))
    as (m1 & _ & Hexact & ->).
  cbv zeta in Hexact.
  destruct Hcase as [[Hle HMeq]|[Hlt HMeq]].
  - assert (Hez : ez = f) by lia. clear He. subst ez.
    replace (Z.min e f) with f in Hm by lia. rewrite <- HMeq in Hm.
    rewrite Hm in *. rewrite E3 in *. rewrite Z.sub_diag, Z.div_1_r in Hexact.
    rewrite Hexact by (try reflexivity; apply Z.mod_1_r).
    rewrite E3, Z.sub_diag, Z.div_1_r. reflexivity.
  - assert (Hez : ez = e) by lia. clear He. subst ez.
    replace (Z.min e f) with e in Hm by lia. rewrite Z.sub_diag, Z.mul_1_r in Hm.
    rewrite Hm in *.
    assert (E1 : round_exp (Z.pos p) e = f).
    { unfold round_exp. rewrite <- Hf. lia. }
    rewrite E1 in *.
    pose proof (pow2_pos (f - e) ltac:(lia)).
    assert (E2 : m1 = M).
    { rewrite Hexact.
      - rewrite HMeq. apply Z.div_mul. lia.
      - reflexivity.
      - rewrite HMeq. apply Z.mod_mul. lia. }
    subst m1. rewrite E3, Z.sub_diag, Z.div_1_r. reflexivity.
Qed.

Lemma grid_exp_le (m k : Z) :
  m <> 0 -> Z.abs m < 2 ^ 53 -> -1074 <= k -> grid_exp m k <= k.
Proof.
  intros Hm Hb Hk. unfold grid_exp. rewrite fexp64.
  assert (Zdigits2 (Z.abs m) <= 53) by (apply Zdigits2_le_iff; lia).
  lia.
Qed.

Lemma dyadic_round (m k : Z) :
  m <> 0 -> Z.abs m < 2 ^ 53 -> -1074 <= k ->
  Float64.dyadic m k =
  round_result (m <? 0) (Z.abs m * 2 ^ (k - grid_exp m k)) (grid_exp m k).
Proof.
  intros Hm Hb Hk. pose proof (grid_exp_le m k Hm Hb Hk) as Hle.
  pose proof (pow2_pos (k - grid_exp m k) ltac:(lia)).
  unfold Float64.dyadic, binary_normalize, Float64.prec, Float64.emax.
  destruct m as [|p|p]; [congruence| |];
    apply binary_round_exact; try reflexivity; try lia;
    left; split; try exact Hle; reflexivity.
Qed.

Lemma dyadic_finite (m k : Z) :
  m <> 0 -> Z.abs m < 2 ^ 53 -> -1074 <= k <= 971 ->
  exists P : positive,
    Float64.dyadic m k = S754_finite (m <? 0) P (grid_exp m k) /\
    Z.pos P = Z.abs m * 2 ^ (k - grid_exp m k).
Proof.
  intros Hm Hb Hk. pose proof (grid_exp_le m k Hm Hb ltac:(lia)) as Hle.
  pose proof (pow2_pos (k - grid_exp m k) ltac:(lia)).
  rewrite dyadic_round by lia. unfold round_result.
  destruct (Z.abs m * 2 ^ (k - grid_exp m k)) as [|P|P] eqn:E; try lia.
  exists P. split; [|reflexivity].
  destruct (grid_exp m k <=? 971) eqn:E'; [reflexivity|]. apply Z.leb_gt in E'. lia.
Qed.

Lemma cond_Zopp_sign (m v : Z) :
  m <> 0 -> 0 <= v -> cond_Zopp (m <? 0) (Z.abs m * v) = m * v.
Proof.
  intros Hm Hv. unfold cond_Zopp. destruct (Z.ltb_spec m 0); nia.
Qed.

(** On a grid, sums below 2^53 steps are exact. *)
Lemma grid_add (m1 m2 k : Z) :
  Z.abs m1 < 2 ^ 53 -> Z.abs m2 < 2 ^ 53 -> Z.abs (m1 + m2) < 2 ^ 53 ->
  -1074 <= k <= 971 ->
  Float64.add (Float64.dyadic m1 k) (Float64.dyadic m2 k) = Float64.dyadic (m1 + m2) k.
Proof.
  intros H1 H2 H12 Hk.
  destruct (Z.eq_dec m1 0) as [->|N1].
  { change (Float64.dyadic 0 k) with (S754_zero false). rewrite Z.add_0_l.
    destruct (Z.eq_dec m2 0) as [->|N2]; [reflexivity|].
    destruct (dyadic_finite m2 k N2 H2 Hk) as (P2 & -> & _). reflexivity. }
  destruct (Z.eq_dec m2 0) as [->|N2].
  { change (Float64.dyadic 0 k) with (S754_zero false). rewrite Z.add_0_r.
    destruct (dyadic_finite m1 k N1 H1 Hk) as (P1 & -> & _). reflexivity. }
  destruct (dyadic_finite m1 k N1 H1 Hk) as (P1 & -> & HP1).
  destruct (dyadic_finite m2 k N2 H2 Hk) as (P2 & -> & HP2).
  pose proof (grid_exp_le m1 k N1 H1 ltac:(lia)) as L1.
  pose proof (grid_exp_le m2 k N2 H2 ltac:(lia)) as L2.
  set (f1 := grid_exp m1 k) in *. set (f2 := grid_exp m2 k) in *.
  unfold Float64.add, SFadd, Float64.prec, Float64.emax.
  set (ez := Z.min f1 f2).
  destruct (shl_align_spec P1 f1 ez) as [_ A1].
  destruct (shl_align_spec P2 f2 ez) as [_ A2].
  replace (Z.min f1 ez) with ez in A1 by lia.
  replace (Z.min f2 ez) with ez in A2 by lia.
  rewrite A1, A2, HP1, HP2.
  rewrite <- !Z.mul_assoc, <- !pow2_split by lia.
  replace (k - f1 + (f1 - ez)) with (k - ez) by lia.
  replace (k - f2 + (f2 - ez)) with (k - ez) by lia.
  pose proof (pow2_pos (k - ez) ltac:(lia)) as Hpow.
  rewrite !cond_Zopp_sign by lia.
  rewrite <- Z.mul_add_distr_r.
  destruct (Z.eq_dec (m1 + m2) 0) as [E0|N0].
  { rewrite E0. reflexivity. }
  rewrite (dyadic_round (m1 + m2) k N0 H12 ltac:(lia)).
  pose proof (grid_exp_le (m1 + m2) k N0 H12 ltac:(lia)) as L.
  set (m := m1 + m2) in *. set (f := grid_exp m k) in *.
  pose proof (pow2_pos (k - f) ltac:(lia)) as Hpf.
  assert (Hd : Zdigits2 (Z.abs m * 2 ^ (k - ez)) + ez = Zdigits2 (Z.abs m) + k).
  { rewrite Zdigits2_shift by lia. lia. }
  assert (Hcase :
    (f <= ez /\ Z.abs m * 2 ^ (k - f) = Z.abs m * 2 ^ (k - ez) * 2 ^ (ez - f)) \/
    (ez < f /\ Z.abs m * 2 ^ (k - ez) = Z.abs m * 2 ^ (k - f) * 2 ^ (f - ez))).
  { destruct (Z.le_gt_cases f ez) as [Hle|Hgt]; [left|right]; split; try lia;
      rewrite <- Z.mul_assoc, <- pow2_split by lia; f_equal; f_equal; lia. }
  unfold binary_normalize.
  destruct (m * 2 ^ (k - ez)) as [|p|p] eqn:Em; [nia| |].
  - assert (Hpos : 0 < m) by nia.
    replace (m <? 0) with false by (symmetry; apply Z.ltb_ge; lia).
    assert (Hp : Z.pos p = Z.abs m * 2 ^ (k - ez)) by (rewrite Z.abs_eq by lia; lia).
    apply binary_round_exact.
    + rewrite Hp, Hd. reflexivity.
    + nia.
    + rewrite Hp. exact Hcase.
  - assert (Hneg : m < 0) by nia.
    replace (m <? 0) with true by (symmetry; apply Z.ltb_lt; lia).
    assert (Hp : Z.pos p = Z.abs m * 2 ^ (k - ez)) by (rewrite Z.abs_neq by lia; lia).
    apply binary_round_exact.
    + rewrite Hp, Hd. reflexivity.
    + nia.
    + rewrite Hp. exact Hcase.
Qed.

End Exact.

Section DivOne.

Local Open Scope Z_scope.

Lemma fexp_mono (a b : Z) : a <= b -> fexp 53 1024 a <= fexp 53 1024 b.
Proof. intros H. rewrite !fexp64. lia. Qed.

Lemma div_core_one (m : positive) (e : Z) :
  fexp 53 1024 (Zdigits2 (Z.pos m) + e) = e ->
  exists e' : Z,
    e' <= e /\
    SFdiv_core_binary 53 1024 (Z.pos m) e (2 ^ 52) (-52) =
    (Z.pos m * 2 ^ (e - e'), e', loc_Exact).
Proof.
  intros Hc. unfold SFdiv_core_binary.
  change (Zdigits2 (2 ^ 52)) with 53.
  set (e' := Z.min (fexp 53 1024 (Zdigits2 (Z.pos m) + e - (53 + -52))) (e - -52)).
  assert (He' : e' <= e).
  { subst e'. pose proof (fexp_mono (Zdigits2 (Z.pos m) + e - (53 + -52))
                            (Zdigits2 (Z.pos m) + e) ltac:(lia)). lia. }
  exists e'. split; [exact He'|].
  destruct (e - -52 - e') as [|s|s] eqn:Es; try lia.
  rewrite Z.shiftl_mul_pow2 by lia.
  assert (Hsplit : Z.pos m * 2 ^ Z.pos s = Z.pos m * 2 ^ (e - e') * 2 ^ 52).
  { rewrite <- Z.mul_assoc, <- pow2_split by lia. f_equal. f_equal. lia. }
  assert (Hq : (Z.pos m * 2 ^ Z.pos s) / 2 ^ 52 = Z.pos m * 2 ^ (e - e')).
  { rewrite Hsplit. apply Z.div_mul. lia. }
  assert (Hr : (Z.pos m * 2 ^ Z.pos s) mod 2 ^ 52 = 0).
  { rewrite Hsplit. apply Z.mod_mul. lia. }
  unfold Z.div, Z.modulo in Hq, Hr.
  destruct (Z.div_eucl (Z.pos m * 2 ^ Z.pos s) (2 ^ 52)) as [q r]. cbn [fst snd] in Hq, Hr.
  subst q r. reflexivity.
Qed.

(** Division by one is exact. *)
Lemma div_one_finite (s : bool) (m : positive) (e : Z) :
  bounded 53 1024 m e = true ->
  Float64.div (S754_finite s m e) Float64.one = S754_finite s m e.
Proof.
  intros Hb. unfold bounded, canonical_mantissa in Hb.
  apply andb_true_iff in Hb. destruct Hb as [Hc He].
  apply Z.eqb_eq in Hc. apply Z.leb_le in He.
  change (Z.pos (digits2_pos m)) with (Zdigits2 (Z.pos m)) in Hc.
  change Float64.one with (S754_finite false 4503599627370496 (-52)).
  unfold Float64.div, SFdiv, Float64.prec, Float64.emax.
  change (Z.pos 4503599627370496) with (2 ^ 52).
  destruct (div_core_one m e Hc) as (e' & He' & ->).
  pose proof (pow2_pos (e - e') ltac:(lia)) as Hp.
  destruct (binary_round_aux_spec (xorb s false) (Z.pos m * 2 ^ (e - e')) e' loc_Exact
              ltac:(lia)) as (m1 & _ & Hexact & ->).
  cbv zeta in Hexact.
  assert (E1 : round_exp (Z.pos m * 2 ^ (e - e')) e' = e).
  { unfold round_exp. rewrite Zdigits2_shift by lia.
    replace (Zdigits2 (Z.pos m) + (e - e') + e') with (Zdigits2 (Z.pos m) + e) by lia.
    rewrite Hc. lia. }
  rewrite E1 in *.
  assert (E2 : m1 = Z.pos m).
  { rewrite Hexact; [apply Z.div_mul; lia|reflexivity|apply Z.mod_mul; lia]. }
  subst m1.
  assert (E3 : round_exp (Z.pos m) e = e) by (unfold round_exp; rewrite Hc; lia).
  rewrite E3, Z.sub_diag, Z.div_1_r. unfold round_result.
  rewrite xorb_false_r.
  destruct (e <=? 971) eqn:E; [reflexivity|]. apply Z.leb_gt in E. lia.
Qed.

End DivOne.

Lemma div_one (x : float) :
  valid_binary 53 1024 x = true -> Float64.div x Float64.one = x.
Proof.
  destruct x as [[]|[]| |s m e]; try reflexivity. cbn [valid_binary].
  apply div_one_finite.
Qed.

(** * The NDVI array, element by element *)

Lemma map_map2 {A B C D : Type} (f : C -> D) (g : A -> B -> C) (a : list A) (b : list B) :
  map f (np.map2 g a b) = np.map2 (fun x y => f (g x y)) a b.
Proof.
  revert b. induction a as [|x a IH]; intros [|y b]; simpl; try reflexivity.
  rewrite IH. reflexivity.
Qed.

Lemma map2_map2 {A B C D E : Type}
    (f : C -> D -> E) (g : A -> B -> C) (h : A -> B -> D) (a : list A) (b : list B) :
  np.map2 f (np.map2 g a b) (np.map2 h a b) = np.map2 (fun x y => f (g x y) (h x y)) a b.
Proof.
  revert b. induction a as [|x a IH]; intros [|y b]; simpl; try reflexivity.
  rewrite IH. reflexivity.
Qed.

Lemma map2_ext {A B C : Type} (f g : A -> B -> C) (a : list A) (b : list B) :
  (forall x y, f x y = g x y) -> np.map2 f a b = np.map2 g a b.
Proof.
  intros H. revert b. induction a as [|x a IH]; intros [|y b]; simpl; try reflexivity.
  rewrite H, IH. reflexivity.
Qed.

Lemma lift1_lift2 {A B C D : Type} (f : C -> D) (g : A -> B -> C)
    (a : array2 A) (b : array2 B) :
  np.lift1 f (np.lift2 g a b) = np.lift2 (fun x y => f (g x y)) a b.
Proof.
  unfold np.lift1, np.lift2. rewrite map_map2. apply map2_ext.
  intros ra rb. apply map_map2.
Qed.

Lemma lift2_lift2 {A B C D E : Type}
    (f : C -> D -> E) (g : A -> B -> C) (h : A -> B -> D) (a : array2 A) (b : array2 B) :
  np.lift2 f (np.lift2 g a b) (np.lift2 h a b) = np.lift2 (fun x y => f (g x y) (h x y)) a b.
Proof.
  unfold np.lift2. rewrite map2_map2. apply map2_ext.
  intros ra rb. apply map2_map2.
Qed.

(** The array expression of [calculate_ndvi] computes [ndvi_at] at
    every pixel. *)
Lemma ndvi_array_elementwise (d : dtype) (nir red : array2 (elem d)) :
  ndvi_array d nir red = np.lift2 (ndvi_at d) nir red.
Proof.
  unfold ndvi_array, np.clip, np.where_, np.not_equal, np.true_divide, np.subtract, np.add.
  rewrite lift1_lift2, lift2_lift2, lift1_lift2, lift2_lift2. reflexivity.
Qed.

Lemma Forall2d_lift2_from {A B C : Type}
    (P : A -> Prop) (Q : B -> Prop) (R : C -> Prop) (f : A -> B -> C)
    (a : array2 A) (b : array2 B) :
  (forall x y, P x -> Q y -> R (f x y)) ->
  Forall (Forall P) a -> Forall (Forall Q) b ->
  Forall (Forall R) (np.lift2 f a b).
Proof.
  intros Hf Ha. unfold np.lift2. revert b.
  induction Ha as [|ra a Hra _ IH]; intros b Hb; [constructor|].
  destruct Hb as [|rb b Hrb Hb]; simpl; constructor; [|apply IH; exact Hb].
  clear IH Hb. revert rb Hrb.
  induction Hra as [|x ra Hx _ IHr]; intros rb Hrb; [constructor|].
  destruct Hrb as [|y rb Hy Hrb]; simpl; constructor; [apply Hf; assumption|].
  apply IHr. exact Hrb.
Qed.

(** ** When the quotient is a number *)

Section Finite.

Local Open Scope Z_scope.

Lemma wrap_bound (k : int_dtype) (z : Z) : Z.abs (wrap k z) <= 2 ^ 64.
Proof.
  unfold wrap.
  assert (Hb : 1 <= bits k <= 64) by (destruct k; simpl; lia).
  assert (H1 : 0 < 2 ^ bits k) by (apply pow2_pos; lia).
  assert (H2 : 2 ^ bits k <= 2 ^ 64) by (apply Z.pow_le_mono_r; lia).
  assert (H3 : 0 < 2 ^ (bits k - 1) <= 2 ^ bits k)
    by (split; [apply pow2_pos; lia|apply Z.pow_le_mono_r; lia]).
  pose proof (Z.mod_pos_bound z (2 ^ bits k) H1).
  pose proof (Z.mod_pos_bound (z + 2 ^ (bits k - 1)) (2 ^ bits k) H1).
  destruct (signed k); lia.
Qed.

Lemma of_Z_not_nan (z : Z) : Float64.is_nan (Float64.of_Z z) = false.
Proof. apply binary_normalize_not_nan. Qed.

Lemma of_Z_not_inf (z : Z) :
  Z.abs z <= 2 ^ 64 -> Float64.is_inf (Float64.of_Z z) = false.
Proof.
  intros Hz. apply binary_normalize_no_overflow. split; [lia|].
  eapply Z.le_trans; [exact Hz|]. vm_compute. discriminate.
Qed.

Lemma of_Z_not_zero (z : Z) : z <> 0 -> Float64.is_zero (Float64.of_Z z) = false.
Proof.
  intros Hz. apply binary_normalize_not_zero; [exact Hz|].
  pose proof (Zdigits2_nonneg z). lia.
Qed.

End Finite.

Lemma finite_number_is_finite (x : float) :
  finite_number x = true -> Float64.is_finite x = true.
Proof. unfold finite_number. rewrite andb_true_iff. tauto. Qed.

Lemma eqb_zero_false (x : float) :
  Float64.eqb x Float64.zero = false -> Float64.is_zero x = false.
Proof. destruct x as [[]|[]| |[] m e]; simpl; try reflexivity; discriminate. Qed.

Lemma ndvi_at_in_unit_range (d : dtype) (nir red : elem d) :
  finite_elem d nir -> finite_elem d red ->
  in_unit_range (ndvi_at d nir red) = true.
Proof.
  intros Hn Hr. unfold ndvi_at. apply clip1_range.
  destruct (np.not_equal1 d 0 (np.add1 d nir red)) eqn:Ene; [|reflexivity].
  destruct d as [k|]; cbn [np.not_equal1 np.add1 np.subtract1 np.true_divide1] in *.
  - rewrite wrap_zero in Ene. apply negb_true_iff, Z.eqb_neq in Ene.
    apply div_not_nan.
    + apply of_Z_not_nan.
    + apply of_Z_not_nan.
    + rewrite (of_Z_not_inf _ (wrap_bound k (nir + red))). apply andb_false_r.
    + rewrite (of_Z_not_zero _ Ene). apply andb_false_r.
  - cbn [finite_elem] in Hn, Hr.
    apply negb_true_iff, eqb_zero_false in Ene.
    apply div_not_nan.
    + apply sub_not_nan; apply finite_number_is_finite; assumption.
    + apply add_not_nan; apply finite_number_is_finite; assumption.
    + rewrite andb_comm. apply add_sub_not_both_inf; assumption.
    + rewrite Ene. apply andb_false_r.
Qed.

Lemma ndvi_at_nan_or_range (d : dtype) (nir red : elem d) :
  Float64.is_nan (ndvi_at d nir red) = true \/ in_unit_range (ndvi_at d nir red) = true.
Proof. unfold ndvi_at. apply clip1_nan_or_range. Qed.

(** C3, as the claim has it, fails on a float64 stack: where red and
    near-infrared are both infinite the sum and the difference give
    inf / inf or NaN, where one of them is NaN the quotient is NaN,
    and [np.clip] passes NaN through. *)
Lemma ndvi_range_fails_on_float_bands :
  let inf := S754_infinity false in
  calculate_ndvi
    (single_file "scene.tif" (dataset (one_pixel Float64 Float64.zero inf inf))) "scene.tif"
    = Ok [[Float64.nan]] /\
  calculate_ndvi
    (single_file "scene.tif"
       (dataset (one_pixel Float64 Float64.zero Float64.nan (Float64.of_Z 300)))) "scene.tif"
    = Ok [[Float64.nan]] /\
  in_unit_range Float64.nan = false.
Proof. repeat split; reflexivity. Qed.

(** C3, amended. Every element of the NDVI array is NaN or lies in
    [-1, 1]; it lies in [-1, 1] at every pixel whose red and
    near-infrared values are finite numbers, and so everywhere on an
    integer stack. *)
Theorem ndvi_range
    (fs : filesystem) (path_tiff : String.string) (src : DatasetReader) :
  fs path_tiff = Some src ->
  4 <= band_count (read src) ->
  exists ndvi : array2 float,
    calculate_ndvi fs path_tiff = Ok ndvi /\
    Forall (Forall (fun v => Float64.is_nan v = true \/ in_unit_range v = true)) ndvi /\
    (forall i j red nir,
       pixel (band (read src) 2) i j = Some red ->
       pixel (band (read src) 3) i j = Some nir ->
       finite_elem _ red -> finite_elem _ nir ->
       exists v, pixel ndvi i j = Some v /\ in_unit_range v = true) /\
    (Forall (Forall (finite_elem _)) (band (read src) 2) ->
     Forall (Forall (finite_elem _)) (band (read src) 3) ->
     Forall (Forall (fun v => in_unit_range v = true)) ndvi) /\
    match stack_dtype (read src) with
    | Int _ => Forall (Forall (fun v => in_unit_range v = true)) ndvi
    | Float64 => True
    end.
Proof.
  intros Hsrc Hcount.
  exists (ndvi_array (stack_dtype (read src)) (band (read src) 3) (band (read src) 2)).
  rewrite (calculate_ndvi_reads fs path_tiff src Hsrc).
  split; [apply ndvi_of_four_bands; exact Hcount|].
  rewrite ndvi_array_elementwise.
  generalize (band (read src) 2) (band (read src) 3). intros red_band nir_band.
  split; [|split; [|split]].
  - apply Forall2d_lift2. intros n r. apply ndvi_at_nan_or_range.
  - intros i j red nir Hred Hnir Fred Fnir.
    exists (ndvi_at _ nir red). rewrite pixel_lift2, Hnir, Hred.
    split; [reflexivity|]. apply ndvi_at_in_unit_range; assumption.
  - intros Fred Fnir.
    apply Forall2d_lift2_from with (P := finite_elem _) (Q := finite_elem _);
      [|exact Fnir|exact Fred].
    intros n r. apply ndvi_at_in_unit_range.
  - destruct (stack_dtype (read src)); [|exact I].
    apply Forall2d_lift2. intros n r. apply ndvi_at_in_unit_range; exact I.
Qed.

Lemma ndvi_range_witness :
  let src := dataset (one_pixel (Int int16) 0 (-5) 3)%Z in
  calculate_ndvi (single_file "scene.tif" src) "scene.tif" = Ok [[Float64.of_Z (-1)]] /\
  exists ndvi : array2 float,
    calculate_ndvi (single_file "scene.tif" src) "scene.tif" = Ok ndvi /\
    Forall (Forall (fun v => in_unit_range v = true)) ndvi.
Proof.
  intros src. split; [vm_compute; reflexivity|].
  destruct (ndvi_range (single_file "scene.tif" src) "scene.tif" src)
    as (ndvi & Hok & _ & _ & _ & Hint); [reflexivity|apply Nat.leb_le; reflexivity|].
  exists ndvi. split; [exact Hok|exact Hint].
Defined.

(** * Statistics *)

Lemma same_number_refl (x : float) : same_number x x.
Proof. left. reflexivity. Qed.

Lemma same_number_sym (x y : float) : same_number x y -> same_number y x.
Proof. intros [->|[H1 H2]]; [left; reflexivity|right; split; assumption]. Qed.

Lemma same_number_trans (x y z : float) :
  same_number x y -> same_number y z -> same_number x z.
Proof.
  intros [->|[H1 H2]] [->|[H3 H4]]; try (left; reflexivity);
    right; split; assumption.
Qed.

Ltac zero_cases :=
  repeat match goal with
    | H : Float64.is_zero ?x = true |- _ =>
        destruct x; try discriminate H; clear H
    end.

Lemma add_same_l (a a' x : float) :
  same_number a a' -> same_number (Float64.add a x) (Float64.add a' x).
Proof.
  intros [->|[H1 H2]]; [left; reflexivity|]. zero_cases.
  destruct x as [sx|sx| |sx mx ex]; try (left; reflexivity).
  right. destruct s, s0, sx; split; reflexivity.
Qed.

Lemma add_zero_r (a : float) : same_number (Float64.add a Float64.zero) a.
Proof.
  destruct a as [[]|[]| |s m e]; try (left; reflexivity).
  right. split; reflexivity.
Qed.

Lemma add_minus_zero_l (x : float) : Float64.add (S754_zero true) x = x.
Proof. destruct x as [[]|[]| |s m e]; reflexivity. Qed.

Lemma div_same_l (t t' c : float) :
  same_number t t' -> same_number (Float64.div t c) (Float64.div t' c).
Proof.
  intros [->|[H1 H2]]; [left; reflexivity|]. zero_cases.
  destruct c as [sc|sc| |sc mc ec]; try (left; reflexivity);
    right; split; reflexivity.
Qed.

Lemma sqrt_same (x x' : float) :
  same_number x x' -> same_number (Float64.sqrt x) (Float64.sqrt x').
Proof.
  intros [->|[H1 H2]]; [left; reflexivity|]. zero_cases.
  right. split; reflexivity.
Qed.

Lemma squared_deviation_same (x mu mu' : float) :
  same_number mu mu' ->
  Float64.mul (Float64.sub x mu) (Float64.sub x mu) =
  Float64.mul (Float64.sub x mu') (Float64.sub x mu').
Proof.
  intros [->|[H1 H2]]; [reflexivity|]. zero_cases.
  destruct x as [sx|sx| |sx mx ex]; try reflexivity.
  destruct s, s0, sx; reflexivity.
Qed.

(** ** The pairwise summation *)

(** The recursion always has depth enough. *)
Lemma pairwise_sum_rec_depth {A : Type} (add : A -> A -> A) (zero : A)
    (d1 d2 : nat) (a : list A) :
  length a <= d1 -> length a <= d2 ->
  np.pairwise_sum_rec add zero d1 a = np.pairwise_sum_rec add zero d2 a.
Proof.
  revert d2 a. induction d1 as [|d1 IH]; intros d2 a H1 H2.
  - destruct a; [|simpl in H1; lia]. destruct d2; reflexivity.
  - destruct d2 as [|d2].
    + destruct a; [|simpl in H2; lia]. reflexivity.
    + cbn [np.pairwise_sum_rec].
      destruct (length a <? 8) eqn:E8; [reflexivity|].
      destruct (length a <=? 128) eqn:E128; [reflexivity|].
      apply Nat.ltb_ge in E8. apply Nat.leb_gt in E128.
      set (n2 := length a / 2 - (length a / 2) mod 8).
      assert (Hn2 : 0 < n2 < length a).
      { subst n2. pose proof (Nat.mod_upper_bound (length a / 2) 8 ltac:(lia)).
        pose proof (Nat.Div0.div_lt_upper_bound (length a) 2 (length a) ltac:(lia)).
        assert (64 <= length a / 2) by (apply Nat.div_le_lower_bound; lia).
        lia. }
      f_equal; apply IH; rewrite ?length_firstn, ?length_skipn; lia.
Qed.

(** The summation as the C function reads: short, unrolled, or the
    sum of the sums of the two parts. *)
Lemma pairwise_sum_unfold {A : Type} (add : A -> A -> A) (zero : A) (a : list A) :
  np.pairwise_sum add zero a =
  let n := length a in
  if n <? 8 then fold_left add a zero
  else if n <=? 128 then np.unrolled_sum add zero a
  else
    let n2 := n / 2 in
    let n2 := n2 - n2 mod 8 in
    add (np.pairwise_sum add zero (firstn n2 a)) (np.pairwise_sum add zero (skipn n2 a)).
Proof.
  unfold np.pairwise_sum at 1. cbv zeta.
  destruct (length a) as [|n] eqn:En; [destruct a; [reflexivity|discriminate]|].
  cbn [np.pairwise_sum_rec]. rewrite En.
  destruct (S n <? 8) eqn:E8; [reflexivity|].
  destruct (S n <=? 128) eqn:E128; [reflexivity|].
  apply Nat.ltb_ge in E8. apply Nat.leb_gt in E128.
  set (n2 := S n / 2 - (S n / 2) mod 8).
  assert (Hn2 : 0 < n2 < S n).
  { subst n2. pose proof (Nat.mod_upper_bound (S n / 2) 8 ltac:(lia)).
    pose proof (Nat.Div0.div_lt_upper_bound (S n) 2 (S n) ltac:(lia)).
    assert (64 <= S n / 2) by (apply Nat.div_le_lower_bound; lia).
    lia. }
  unfold np.pairwise_sum.
  f_equal; apply pairwise_sum_rec_depth; rewrite ?length_firstn, ?length_skipn; lia.
Qed.

(** *** Two summations side by side

    What is related between the terms of two arrays, and kept by the
    two additions, is related between their pairwise sums. *)
Section Related.

Context {A B : Type}.
Variable addA : A -> A -> A.
Variable addB : B -> B -> B.
Variable zeroA : A.
Variable zeroB : B.
Variable R : A -> B -> Prop.
Hypothesis R_zero : R zeroA zeroB.
Hypothesis R_add : forall x y x' y', R x x' -> R y y' -> R (addA x y) (addB x' y').

Lemma fold_left_related (a : list A) (b : list B) (s : A) (t : B) :
  Forall2 R a b -> R s t -> R (fold_left addA a s) (fold_left addB b t).
Proof.
  intros H. revert s t. induction H as [|x y a b Hxy _ IH]; intros s t Hst; [exact Hst|].
  cbn [fold_left]. apply IH, R_add; assumption.
Qed.

Lemma nth_related (a : list A) (b : list B) (i : nat) :
  Forall2 R a b -> R (nth i a zeroA) (nth i b zeroB).
Proof.
  intros H. revert i. induction H as [|x y a b Hxy _ IH]; intros [|i]; cbn [nth]; auto.
Qed.

Lemma firstn_related (a : list A) (b : list B) (n : nat) :
  Forall2 R a b -> Forall2 R (firstn n a) (firstn n b).
Proof.
  intros H. revert n. induction H as [|x y a b Hxy _ IH]; intros [|n]; cbn [firstn];
    constructor; auto.
Qed.

Lemma skipn_related (a : list A) (b : list B) (n : nat) :
  Forall2 R a b -> Forall2 R (skipn n a) (skipn n b).
Proof.
  intros H. revert n. induction H as [|x y a b Hxy Hab IH]; intros [|n]; cbn [skipn];
    try constructor; auto.
Qed.

Lemma accumulator_related (a : list A) (b : list B) (j : nat) :
  Forall2 R a b -> R (np.accumulator addA zeroA a j) (np.accumulator addB zeroB b j).
Proof.
  intros H. unfold np.accumulator. rewrite (Forall2_length H).
  apply fold_left_related; [|apply nth_related; exact H].
  induction (seq 1 (length b / 8 - 1)) as [|i l IH]; cbn [map]; constructor;
    [apply nth_related; exact H|exact IH].
Qed.

Lemma unrolled_sum_related (a : list A) (b : list B) :
  Forall2 R a b -> R (np.unrolled_sum addA zeroA a) (np.unrolled_sum addB zeroB b).
Proof.
  intros H. unfold np.unrolled_sum. cbv zeta. rewrite (Forall2_length H).
  apply fold_left_related; [apply skipn_related; exact H|].
  repeat apply R_add; apply accumulator_related; exact H.
Qed.

Lemma pairwise_sum_rec_related (depth : nat) (a : list A) (b : list B) :
  Forall2 R a b ->
  R (np.pairwise_sum_rec addA zeroA depth a) (np.pairwise_sum_rec addB zeroB depth b).
Proof.
  revert a b. induction depth as [|depth IH]; intros a b H;
    cbn [np.pairwise_sum_rec]; rewrite (Forall2_length H);
    destruct (length b <? 8);
    try (apply fold_left_related; [exact H|exact R_zero]);
    destruct (length b <=? 128);
    try (apply unrolled_sum_related; exact H).
  apply R_add; apply IH; [apply firstn_related|apply skipn_related]; exact H.
Qed.

Lemma pairwise_sum_related (a : list A) (b : list B) :
  Forall2 R a b ->
  R (np.pairwise_sum addA zeroA a) (np.pairwise_sum addB zeroB b).
Proof.
  intros H. unfold np.pairwise_sum. rewrite (Forall2_length H).
  apply pairwise_sum_rec_related. exact H.
Qed.

End Related.

(** *** The summation takes every term once

    Run on lists of terms, with concatenation for the addition, the
    summation returns the terms it was given, in another order. *)
Section Terms.

Context {X : Type}.

Lemma fold_left_app_concat (l : list (list X)) (acc : list X) :
  fold_left (@app X) l acc = acc ++ concat l.
Proof.
  revert acc. induction l as [|x l IH]; intros acc; cbn [fold_left concat].
  - rewrite app_nil_r. reflexivity.
  - rewrite IH, app_assoc. reflexivity.
Qed.

Lemma interchange (a b c d : list X) :
  Permutation ((a ++ b) ++ (c ++ d)) ((a ++ c) ++ (b ++ d)).
Proof.
  rewrite <- !app_assoc. apply Permutation_app_head.
  rewrite !app_assoc. apply Permutation_app_tail. apply Permutation_app_comm.
Qed.

Lemma tree8_app (r x : nat -> list X) :
  Permutation (tree8 (fun j => r j ++ x j)) (tree8 r ++ tree8 x).
Proof.
  unfold tree8.
  etransitivity.
  { apply Permutation_app; apply Permutation_app; apply interchange. }
  etransitivity.
  { apply Permutation_app; apply interchange. }
  apply interchange.
Qed.

Lemma skipn_nth (l : list (list X)) (i : nat) :
  i < length l -> skipn i l = nth i l [] :: skipn (S i) l.
Proof.
  revert i. induction l as [|x l IH]; intros i Hi; [simpl in Hi; lia|].
  destruct i as [|i]; [reflexivity|].
  cbn [skipn nth]. rewrite (IH i) by (simpl in Hi; lia). reflexivity.
Qed.

Lemma lane_S (b : list (list X)) (k j : nat) :
  lane b (S k) j = lane b k j ++ nth (8 * k + j) b [].
Proof.
  unfold lane. rewrite seq_S, map_app, concat_app. cbn [map concat plus].
  rewrite app_nil_r. reflexivity.
Qed.

Lemma lanes_blocks (b : list (list X)) (k : nat) :
  8 * k <= length b ->
  Permutation (tree8 (lane b k)) (concat (firstn (8 * k) b)).
Proof.
  induction k as [|k IH]; intros Hk; [reflexivity|].
  transitivity (tree8 (lane b k) ++ tree8 (fun j => nth (8 * k + j) b [])).
  { rewrite <- tree8_app. unfold tree8. rewrite !lane_S. reflexivity. }
  rewrite IH by lia.
  replace (8 * S k) with (8 * k + 8) by lia.
  rewrite <- (firstn_skipn (8 * k) (firstn (8 * k + 8) b)) at 1.
  rewrite firstn_firstn, Nat.min_l by lia.
  rewrite concat_app. apply Permutation_app_head.
  rewrite skipn_firstn_comm. replace (8 * k + 8 - 8 * k) with 8 by lia.
  rewrite (skipn_nth b (8 * k)) by lia.
  rewrite (skipn_nth b (S (8 * k))) by lia.
  rewrite (skipn_nth b (S (S (8 * k)))) by lia.
  rewrite (skipn_nth b (S (S (S (8 * k))))) by lia.
  rewrite (skipn_nth b (S (S (S (S (8 * k)))))) by lia.
  rewrite (skipn_nth b (S (S (S (S (S (8 * k))))))) by lia.
  rewrite (skipn_nth b (S (S (S (S (S (S (8 * k)))))))) by lia.
  rewrite (skipn_nth b (S (S (S (S (S (S (S (8 * k))))))))) by lia.
  cbn [firstn concat]. unfold tree8.
  replace (8 * k + 0) with (8 * k) by lia.
  replace (8 * k + 1) with (S (8 * k)) by lia.
  replace (8 * k + 2) with (S (S (8 * k))) by lia.
  replace (8 * k + 3) with (S (S (S (8 * k)))) by lia.
  replace (8 * k + 4) with (S (S (S (S (8 * k))))) by lia.
  replace (8 * k + 5) with (S (S (S (S (S (8 * k)))))) by lia.
  replace (8 * k + 6) with (S (S (S (S (S (S (8 * k))))))) by lia.
  replace (8 * k + 7) with (S (S (S (S (S (S (S (8 * k)))))))) by lia.
  rewrite app_nil_r, <- !app_assoc. reflexivity.
Qed.

Lemma accumulator_lane (b : list (list X)) (j : nat) :
  8 <= length b ->
  np.accumulator (@app X) [] b j = lane b (length b / 8) j.
Proof.
  intros H. unfold np.accumulator, lane.
  rewrite fold_left_app_concat.
  assert (Hk : 1 <= length b / 8) by (apply Nat.div_le_lower_bound; lia).
  destruct (length b / 8) as [|k]; [lia|].
  replace (S k - 1) with k by lia.
  rewrite <- cons_seq. cbn [map concat]. replace (8 * 0 + j) with j by lia. reflexivity.
Qed.

Lemma unrolled_sum_terms (b : list (list X)) :
  8 <= length b -> Permutation (np.unrolled_sum (@app X) [] b) (concat b).
Proof.
  intros H. unfold np.unrolled_sum. cbv zeta.
  rewrite fold_left_app_concat, !accumulator_lane by exact H.
  fold (tree8 (lane b (length b / 8))).
  rewrite lanes_blocks by (apply Nat.Div0.mul_div_le).
  rewrite <- concat_app, firstn_skipn. reflexivity.
Qed.

Lemma pairwise_sum_rec_terms (depth : nat) (b : list (list X)) :
  Permutation (np.pairwise_sum_rec (@app X) [] depth b) (concat b).
Proof.
  revert b. induction depth as [|depth IH]; intros b; cbn [np.pairwise_sum_rec];
    destruct (length b <? 8) eqn:E8;
    try (rewrite fold_left_app_concat; reflexivity);
    apply Nat.ltb_ge in E8;
    destruct (length b <=? 128);
    try (apply unrolled_sum_terms; exact E8).
  rewrite !IH, <- concat_app, firstn_skipn. reflexivity.
Qed.

Lemma pairwise_sum_terms (b : list (list X)) :
  Permutation (np.pairwise_sum (@app X) [] b) (concat b).
Proof. apply pairwise_sum_rec_terms. Qed.

End Terms.

(** ** What [np.sum] adds *)

(** [np.sum] of an array whose elements are sums is a sum of all
    their terms. *)
Lemma sum_terms (a : list float) (terms : list (list float)) :
  Forall2 Spec.is_sum a terms -> Spec.is_sum (np.sum a) (concat terms).
Proof.
  intros H. unfold np.sum.
  change (concat terms) with ([] ++ concat terms).
  apply Spec.sum_of_two; [apply Spec.sum_of_none|].
  apply (Spec.sum_in_other_order _ (np.pairwise_sum (@app float) [] terms));
    [apply pairwise_sum_terms|].
  apply (pairwise_sum_related Float64.add (@app float) Float64.zero [] Spec.is_sum).
  - apply Spec.sum_of_none.
  - intros x y xs ys Hx Hy. apply Spec.sum_of_two; assumption.
  - exact H.
Qed.

Lemma concat_singletons {A : Type} (l : list A) : concat (map (fun x => [x]) l) = l.
Proof. induction l as [|x l IH]; [reflexivity|]. cbn [map concat app]. rewrite IH. reflexivity. Qed.

Lemma sum_is_sum (a : list float) : Spec.is_sum (np.sum a) a.
Proof.
  rewrite <- (concat_singletons a) at 2. apply sum_terms.
  induction a as [|x a IH]; cbn [map]; constructor; [apply Spec.sum_of_one|exact IH].
Qed.

(** With [0] where the entry is NaN and [g x] elsewhere, [np.sum]
    adds [g] of the entries that are not NaN. *)
Lemma sum_skips_nan (g : float -> float) (l : list float) :
  Spec.is_sum
    (np.sum (map (fun x => if Float64.is_nan x then Float64.zero else g x) l))
    (map g (filter not_nan l)).
Proof.
  replace (map g (filter not_nan l))
    with (concat (map (fun x => if Float64.is_nan x then [] else [g x]) l)).
  - apply sum_terms.
    induction l as [|x l IH]; cbn [map]; constructor; [|exact IH].
    destruct (Float64.is_nan x); [apply Spec.sum_of_none|apply Spec.sum_of_one].
  - induction l as [|x l IH]; [reflexivity|].
    cbn [map concat filter]. unfold not_nan at 1.
    destruct (Float64.is_nan x); cbn [negb map app]; rewrite IH; reflexivity.
Qed.

(** A sum of no terms is zero. *)
Lemma is_sum_nil (s : float) : Spec.is_sum s [] -> s = Float64.zero.
Proof.
  intros H. remember [] as xs eqn:E.
  induction H as [|x|s t xs ys Hs IHs Ht IHt|s xs ys Hp Hs IH].
  - reflexivity.
  - discriminate.
  - apply app_eq_nil in E. destruct E as [-> ->].
    rewrite IHs, IHt by reflexivity. reflexivity.
  - subst ys. apply Permutation_sym, Permutation_nil in Hp. apply IH. exact Hp.
Qed.

(** ** Sums on a grid *)

Lemma exact_sum_app (ms1 ms2 : list Z) :
  exact_sum (ms1 ++ ms2) = (exact_sum ms1 + exact_sum ms2)%Z.
Proof.
  induction ms1 as [|m ms1 IH]; [reflexivity|].
  cbn [app exact_sum fold_right] in *. fold (exact_sum (ms1 ++ ms2)). fold (exact_sum ms1).
  rewrite IH. lia.
Qed.

Lemma exact_sum_perm (ms ms' : list Z) :
  Permutation ms ms' -> exact_sum ms = exact_sum ms'.
Proof.
  induction 1 as [|m ms ms' _ IH|m m' ms|ms1 ms2 ms3 _ IH1 _ IH2];
    cbn [exact_sum fold_right] in *; try fold (exact_sum ms); try fold (exact_sum ms');
    lia.
Qed.

Lemma abs_exact_sum (ms : list Z) :
  (Z.abs (exact_sum ms) <= exact_sum (map Z.abs ms))%Z.
Proof.
  induction ms as [|m ms IH]; [reflexivity|].
  cbn [map exact_sum fold_right] in *. fold (exact_sum ms). fold (exact_sum (map Z.abs ms)).
  lia.
Qed.

Lemma on_grid_Forall2 (k : Z) (ms : list Z) :
  Forall2 (fun x m => x = Float64.dyadic m k) (on_grid k ms) ms.
Proof. induction ms as [|m ms IH]; constructor; [reflexivity|exact IH]. Qed.

(** On a grid every order of the additions gives the same sum: the
    exact one. *)
Lemma is_sum_on_grid (k : Z) (s : float) (xs : list float) :
  (-1074 <= k <= 971)%Z ->
  Spec.is_sum s xs ->
  forall ms : list Z,
    Forall2 (fun x m => x = Float64.dyadic m k) xs ms ->
    (exact_sum (map Z.abs ms) < 2 ^ 53)%Z ->
    s = Float64.dyadic (exact_sum ms) k.
Proof.
  intros Hk H. induction H as [|x|s t xs ys Hs IHs Ht IHt|s xs ys Hp Hs IH]; intros ms HF Hb.
  - inversion HF; subst. reflexivity.
  - inversion HF as [|? m ? ms' Hx HF']; subst. inversion HF'; subst.
    cbn [exact_sum fold_right]. rewrite Z.add_0_r. reflexivity.
  - apply Forall2_app_inv_l in HF. destruct HF as (ms1 & ms2 & H1 & H2 & ->).
    rewrite map_app, exact_sum_app in Hb. rewrite exact_sum_app.
    pose proof (abs_exact_sum ms1). pose proof (abs_exact_sum ms2).
    pose proof (abs_exact_sum (map Z.abs ms1)) as N1.
    pose proof (abs_exact_sum (map Z.abs ms2)) as N2.
    rewrite map_map in N1, N2.
    rewrite (map_ext (fun m => Z.abs (Z.abs m)) Z.abs) in N1, N2 by (intros; apply Z.abs_idemp).
    rewrite (IHs ms1 H1) by lia. rewrite (IHt ms2 H2) by lia.
    apply grid_add; lia.
  - destruct (Permutation_Forall2 (Permutation_sym Hp) HF) as (ms' & Hp' & HF').
    rewrite (exact_sum_perm ms ms' Hp').
    apply IH; [exact HF'|].
    rewrite <- (exact_sum_perm (map Z.abs ms) (map Z.abs ms')); [exact Hb|].
    apply Permutation_map. exact Hp'.
Qed.

(** And so every mean of numbers on a grid is the exact sum divided
    by the count, rounded once. *)
Lemma is_mean_on_grid (k : Z) (ms : list Z) (m : float) :
  (-1074 <= k <= 971)%Z ->
  (exact_sum (map Z.abs ms) < 2 ^ 53)%Z ->
  Spec.is_mean m (on_grid k ms) ->
  m = Float64.div (Float64.dyadic (exact_sum ms) k) (Float64.of_Z (Z.of_nat (length ms))).
Proof.
  intros Hk Hb (s & Hs & ->).
  rewrite (is_sum_on_grid k s (on_grid k ms) Hk Hs ms (on_grid_Forall2 k ms) Hb).
  unfold on_grid. rewrite length_map. reflexivity.
Qed.

(** ** Short sums *)

Lemma add_zero_l (a : float) : same_number (Float64.add Float64.zero a) a.
Proof.
  destruct a as [[]|[]| |s m e]; try (left; reflexivity).
  right. split; reflexivity.
Qed.

Lemma add_same_r (a x x' : float) :
  same_number x x' -> same_number (Float64.add a x) (Float64.add a x').
Proof.
  intros [->|[H1 H2]]; [left; reflexivity|]. zero_cases.
  destruct a as [sa|sa| |sa ma ea]; try (left; reflexivity).
  right. destruct s, s0, sa; split; reflexivity.
Qed.

Lemma add_same (a a' x x' : float) :
  same_number a a' -> same_number x x' ->
  same_number (Float64.add a x) (Float64.add a' x').
Proof.
  intros Ha Hx. eapply same_number_trans; [apply add_same_l; exact Ha|].
  apply add_same_r. exact Hx.
Qed.

Lemma add_zero_same (x x' : float) :
  same_number x x' -> Float64.add Float64.zero x = Float64.add Float64.zero x'.
Proof.
  intros [->|[H1 H2]]; [reflexivity|]. zero_cases. destruct s, s0; reflexivity.
Qed.

(** Fewer than 8 terms are added in index order. *)
Lemma sum_short (a : list float) :
  length a < 8 -> np.sum a = Float64.add Float64.zero (Spec.total a).
Proof.
  intros H. unfold np.sum. rewrite pairwise_sum_unfold. cbv zeta.
  apply Nat.ltb_lt in H. rewrite H. reflexivity.
Qed.

(** Eight terms are not: of 1 and seven times 2^-53, added in index
    order, every addition is rounded back to 1; NumPy adds the terms
    two by two, then the sums, and 1 + 3 * 2^-52 comes out. *)
Lemma sum_of_eight :
  let u := Float64.dyadic 1 (-53) in
  let a := [Float64.of_Z 1; u; u; u; u; u; u; u] in
  Spec.total a = Float64.of_Z 1 /\
  np.sum a = Float64.dyadic (2 ^ 52 + 3) (-52).
Proof. split; vm_compute; reflexivity. Qed.

(** The zero the short loop starts from does not show in the sum. *)
Lemma sum_from_minus_zero (a : list float) :
  Float64.add Float64.zero (np.pairwise_sum Float64.add (S754_zero true) a) = np.sum a.
Proof.
  unfold np.sum. apply add_zero_same.
  apply (pairwise_sum_related Float64.add Float64.add (S754_zero true) Float64.zero
           same_number).
  - right. split; reflexivity.
  - intros x y x' y'. apply add_same.
  - induction a as [|x a IH]; constructor; [apply same_number_refl|exact IH].
Qed.

(** Adding [0] where the entry is NaN and [g x] elsewhere gives the
    sum of [g] over the entries that are not NaN. *)
Lemma fold_sum_skip_nan (g : float -> float) (l : list float) (acc acc' : float) :
  same_number acc acc' ->
  same_number
    (fold_sum (map (fun x => if Float64.is_nan x then Float64.zero else g x) l) acc)
    (fold_sum (map g (filter not_nan l)) acc').
Proof.
  revert acc acc'. induction l as [|x l IH]; intros acc acc' Hacc; [exact Hacc|].
  cbn [map filter]. unfold not_nan at 1.
  destruct (Float64.is_nan x); cbn [negb map fold_sum fold_left].
  - apply IH. eapply same_number_trans; [apply add_zero_r|exact Hacc].
  - apply IH. apply add_same_l. exact Hacc.
Qed.

Lemma sum_skip_nan (g : float -> float) (l : list float) :
  length l < 8 ->
  same_number
    (np.sum (map (fun x => if Float64.is_nan x then Float64.zero else g x) l))
    (Spec.total (map g (filter not_nan l))).
Proof.
  intros H. rewrite sum_short by (rewrite length_map; exact H).
  eapply same_number_trans; [apply add_zero_l|].
  apply (fold_sum_skip_nan g l Float64.zero Float64.zero). apply same_number_refl.
Qed.

Lemma count_not_nan_numbers (a : array2 float) :
  np.count_not_nan (np.flatten a) = length (numbers a).
Proof. reflexivity. Qed.

(** ** The mean *)

(** [np.nanmean] is a mean of the entries that are not NaN. *)
Lemma nanmean_is_mean (a : array2 float) : Spec.is_mean (np.nanmean a) (numbers a).
Proof.
  unfold np.nanmean, np.divide_by_count, np.replace_nan.
  rewrite count_not_nan_numbers.
  exists (np.sum (map (fun x => if Float64.is_nan x then Float64.zero else x) (np.flatten a))).
  split; [|reflexivity].
  pose proof (sum_skips_nan (fun x => x) (np.flatten a)) as H.
  rewrite map_id in H. exact H.
Qed.

(** Of fewer than 8 entries it is the mean added in index order. *)
Lemma nanmean_is_mean_of_numbers (a : array2 float) :
  length (np.flatten a) < 8 ->
  same_number (np.nanmean a) (Spec.arithmetic_mean (numbers a)).
Proof.
  intros Hlen.
  unfold np.nanmean, Spec.arithmetic_mean, np.divide_by_count, np.replace_nan.
  rewrite count_not_nan_numbers. apply div_same_l.
  pose proof (sum_skip_nan (fun x => x) (np.flatten a) Hlen) as H.
  rewrite map_id in H. exact H.
Qed.

Lemma mean_is_mean (l : list float) : Spec.is_mean (np.mean l) l.
Proof. exists (np.sum l). split; [apply sum_is_sum|reflexivity]. Qed.

Lemma is_mean_nil (m : float) : Spec.is_mean m [] -> m = Float64.nan.
Proof. intros (s & Hs & ->). rewrite (is_sum_nil s Hs). reflexivity. Qed.

(** ** The standard deviation *)

Lemma masked_squares (avg : float) (l : list float) :
  map (fun x => Float64.mul x x)
    (np.map2 (fun (m : bool) x => if m then Float64.zero else x) (np.isnan l)
       (map (fun x => Float64.sub x avg) (np.replace_nan l)))
  = map (fun x => if Float64.is_nan x then Float64.zero
                  else Float64.mul (Float64.sub x avg) (Float64.sub x avg)) l.
Proof.
  unfold np.isnan, np.replace_nan.
  induction l as [|x l IH]; [reflexivity|]. cbn [map np.map2]. rewrite IH.
  destruct (Float64.is_nan x); reflexivity.
Qed.

(** [np.nanstd] is a population standard deviation of the entries
    that are not NaN: the sum of their squared deviations from their
    mean is divided by their number. *)
Lemma nanstd_is_std (a : array2 float) :
  Spec.is_population_std (np.nanstd a) (numbers a).
Proof.
  exists (np.nanmean a).
  unfold np.nanstd, np.nanvar, np.divide_by_count.
  rewrite count_not_nan_numbers.
  fold (np.divide_by_count (np.sum (np.replace_nan (np.flatten a))) (length (numbers a))).
  rewrite masked_squares. eexists.
  split; [apply nanmean_is_mean|]. split; [|reflexivity].
  apply (sum_skips_nan (Spec.squared_deviation _)).
Qed.

Lemma nanstd_is_population_std (a : array2 float) :
  length (np.flatten a) < 8 ->
  same_number (np.nanstd a) (Spec.population_std (numbers a)).
Proof.
  intros Hlen.
  unfold np.nanstd, np.nanvar, Spec.population_std, np.divide_by_count.
  rewrite count_not_nan_numbers. apply sqrt_same, div_same_l.
  fold (np.divide_by_count (np.sum (np.replace_nan (np.flatten a))) (length (numbers a))).
  rewrite masked_squares.
  eapply same_number_trans; [apply sum_skip_nan; exact Hlen|]. left. f_equal.
  unfold Spec.squared_deviations. apply map_ext. intros x.
  apply squared_deviation_same.
  pose proof (nanmean_is_mean_of_numbers a Hlen) as H.
  unfold np.nanmean in H. rewrite count_not_nan_numbers in H. exact H.
Qed.

Lemma is_population_std_nil (sd : float) :
  Spec.is_population_std sd [] -> sd = Float64.nan.
Proof.
  intros (mu & ss & _ & Hss & ->). cbn [map] in Hss.
  rewrite (is_sum_nil ss Hss). reflexivity.
Qed.

(** ** The median *)

Lemma sort_ascending (l : list float) :
  Forall (fun x => Float64.is_nan x = false) l -> Spec.ascending (np.sort l).
Proof.
  intros Hnum.
  apply (StronglySorted_sub (fun x y => np.sort_le x y = true)
           (fun x => Float64.is_nan x = false));
    [intros x y Hx Hy; apply sort_le_leb; assumption| |apply sort_sorted].
  apply Forall_forall. intros x Hx. rewrite Forall_forall in Hnum. apply Hnum.
  eapply Permutation_in; [apply sort_perm|exact Hx].
Qed.

Lemma median_is_median (l : list float) :
  Forall (fun x => Float64.is_nan x = false) l -> Spec.is_median (np.median l) l.
Proof.
  intros Hnum. exists (np.sort l).
  split; [apply sort_perm|]. split; [apply sort_ascending; exact Hnum|].
  unfold np.median, Spec.middle. cbv zeta.
  rewrite (Permutation_length (sort_perm l)).
  destruct (Nat.even (length l)); apply mean_is_mean.
Qed.

(** The mean of one number is the number. *)
Lemma mean_of_one (x : float) :
  valid_binary 53 1024 x = true -> same_number (np.mean [x]) x.
Proof.
  intros Hx. unfold np.mean, np.divide_by_count. cbn [length].
  change (Float64.of_Z (Z.of_nat 1)) with Float64.one.
  rewrite <- (div_one x Hx) at 2. apply div_same_l.
  rewrite sum_short by (cbn; lia). cbn [Spec.total fold_left].
  eapply same_number_trans; apply add_zero_l.
Qed.

Lemma firstn_1_skipn {A : Type} (l : list A) (k : nat) (d : A) :
  k < length l -> firstn 1 (skipn k l) = [nth k l d].
Proof.
  revert k. induction l as [|x l IH]; intros k Hk; [simpl in Hk; lia|].
  destruct k as [|k]; [reflexivity|]. cbn [skipn nth]. apply IH. simpl in Hk. lia.
Qed.

(** The median of an odd number of numbers is the middle one of the
    sorted numbers. *)
Lemma median_of_odd (l : list float) :
  Forall (fun x => valid_binary 53 1024 x = true) l ->
  Nat.odd (length l) = true ->
  same_number (np.median l) (nth (length l / 2) (np.sort l) Float64.nan).
Proof.
  intros Hv Hodd. unfold np.median. cbv zeta.
  rewrite <- Nat.negb_odd, Hodd. cbn [negb].
  assert (Hlen : length l / 2 < length (np.sort l)).
  { rewrite (Permutation_length (sort_perm l)).
    destruct l; [discriminate|]. apply Nat.div_lt; simpl; lia. }
  rewrite (firstn_1_skipn _ _ Float64.nan Hlen).
  apply mean_of_one.
  rewrite Forall_forall in Hv. apply Hv.
  eapply Permutation_in; [apply sort_perm|]. apply nth_In. exact Hlen.
Qed.

(** *** The median does not depend on the order of the array *)

Lemma rank_same (x y : float) : rank x = rank y -> same_number x y.
Proof.
  destruct x as [sx|[]| |[] mx ex], y as [sy|[]| |[] my ey]; cbn [rank];
    intros H; try discriminate H; try (left; reflexivity);
    try (right; split; reflexivity);
    injection H as H1 H2; left; f_equal; lia.
Qed.

Lemma sorted_permutation_eq {A : Type} (le : A -> A -> Prop) (l l' : list A) :
  (forall x y, le x y -> le y x -> x = y) ->
  StronglySorted le l -> StronglySorted le l' -> Permutation l l' -> l = l'.
Proof.
  intros Hanti Hl. revert l'. induction Hl as [|a t Ht IH Ha]; intros l' Hl' Hp.
  - apply Permutation_nil in Hp. symmetry. exact Hp.
  - destruct Hl' as [|b t' Ht' Hb].
    { apply Permutation_sym, Permutation_nil in Hp. discriminate. }
    assert (E : a = b).
    { assert (Hin : In a (b :: t')) by (eapply Permutation_in; [exact Hp|left; reflexivity]).
      assert (Hin' : In b (a :: t)).
      { eapply Permutation_in; [apply Permutation_sym; exact Hp|left; reflexivity]. }
      destruct Hin as [E|Hin]; [symmetry; exact E|].
      destruct Hin' as [E|Hin']; [exact E|].
      rewrite Forall_forall in Ha, Hb. apply Hanti; [apply Ha|apply Hb]; assumption. }
    subst b. f_equal. apply IH; [exact Ht'|].
    eapply Permutation_cons_inv. exact Hp.
Qed.

(** The sorted arrays of two arrays with the same entries agree up
    to the sign of a zero, place by place. *)
Lemma sort_of_permutation (l l' : list float) :
  Permutation l l' -> Forall2 same_number (np.sort l) (np.sort l').
Proof.
  intros Hp.
  assert (E : map rank (np.sort l) = map rank (np.sort l')).
  { apply (sorted_permutation_eq (fun r1 r2 => ~ rank_lt r2 r1)).
    - intros [[a1 a2] a3] [[b1 b2] b3]. unfold rank_lt. intros H1 H2.
      assert (a1 = b1 /\ a2 = b2 /\ a3 = b3) as (-> & -> & ->) by lia. reflexivity.
    - apply StronglySorted_map.
      apply (StronglySorted_sub (fun x y => np.sort_le x y = true) (fun _ => True));
        [intros x y _ _; apply sort_le_iff|apply Forall_forall; intros; exact I|
         apply sort_sorted].
    - apply StronglySorted_map.
      apply (StronglySorted_sub (fun x y => np.sort_le x y = true) (fun _ => True));
        [intros x y _ _; apply sort_le_iff|apply Forall_forall; intros; exact I|
         apply sort_sorted].
    - apply Permutation_map.
      rewrite (sort_perm l), (sort_perm l'). exact Hp. }
  revert E. generalize (np.sort l') as s'. induction (np.sort l) as [|x s IH];
    intros [|y s'] E; try discriminate E; constructor.
  - apply rank_same. injection E as E _. exact E.
  - apply IH. injection E as _ E. exact E.
Qed.

(** Sums of arrays that agree up to the sign of a zero are equal. *)
Lemma sum_same (l l' : list float) :
  Forall2 same_number l l' -> np.sum l = np.sum l'.
Proof.
  intros H. unfold np.sum. apply add_zero_same.
  apply (pairwise_sum_related Float64.add Float64.add Float64.zero Float64.zero same_number).
  - apply same_number_refl.
  - intros x y x' y'. apply add_same.
  - exact H.
Qed.

Lemma mean_same (l l' : list float) :
  Forall2 same_number l l' -> np.mean l = np.mean l'.
Proof.
  intros H. unfold np.mean. rewrite (sum_same l l' H), (Forall2_length H). reflexivity.
Qed.

(** So the median is the same in whatever order the entries are
    given, and however the sort orders equal entries. *)
Lemma median_of_permutation (l l' : list float) :
  Permutation l l' -> np.median l = np.median l'.
Proof.
  intros Hp. unfold np.median. cbv zeta.
  rewrite (Permutation_length Hp).
  pose proof (sort_of_permutation l l' Hp) as H.
  destruct (Nat.even (length l')); apply mean_same;
    apply firstn_related, skipn_related; exact H.
Qed.

(** [np.nanmedian] is a median of the entries that are not NaN, and
    NaN when there is none. *)
Lemma nanmedian_is_median (a : array2 float) :
  match numbers a with
  | [] => np.nanmedian a = Float64.nan
  | _ :: _ => Spec.is_median (np.nanmedian a) (numbers a)
  end.
Proof.
  unfold np.nanmedian. fold not_nan. fold (numbers a).
  pose proof (filter_not_nan_Forall (np.flatten a)) as H. fold (numbers a) in H.
  destruct (numbers a) as [|x l] eqn:E; [reflexivity|].
  apply median_is_median. exact H.
Qed.

(** Of an odd number of entries that are not NaN it is the middle
    one, up to the sign of a zero. *)
Lemma nanmedian_of_odd (a : array2 float) :
  Forall (fun x => valid_binary 53 1024 x = true) (numbers a) ->
  Nat.odd (length (numbers a)) = true ->
  exists s : list float,
    Permutation s (numbers a) /\ Spec.ascending s /\
    same_number (np.nanmedian a) (nth (length s / 2) s Float64.nan).
Proof.
  intros Hv Hodd. exists (np.sort (numbers a)).
  split; [apply sort_perm|].
  split; [apply sort_ascending, filter_not_nan_Forall|].
  rewrite (Permutation_length (sort_perm (numbers a))).
  unfold np.nanmedian. fold not_nan. fold (numbers a).
  destruct (numbers a) as [|x l] eqn:E; [discriminate|].
  apply median_of_odd; assumption.
Qed.

(** ** Least and greatest element *)

Lemma float_leb_trans (x y z : float) :
  Float64.leb x y = true -> Float64.leb y z = true -> Float64.leb x z = true.
Proof.
  rewrite !leb_iff. intros (Hx & Hy & H1) (_ & Hz & H2). repeat split; try assumption.
  destruct (rank x) as [[a1 a2] a3], (rank y) as [[b1 b2] b3], (rank z) as [[c1 c2] c3].
  unfold rank_lt in *.
  destruct H1 as [H1|H1], H2 as [H2|H2];
    try (injection H1 as -> -> ->); try (injection H2 as -> -> ->);
    try (left; lia); try (right; reflexivity).
Qed.

Lemma float_leb_total (x y : float) :
  Float64.is_nan x = false -> Float64.is_nan y = false ->
  Float64.leb x y = false -> Float64.leb y x = true.
Proof.
  intros Hx Hy H. apply sort_le_leb; try assumption.
  unfold np.sort_le, np.sort_lt. rewrite Hy. cbn [andb]. rewrite orb_false_r.
  apply negb_true_iff. destruct (Float64.ltb x y) eqn:E; [|reflexivity].
  apply ltb_leb in E. congruence.
Qed.

Lemma float_leb_refl (x : float) : Float64.is_nan x = false -> Float64.leb x x = true.
Proof.
  intros Hx. apply sort_le_leb; try assumption. apply sort_le_refl.
Qed.

Section Extremum.

(** [le] is [<=] for the minimum and [>=] for the maximum. *)
Variable le : float -> float -> bool.
Hypothesis le_trans : forall x y z, le x y = true -> le y z = true -> le x z = true.
Hypothesis le_total :
  forall x y, Float64.is_nan x = false -> Float64.is_nan y = false ->
              le x y = false -> le y x = true.
Hypothesis le_refl : forall x, Float64.is_nan x = false -> le x x = true.
Hypothesis le_nan : forall x, le Float64.nan x = false.

Lemma extremum_snoc (acc x : float) (seen : list float) :
  Forall (fun y => Float64.is_nan y = false) seen ->
  Float64.is_nan x = false ->
  extremum le acc seen ->
  In (pick le acc x) (seen ++ [x]) /\
  Forall (fun y => le (pick le acc x) y = true) (seen ++ [x]).
Proof.
  intros Hseen Hx Hacc. unfold pick. rewrite Hx, orb_false_r.
  destruct seen as [|y seen].
  - simpl in Hacc. subst acc. rewrite le_nan. simpl.
    split; [left; reflexivity|]. constructor; [apply le_refl; exact Hx|constructor].
  - destruct Hacc as [Hin Hle]. remember (y :: seen) as l.
    assert (Hacc : Float64.is_nan acc = false).
    { rewrite Forall_forall in Hseen. apply Hseen. exact Hin. }
    destruct (le acc x) eqn:E.
    + split; [apply in_or_app; left; exact Hin|].
      apply Forall_app. split; [exact Hle|]. constructor; [exact E|constructor].
    + apply (le_total acc x Hacc Hx) in E.
      split; [apply in_or_app; right; left; reflexivity|].
      apply Forall_app. split.
      * rewrite Forall_forall in *. intros z Hz. eapply le_trans; [exact E|].
        apply Hle. exact Hz.
      * constructor; [apply le_refl; exact Hx|constructor].
Qed.

Lemma extremum_nonempty (m : float) (seen : list float) :
  seen <> [] ->
  In m seen /\ Forall (fun x => le m x = true) seen -> extremum le m seen.
Proof. destruct seen; [congruence|]. intros _ H. exact H. Qed.

Lemma fold_pick (l seen : list float) (acc : float) :
  Forall (fun y => Float64.is_nan y = false) seen ->
  extremum le acc seen ->
  extremum le (fold_left (pick le) l acc) (seen ++ filter not_nan l).
Proof.
  revert seen acc. induction l as [|x l IH]; intros seen acc Hseen Hacc.
  - simpl. rewrite app_nil_r. exact Hacc.
  - cbn [fold_left filter]. unfold not_nan at 1.
    destruct (Float64.is_nan x) eqn:Ex; cbn [negb].
    + replace (pick le acc x) with acc
        by (unfold pick; rewrite Ex, orb_true_r; reflexivity).
      apply IH; assumption.
    + replace (seen ++ x :: filter not_nan l) with ((seen ++ [x]) ++ filter not_nan l)
        by (rewrite <- app_assoc; reflexivity).
      apply IH.
      * apply Forall_app. split; [exact Hseen|]. constructor; [exact Ex|constructor].
      * apply extremum_nonempty; [destruct seen; discriminate|].
        apply extremum_snoc; assumption.
Qed.

Lemma reduce_pick (l : list float) :
  match np.reduce (pick le) l with
  | Some m => l <> [] /\ extremum le m (filter not_nan l)
  | None => l = []
  end.
Proof.
  destruct l as [|x l]; [reflexivity|]. cbn [np.reduce].
  split; [discriminate|].
  cbn [filter]. unfold not_nan at 1. destruct (Float64.is_nan x) eqn:Ex; cbn [negb].
  - apply (fold_pick l [] x); [constructor|]. destruct x; try discriminate. reflexivity.
  - apply (fold_pick l [x] x); [constructor; [exact Ex|constructor]|].
    split; [left; reflexivity|]. constructor; [apply le_refl; exact Ex|constructor].
Qed.

End Extremum.

Lemma fmin_pick (x y : float) : np.fmin x y = pick Float64.leb x y.
Proof. reflexivity. Qed.

Lemma fmax_pick (x y : float) : np.fmax x y = pick geb x y.
Proof. reflexivity. Qed.

Lemma reduce_ext (f g : float -> float -> float) (l : list float) :
  (forall x y, f x y = g x y) -> np.reduce f l = np.reduce g l.
Proof.
  intros H. destruct l as [|x l]; [reflexivity|]. cbn [np.reduce]. f_equal.
  revert x. induction l as [|y l IH]; intros x; [reflexivity|].
  cbn [fold_left]. rewrite H. apply IH.
Qed.

(** [np.nanmin] raises on an empty array; otherwise it returns the
    least of the entries that are not NaN, and NaN when there is
    none. *)
Lemma nanmin_spec (a : array2 float) :
  match np.nanmin a with
  | Ok m => np.flatten a <> [] /\ extremum Float64.leb m (numbers a)
  | Raise e => np.flatten a = [] /\ e = ValueError
  end.
Proof.
  unfold np.nanmin. rewrite (reduce_ext np.fmin (pick Float64.leb) _ fmin_pick).
  pose proof (reduce_pick Float64.leb float_leb_trans float_leb_total float_leb_refl
                (fun x => eq_refl) (np.flatten a)) as H.
  destruct (np.reduce (pick Float64.leb) (np.flatten a)); [exact H|].
  split; [exact H|reflexivity].
Qed.

Lemma nanmax_spec (a : array2 float) :
  match np.nanmax a with
  | Ok m => np.flatten a <> [] /\ extremum geb m (numbers a)
  | Raise e => np.flatten a = [] /\ e = ValueError
  end.
Proof.
  unfold np.nanmax. rewrite (reduce_ext np.fmax (pick geb) _ fmax_pick).
  assert (Htrans : forall x y z, geb x y = true -> geb y z = true -> geb x z = true).
  { unfold geb. intros x y z H1 H2. eapply float_leb_trans; eassumption. }
  assert (Htotal : forall x y, Float64.is_nan x = false -> Float64.is_nan y = false ->
                               geb x y = false -> geb y x = true).
  { unfold geb. intros x y Hx Hy H. apply float_leb_total; assumption. }
  assert (Hnan : forall x, geb Float64.nan x = false).
  { intros x. unfold geb. destruct x as [[]|[]| |[] m e]; reflexivity. }
  pose proof (reduce_pick geb Htrans Htotal float_leb_refl Hnan (np.flatten a)) as H.
  destruct (np.reduce (pick geb) (np.flatten a)); [exact H|].
  split; [exact H|reflexivity].
Qed.

(** ** print_ndvi_stats *)

Lemma print_ndvi_stats_report (ndvi : array2 float) (minimum maximum : float) :
  np.nanmin ndvi = Ok minimum ->
  np.nanmax ndvi = Ok maximum ->
  print_ndvi_stats ndvi =
  (report minimum maximum (np.nanmean ndvi) (np.nanmedian ndvi) (np.nanstd ndvi), Ok tt).
Proof.
  intros Hmin Hmax. unfold print_ndvi_stats. rewrite Hmin, Hmax. reflexivity.
Qed.

Lemma print_ndvi_stats_empty (ndvi : array2 float) :
  np.flatten ndvi = [] ->
  print_ndvi_stats ndvi = ([Text "NDVI Statistics:"], Raise ValueError).
Proof.
  intros H. unfold print_ndvi_stats, np.nanmin. rewrite H. reflexivity.
Qed.

(** C7. The summary prints five scalars, each over the entries that
    are not NaN: the least and the greatest of them, a mean of them
    (a sum of them, in the order NumPy adds, divided by their
    number), a median (the mean of the one or two middle elements of
    the sorted entries), and a population standard deviation (the
    square root of a sum of their squared deviations from the mean,
    divided by their number).  Of an array of fewer than 8 entries
    the mean and the deviation are those added in index order, up to
    the sign of a zero; of an array of any length whose numbers lie
    on a grid the mean is the exact one, rounded once; the median of
    an odd number of numbers is the middle one.  On
    [[-1, 0], [0.5, 1]] the summary prints -1, 1, 0.125, the median
    0.25 = (0 + 0.5) / 2 of the four values, and the population
    standard deviation sqrt(2.1875 / 4), which is not the sample
    standard deviation sqrt(2.1875 / 3). *)
Theorem ndvi_statistics :
  (print_ndvi_stats example_ndvi =
     (report (Float64.of_Z (-1)) (Float64.of_Z 1) (Float64.dyadic 1 (-3))
        (Float64.dyadic 1 (-2)) (Spec.population_std (np.flatten example_ndvi)),
      Ok tt) /\
   np.median (np.flatten example_ndvi) =
     Float64.div (Float64.add (Float64.of_Z 0) (Float64.dyadic 1 (-1))) (Float64.of_Z 2) /\
   Spec.population_std (np.flatten example_ndvi) =
     Float64.sqrt (Float64.div (Float64.dyadic 35 (-4)) (Float64.of_Z 4)) /\
   Spec.population_std (np.flatten example_ndvi) =
     S754_finite false 6660913676665389 (-53) /\
   Spec.sample_std (np.flatten example_ndvi) =
     S754_finite false 7691360608543244 (-53)) /\
  forall ndvi : array2 float,
    np.flatten ndvi <> [] ->
    exists minimum maximum : float,
      print_ndvi_stats ndvi =
        (report minimum maximum (np.nanmean ndvi) (np.nanmedian ndvi) (np.nanstd ndvi),
         Ok tt) /\
      match numbers ndvi with
      | [] =>
          minimum = Float64.nan /\ maximum = Float64.nan /\
          np.nanmedian ndvi = Float64.nan
      | _ :: _ =>
          Spec.is_minimum minimum (numbers ndvi) /\
          Spec.is_maximum maximum (numbers ndvi) /\
          Spec.is_median (np.nanmedian ndvi) (numbers ndvi)
      end /\
      Spec.is_mean (np.nanmean ndvi) (numbers ndvi) /\
      Spec.is_population_std (np.nanstd ndvi) (numbers ndvi) /\
      (length (np.flatten ndvi) < 8 ->
       same_number (np.nanmean ndvi) (Spec.arithmetic_mean (numbers ndvi)) /\
       same_number (np.nanstd ndvi) (Spec.population_std (numbers ndvi))) /\
      (forall (k : Z) (ms : list Z),
         numbers ndvi = on_grid k ms ->
         (-1074 <= k <= 971)%Z ->
         (exact_sum (map Z.abs ms) < 2 ^ 53)%Z ->
         np.nanmean ndvi =
         Float64.div (Float64.dyadic (exact_sum ms) k)
           (Float64.of_Z (Z.of_nat (length ms)))) /\
      (Forall (fun x => valid_binary 53 1024 x = true) (numbers ndvi) ->
       Nat.odd (length (numbers ndvi)) = true ->
       exists s : list float,
         Permutation s (numbers ndvi) /\ Spec.ascending s /\
         same_number (np.nanmedian ndvi) (nth (length s / 2) s Float64.nan)).
Proof.
  split.
  - repeat split; vm_compute; reflexivity.
  - intros ndvi Hne.
    pose proof (nanmin_spec ndvi) as Hmin. pose proof (nanmax_spec ndvi) as Hmax.
    destruct (np.nanmin ndvi) as [minimum|e] eqn:Emin; [|destruct Hmin; contradiction].
    destruct (np.nanmax ndvi) as [maximum|e] eqn:Emax; [|destruct Hmax; contradiction].
    exists minimum, maximum.
    split; [apply print_ndvi_stats_report; assumption|].
    split; [|split; [apply nanmean_is_mean|split; [apply nanstd_is_std|split; [|split]]]].
    + pose proof (nanmedian_is_median ndvi) as Hmed.
      destruct Hmin as [_ Hmin], Hmax as [_ Hmax]. unfold extremum in *.
      destruct (numbers ndvi); repeat split; try apply Hmin; try apply Hmax; exact Hmed.
    + intros Hlen.
      split; [apply nanmean_is_mean_of_numbers|apply nanstd_is_population_std]; exact Hlen.
    + intros k ms Hnum Hk Hb. apply (is_mean_on_grid k ms _ Hk Hb).
      rewrite <- Hnum. apply nanmean_is_mean.
    + apply nanmedian_of_odd.
Qed.

Lemma ndvi_statistics_witness :
  np.flatten example_ndvi <> [] /\
  exists minimum maximum : float,
    print_ndvi_stats example_ndvi =
      (report minimum maximum (np.nanmean example_ndvi) (np.nanmedian example_ndvi)
         (np.nanstd example_ndvi),
       Ok tt) /\
    Spec.is_minimum minimum (numbers example_ndvi) /\
    Spec.is_maximum maximum (numbers example_ndvi) /\
    Spec.is_median (np.nanmedian example_ndvi) (numbers example_ndvi) /\
    Spec.is_mean (np.nanmean example_ndvi) (numbers example_ndvi) /\
    Spec.is_population_std (np.nanstd example_ndvi) (numbers example_ndvi) /\
    np.nanmean example_ndvi = Float64.div (Float64.dyadic 1 (-1)) (Float64.of_Z 4).
Proof.
  split; [discriminate|].
  destruct (proj2 ndvi_statistics example_ndvi)
    as (mn & mx & Hp & Hext & Hmean & Hstd & _ & Hgrid & _); [discriminate|].
  exists mn, mx. split; [exact Hp|].
  destruct Hext as (Hmin & Hmax & Hmed).
  repeat (split; [assumption|]).
  apply (Hgrid (-1)%Z [-2; 0; 1; 2]%Z); [reflexivity|lia|reflexivity].
Defined.

(** * Further properties of calculate_ndvi *)

(** With fewer than 4 bands [bands[2]] or [bands[3]] is out of range. *)
Lemma ndvi_of_few_bands (bands : ndarray3) :
  band_count bands < 4 -> ndvi_of_bands bands = Raise IndexError.
Proof.
  intros Hcount. unfold ndvi_of_bands, np.getitem, band_count in *.
  destruct (nth_error (stack_data bands) 2) as [red|] eqn:E2; [|reflexivity].
  destruct (nth_error (stack_data bands) 3) as [nir|] eqn:E3; [|reflexivity].
  assert (H : nth_error (stack_data bands) 3 <> None) by congruence.
  apply nth_error_Some in H. lia.
Qed.

(** X1. How [calculate_ndvi] ends: with RasterioIOError when the path
    cannot be opened, with IndexError when the file has fewer than 4
    bands, and otherwise with the array computed from band 4 and
    band 3; there is no other outcome. *)
Theorem calculate_ndvi_outcome (fs : filesystem) (path_tiff : String.string) :
  match fs path_tiff with
  | None => calculate_ndvi fs path_tiff = Raise RasterioIOError
  | Some src =>
      if 4 <=? band_count (read src)
      then calculate_ndvi fs path_tiff =
             Ok (ndvi_array (stack_dtype (read src)) (band (read src) 3) (band (read src) 2))
      else calculate_ndvi fs path_tiff = Raise IndexError
  end.
Proof.
  destruct (fs path_tiff) as [src|] eqn:Hsrc.
  - rewrite (calculate_ndvi_reads fs path_tiff src Hsrc).
    destruct (4 <=? band_count (read src)) eqn:Hcount.
    + apply ndvi_of_four_bands. apply Nat.leb_le. exact Hcount.
    + apply ndvi_of_few_bands. apply Nat.leb_gt. exact Hcount.
  - unfold calculate_ndvi, rasterio_open. rewrite Hsrc. reflexivity.
Qed.

(** X2. The result depends on the third and the fourth band only: two
    files of the same dtype that agree on these two bands give the
    same result, whatever their other bands and however many they
    have. *)
Theorem ndvi_reads_two_bands_only
    (fs1 fs2 : filesystem) (path1 path2 : String.string) (src1 src2 : DatasetReader)
    (d : dtype) (data1 data2 : array3 (elem d)) :
  fs1 path1 = Some src1 ->
  fs2 path2 = Some src2 ->
  read src1 = stack d data1 ->
  read src2 = stack d data2 ->
  nth_error data1 2 = nth_error data2 2 ->
  nth_error data1 3 = nth_error data2 3 ->
  calculate_ndvi fs1 path1 = calculate_ndvi fs2 path2.
Proof.
  intros H1 H2 R1 R2 Hred Hnir.
  rewrite (calculate_ndvi_reads fs1 path1 src1 H1), (calculate_ndvi_reads fs2 path2 src2 H2).
  rewrite R1, R2. unfold ndvi_of_bands, np.getitem, stack. cbn [stack_data stack_dtype].
  rewrite Hred, Hnir. reflexivity.
Qed.

Lemma ndvi_reads_two_bands_only_witness :
  let a := stack (Int uint16) [[[7]]; [[8]]; [[100]]; [[300]]]%Z in
  let b := stack (Int uint16) [[[9]]; [[4]]; [[100]]; [[300]]; [[9]]; [[5]]]%Z in
  calculate_ndvi (single_file "a.tif" (dataset a)) "a.tif" =
  calculate_ndvi (single_file "b.tif" (dataset b)) "b.tif".
Proof.
  intros a b.
  apply (ndvi_reads_two_bands_only _ _ _ _ (dataset a) (dataset b) (Int uint16)
           [[[7]]; [[8]]; [[100]]; [[300]]]%Z
           [[[9]]; [[4]]; [[100]]; [[300]]; [[9]]; [[5]]]%Z); reflexivity.
Defined.

(** ** The formula *)

Lemma ndvi_at_clipped_quotient (d : dtype) (nir red : elem d) :
  nothing_wraps d nir red -> ndvi_at d nir red = clipped_quotient d nir red.
Proof.
  destruct d as [k|]; cbn [nothing_wraps clipped_quotient].
  - intros [Hd Hs]. apply ndvi_at_int_in_range; assumption.
  - intros _. apply ndvi_at_float64.
Qed.

(** X3. On a file of 4 bands or more the result has the shape of the
    bands, and at every pixel where the difference and the sum of the
    two values fit the dtype (always on float64 bands) the element is
    (nir - red) / (nir + red) computed in binary64 from the exact
    difference and sum, 0 where the sum is 0, cut to [-1, 1]. *)
Theorem ndvi_formula_where_nothing_wraps
    (fs : filesystem) (path_tiff : String.string) (src : DatasetReader) :
  fs path_tiff = Some src ->
  4 <= band_count (read src) ->
  exists ndvi : array2 float,
    calculate_ndvi fs path_tiff = Ok ndvi /\
    (shape2 (band (read src) 2) = shape2 (band (read src) 3) ->
     shape2 ndvi = shape2 (band (read src) 2)) /\
    (forall i j red nir,
       pixel (band (read src) 2) i j = Some red ->
       pixel (band (read src) 3) i j = Some nir ->
       nothing_wraps _ nir red ->
       pixel ndvi i j = Some (clipped_quotient _ nir red)).
Proof.
  intros Hsrc Hcount.
  exists (ndvi_array (stack_dtype (read src)) (band (read src) 3) (band (read src) 2)).
  split.
  { rewrite (calculate_ndvi_reads fs path_tiff src Hsrc).
    apply ndvi_of_four_bands. exact Hcount. }
  split; [apply shape_ndvi_array|].
  intros i j red nir Hred Hnir Hfit.
  rewrite pixel_ndvi_array, Hnir, Hred. cbn [both].
  rewrite (ndvi_at_clipped_quotient _ nir red Hfit). reflexivity.
Qed.

Lemma ndvi_formula_where_nothing_wraps_witness :
  let src := dataset (stack (Int uint16) [[[0; 0]]; [[0; 0]]; [[100; 7]]; [[300; 7]]]%Z) in
  exists ndvi : array2 float,
    calculate_ndvi (single_file "scene.tif" src) "scene.tif" = Ok ndvi /\
    shape2 ndvi = [2] /\
    pixel ndvi 0 0 = Some half /\
    pixel ndvi 0 1 = Some Float64.zero.
Proof.
  intros src.
  destruct (ndvi_formula_where_nothing_wraps (single_file "scene.tif" src) "scene.tif" src)
    as (ndvi & Hok & Hshape & Hpix); [reflexivity|apply Nat.leb_le; reflexivity|].
  exists ndvi. split; [exact Hok|]. split; [apply Hshape; reflexivity|].
  split.
  - apply (Hpix 0 0 100%Z 300%Z); [reflexivity|reflexivity|]. cbn. lia.
  - apply (Hpix 0 1 7%Z 7%Z); [reflexivity|reflexivity|]. cbn. lia.
Defined.

(** * The NDVI of a pixel: landmarks and symmetry *)

Open Scope Z_scope.

(** A finite number divided by itself: the mantissas divide to
    exactly 2^53 at exponent -53, which rounds to 1. *)
Lemma float_div_core_self (m : positive) (e : Z) :
  SFdiv_core_binary 53 1024 (Z.pos m) e (Z.pos m) e = (2 ^ 53, -53, loc_Exact).
Proof.
  unfold SFdiv_core_binary.
  rewrite !Z.sub_diag.
  replace (Z.min (fexp 53 1024 0) 0) with (-53) by reflexivity.
  replace (0 - -53) with 53 by reflexivity.
  rewrite Z.shiftl_mul_pow2 by lia.
  assert (Hq : (Z.pos m * 2 ^ 53) / Z.pos m = 2 ^ 53).
  { rewrite Z.mul_comm. apply Z.div_mul. lia. }
  assert (Hr : (Z.pos m * 2 ^ 53) mod Z.pos m = 0).
  { rewrite Z.mul_comm. apply Z.mod_mul. lia. }
  unfold Z.div, Z.modulo in Hq, Hr.
  destruct (Z.div_eucl (Z.pos m * 2 ^ 53) (Z.pos m)) as [q r]. cbn [fst snd] in Hq, Hr.
  subst q r. f_equal.
  unfold new_location. destruct (Z.even (Z.pos m)); reflexivity.
Qed.

Lemma float_div_self (s : bool) (m : positive) (e : Z) :
  Float64.div (S754_finite s m e) (S754_finite s m e) = Float64.one.
Proof.
  unfold Float64.div, SFdiv. fold Float64.prec Float64.emax.
  change Float64.prec with 53. change Float64.emax with 1024.
  rewrite float_div_core_self. destruct s; vm_compute; reflexivity.
Qed.

Lemma float_div_opp_self (s : bool) (m : positive) (e : Z) :
  Float64.div (S754_finite (negb s) m e) (S754_finite s m e) = Float64.of_Z (-1).
Proof.
  unfold Float64.div, SFdiv.
  change Float64.prec with 53. change Float64.emax with 1024.
  rewrite float_div_core_self. destruct s; vm_compute; reflexivity.
Qed.

(** ** Signs *)

(** The sign takes no part in rounding. *)
Lemma binary_round_aux_opp (s : bool) (m e : Z) (l : location) :
  binary_round_aux 53 1024 (negb s) m e l = SFopp (binary_round_aux 53 1024 s m e l).
Proof.
  unfold binary_round_aux.
  destruct (shr_fexp 53 1024 m e l) as [mrs' e'].
  destruct (shr_fexp 53 1024 _ e' loc_Exact) as [mrs'' e''].
  destruct (shr_m mrs''); [reflexivity| |reflexivity].
  destruct (e'' <=? 1024 - 53); reflexivity.
Qed.

Lemma binary_round_opp (s : bool) (m : positive) (e : Z) :
  binary_round 53 1024 (negb s) m e = SFopp (binary_round 53 1024 s m e).
Proof.
  unfold binary_round. destruct (shl_align m e _) as [mz ez].
  apply binary_round_aux_opp.
Qed.

Lemma binary_normalize_opp (m e : Z) :
  m <> 0 ->
  binary_normalize 53 1024 (- m) e false = SFopp (binary_normalize 53 1024 m e false).
Proof.
  intros Hm. destruct m as [|p|p]; [contradiction| |]; cbn [Z.opp binary_normalize].
  - apply (binary_round_opp false).
  - apply (binary_round_opp true).
Qed.

Lemma of_Z_opp (z : Z) : z <> 0 -> Float64.of_Z (- z) = Float64.opp (Float64.of_Z z).
Proof. intros H. apply binary_normalize_opp. exact H. Qed.

Lemma float_add_comm (x y : float) : Float64.add x y = Float64.add y x.
Proof.
  destruct x as [[]|[]| |sx mx ex], y as [[]|[]| |sy my ey]; try reflexivity.
  unfold Float64.add, SFadd. rewrite (Z.min_comm ey ex). f_equal. apply Z.add_comm.
Qed.

(** [y - x] is the opposite of [x - y]; when they are zero both are
    [+0]. *)
Lemma float_sub_swap (x y : float) :
  same_number (Float64.sub y x) (Float64.opp (Float64.sub x y)).
Proof.
  destruct x as [[]|[]| |sx mx ex], y as [[]|[]| |sy my ey];
    try (left; reflexivity); try (right; split; reflexivity).
  - left. cbn. rewrite negb_involutive. reflexivity.
  - left. cbn. rewrite negb_involutive. reflexivity.
  - unfold Float64.sub, SFsub. rewrite (Z.min_comm ey ex).
    set (a := cond_Zopp sx _). set (b := cond_Zopp sy _).
    destruct (Z.eq_dec (a - b) 0) as [E|E].
    + right. replace (b - a) with 0 by lia. rewrite E. split; reflexivity.
    + left. replace (b - a) with (- (a - b)) by lia.
      apply binary_normalize_opp. exact E.
Qed.

Lemma float_div_opp_l (a d : float) :
  Float64.div (Float64.opp a) d = Float64.opp (Float64.div a d).
Proof.
  destruct a as [sa|sa| |sa ma ea], d as [sd|sd| |sd md ed]; try reflexivity;
    try (destruct sa, sd; reflexivity).
  unfold Float64.div, Float64.opp, SFdiv, SFopp at 1.
  destruct (SFdiv_core_binary _ _ _ _ _ _) as [[mz ez] lz].
  change Float64.prec with 53. change Float64.emax with 1024.
  replace (xorb (negb sa) sd) with (negb (xorb sa sd)) by (destruct sa, sd; reflexivity).
  apply binary_round_aux_opp.
Qed.

Lemma SFcompare_opp (a b : float) :
  SFcompare (SFopp a) (SFopp b) = SFcompare b a.
Proof.
  rewrite (SFcompare_swap a b).
  destruct a as [[]|[]| |[] ma ea], b as [[]|[]| |[] mb eb]; try reflexivity;
    cbn; destruct (ea ?= eb); try reflexivity;
    destruct (Pos.compare_cont Eq ma mb); reflexivity.
Qed.

Lemma ltb_opp (a b : float) :
  Float64.ltb (Float64.opp a) (Float64.opp b) = Float64.ltb b a.
Proof. unfold Float64.ltb, SFltb, Float64.opp. rewrite SFcompare_opp. reflexivity. Qed.

Lemma not_above_minus_one (x : float) :
  Float64.is_nan x = false ->
  Float64.ltb (Float64.of_Z (-1)) x = false ->
  Float64.ltb x (Float64.of_Z 1) = true.
Proof.
  intros Hnan H. apply ltb_iff. split; [exact Hnan|]. split; [reflexivity|].
  assert (Hn : ~ rank_lt (rank (Float64.of_Z (-1))) (rank x)).
  { intros Hlt. rewrite (proj2 (ltb_iff _ _)) in H; [discriminate|].
    split; [reflexivity|]. split; [exact Hnan|exact Hlt]. }
  rewrite of_Z_minus_one in Hn. rewrite of_Z_one.
  destruct x as [[]|[]| |[] m e]; cbn [rank rank_lt] in *; try discriminate; lia.
Qed.

(** The interval [-1, 1] is symmetric. *)
Lemma clip1_opp (x : float) :
  np.clip1 (-1) 1 (Float64.opp x) = Float64.opp (np.clip1 (-1) 1 x).
Proof.
  destruct (Float64.is_nan x) eqn:Hnan.
  { destruct x; try discriminate. reflexivity. }
  assert (Hnan' : Float64.is_nan (Float64.opp x) = false) by (destruct x; auto).
  assert (E1 : Float64.ltb (Float64.of_Z (-1)) (Float64.opp x)
               = Float64.ltb x (Float64.of_Z 1))
    by exact (ltb_opp (Float64.of_Z 1) x).
  assert (E2 : Float64.ltb (Float64.opp x) (Float64.of_Z 1)
               = Float64.ltb (Float64.of_Z (-1)) x)
    by exact (ltb_opp x (Float64.of_Z (-1))).
  pose proof (not_above_minus_one x Hnan) as Hcase.
  unfold np.clip1, np.fmax_clip, np.fmin_clip. rewrite Hnan, Hnan', E1.
  destruct (Float64.ltb (Float64.of_Z (-1)) x) eqn:A;
    destruct (Float64.ltb x (Float64.of_Z 1)) eqn:B;
    rewrite ?Hnan, ?Hnan', ?E2, ?A, ?B; try reflexivity.
  specialize (Hcase eq_refl). discriminate.
Qed.

Lemma clip1_zero (s : bool) : np.clip1 (-1) 1 (S754_zero s) = S754_zero s.
Proof. destruct s; reflexivity. Qed.

Lemma clip1_same (x y : float) :
  same_number x y -> same_number (np.clip1 (-1) 1 x) (np.clip1 (-1) 1 y).
Proof.
  intros [->|[Hx Hy]]; [left; reflexivity|].
  destruct x; try discriminate. destruct y; try discriminate.
  rewrite !clip1_zero. right. split; reflexivity.
Qed.

Lemma float_opp_same (x y : float) :
  same_number x y -> same_number (Float64.opp x) (Float64.opp y).
Proof.
  intros [->|[Hx Hy]]; [left; reflexivity|].
  destruct x; try discriminate. destruct y; try discriminate.
  right. split; reflexivity.
Qed.

Lemma float_div_zero_l (a d : float) :
  Float64.is_zero a = true -> Float64.is_nan d = false -> Float64.is_zero d = false ->
  Float64.is_zero (Float64.div a d) = true.
Proof.
  intros Ha Hn Hz. destruct a; try discriminate.
  destruct d; try discriminate; reflexivity.
Qed.

(** An integer of at most 64 bits that is not 0 converts to a finite
    number that is not 0. *)
Lemma of_Z_finite (z : Z) :
  z <> 0 -> Z.abs z <= 2 ^ 64 ->
  exists s m e, Float64.of_Z z = S754_finite s m e.
Proof.
  intros Hz Hb.
  pose proof (of_Z_not_nan z) as H1. pose proof (of_Z_not_inf z Hb) as H2.
  pose proof (of_Z_not_zero z Hz) as H3.
  destruct (Float64.of_Z z) as [s|s| |s m e]; try discriminate.
  exists s, m, e. reflexivity.
Qed.

Lemma in_range_bound (k : int_dtype) (z : Z) : in_range k z -> Z.abs z <= 2 ^ 64.
Proof.
  intros H. rewrite <- (wrap_in_range k z H). apply wrap_bound.
Qed.

(** ** The NDVI of one pixel *)

Lemma swapped_quotient (a a' den : float) :
  same_number a' (Float64.opp a) ->
  same_number (np.clip1 (-1) 1 (Float64.div a' den))
              (Float64.opp (np.clip1 (-1) 1 (Float64.div a den))).
Proof.
  intros H. rewrite <- clip1_opp, <- float_div_opp_l.
  apply clip1_same. apply div_same_l. exact H.
Qed.

Lemma ndvi_at_swap (d : dtype) (nir red : elem d) :
  difference_fits d nir red ->
  same_number (ndvi_at d red nir) (Float64.opp (ndvi_at d nir red)).
Proof.
  destruct d as [k|]; cbn [difference_fits]; unfold ndvi_at;
    cbn [np.add1 np.subtract1 np.true_divide1 np.not_equal1].
  - intros [H1 H2]. rewrite (Z.add_comm red nir).
    rewrite (wrap_in_range k _ H1), (wrap_in_range k _ H2).
    destruct (negb (wrap k (nir + red) =? wrap k 0)).
    + apply swapped_quotient.
      destruct (Z.eq_dec (nir - red) 0) as [E|E].
      * right. replace (red - nir) with 0 by lia. rewrite E. split; reflexivity.
      * left. replace (red - nir) with (- (nir - red)) by lia. apply of_Z_opp. exact E.
    + right. split; reflexivity.
  - intros _. rewrite (float_add_comm red nir).
    destruct (negb (Float64.eqb (Float64.add nir red) (Float64.of_Z 0))).
    + apply swapped_quotient. apply float_sub_swap.
    + right. split; reflexivity.
Qed.

Lemma ndvi_at_equal (d : dtype) (x : elem d) :
  representable d x -> Float64.is_zero (ndvi_at d x x) = true.
Proof.
  destruct d as [k|]; cbn [representable]; unfold ndvi_at;
    cbn [np.add1 np.subtract1 np.true_divide1 np.not_equal1].
  - intros _. rewrite Z.sub_diag, wrap_zero.
    destruct (wrap k (x + x) =? 0) eqn:E; cbn [negb]; [reflexivity|].
    apply Z.eqb_neq in E.
    pose proof (float_div_zero_l (Float64.of_Z 0) (Float64.of_Z (wrap k (x + x))) eq_refl
                  (of_Z_not_nan _) (of_Z_not_zero _ E)) as H.
    destruct (Float64.div _ _); try discriminate. rewrite clip1_zero. reflexivity.
  - intros Hfin.
    assert (Hsub : Float64.sub x x = Float64.zero).
    { destruct x as [[]| | |s m e]; try discriminate; try reflexivity.
      unfold Float64.sub, SFsub. rewrite Z.sub_diag. reflexivity. }
    rewrite Hsub.
    destruct (Float64.eqb (Float64.add x x) (Float64.of_Z 0)) eqn:E; cbn [negb];
      [reflexivity|].
    pose proof (float_div_zero_l Float64.zero (Float64.add x x) eq_refl
                  (add_not_nan x x Hfin Hfin) (eqb_zero_false _ E)) as H.
    destruct (Float64.div _ _); try discriminate. rewrite clip1_zero. reflexivity.
Qed.

Lemma ndvi_at_red_zero (d : dtype) (nir red : elem d) :
  representable d nir -> is_zero_elem d red -> ~ is_zero_elem d nir ->
  ndvi_at d nir red = Float64.one.
Proof.
  destruct d as [k|]; cbn [representable is_zero_elem]; unfold ndvi_at;
    cbn [np.add1 np.subtract1 np.true_divide1 np.not_equal1].
  - intros Hr -> Hn. rewrite Z.sub_0_r, Z.add_0_r, wrap_zero, (wrap_in_range k nir Hr).
    apply Z.eqb_neq in Hn. rewrite Hn. cbn [negb].
    destruct (of_Z_finite nir) as (s & m & e & ->);
      [apply Z.eqb_neq; exact Hn|apply (in_range_bound k); exact Hr|].
    rewrite float_div_self. reflexivity.
  - intros Hfin Hz Hn.
    destruct red as [sr| | |]; try discriminate.
    destruct nir as [sn| | |s m e]; try discriminate; [exfalso; apply Hn; reflexivity|].
    change (Float64.add (S754_finite s m e) (S754_zero sr)) with (S754_finite s m e).
    change (Float64.sub (S754_finite s m e) (S754_zero sr)) with (S754_finite s m e).
    replace (Float64.eqb (S754_finite s m e) (Float64.of_Z 0)) with false
      by (destruct s; reflexivity).
    cbn [negb]. rewrite float_div_self. reflexivity.
Qed.

Lemma ndvi_at_nir_zero (d : dtype) (nir red : elem d) :
  representable d red -> negatable d red -> is_zero_elem d nir -> ~ is_zero_elem d red ->
  ndvi_at d nir red = Float64.of_Z (-1).
Proof.
  destruct d as [k|]; cbn [representable negatable is_zero_elem]; unfold ndvi_at;
    cbn [np.add1 np.subtract1 np.true_divide1 np.not_equal1].
  - intros Hr Hneg -> Hn. rewrite Z.sub_0_l, Z.add_0_l, wrap_zero.
    rewrite (wrap_in_range k red Hr), (wrap_in_range k (- red) Hneg).
    apply Z.eqb_neq in Hn. rewrite Hn. cbn [negb]. apply Z.eqb_neq in Hn.
    rewrite (of_Z_opp red Hn).
    destruct (of_Z_finite red) as (s & m & e & ->);
      [exact Hn|apply (in_range_bound k); exact Hr|].
    cbn [Float64.opp SFopp]. rewrite float_div_opp_self. reflexivity.
  - intros Hfin _ Hz Hn.
    destruct nir as [sn| | |]; try discriminate.
    destruct red as [sr| | |s m e]; try discriminate; [exfalso; apply Hn; reflexivity|].
    change (Float64.add (S754_zero sn) (S754_finite s m e)) with (S754_finite s m e).
    change (Float64.sub (S754_zero sn) (S754_finite s m e)) with (S754_finite (negb s) m e).
    replace (Float64.eqb (S754_finite s m e) (Float64.of_Z 0)) with false
      by (destruct s; reflexivity).
    cbn [negb]. rewrite float_div_opp_self. reflexivity.
Qed.

Close Scope Z_scope.

(** ** At a pixel of the array [calculate_ndvi] returns *)

(** X4. Landmarks of the index, at a pixel whose values the dtype can
    hold (finite, on floats): equal red and near-infrared give a
    zero; red zero and near-infrared not zero give exactly 1;
    near-infrared zero and red not zero give exactly -1 on floats and
    wherever the opposite of red fits the dtype (not on unsigned
    bands, where [0 - red] wraps). *)
Theorem ndvi_landmarks
    (fs : filesystem) (path_tiff : String.string) (src : DatasetReader)
    (i j : nat) (red nir : elem (stack_dtype (read src))) :
  fs path_tiff = Some src ->
  4 <= band_count (read src) ->
  pixel (band (read src) 2) i j = Some red ->
  pixel (band (read src) 3) i j = Some nir ->
  representable _ red ->
  representable _ nir ->
  exists (ndvi : array2 float) (v : float),
    calculate_ndvi fs path_tiff = Ok ndvi /\
    pixel ndvi i j = Some v /\
    (nir = red -> Float64.is_zero v = true) /\
    (is_zero_elem _ red -> ~ is_zero_elem _ nir -> v = Float64.one) /\
    (is_zero_elem _ nir -> ~ is_zero_elem _ red -> negatable _ red ->
     v = Float64.of_Z (-1)).
Proof.
  intros Hsrc Hcount Hred Hnir Rred Rnir.
  exists (ndvi_array (stack_dtype (read src)) (band (read src) 3) (band (read src) 2)).
  exists (ndvi_at (stack_dtype (read src)) nir red).
  split.
  { rewrite (calculate_ndvi_reads fs path_tiff src Hsrc).
    apply ndvi_of_four_bands. exact Hcount. }
  split; [rewrite pixel_ndvi_array, Hnir, Hred; reflexivity|].
  split; [intros ->; apply ndvi_at_equal; exact Rred|].
  split.
  - intros Hz Hn. apply ndvi_at_red_zero; assumption.
  - intros Hz Hn Hneg. apply ndvi_at_nir_zero; assumption.
Qed.

Lemma ndvi_landmarks_witness :
  let src := dataset (one_pixel (Int int16) 0 300 0)%Z in
  exists (ndvi : array2 float) (v : float),
    calculate_ndvi (single_file "scene.tif" src) "scene.tif" = Ok ndvi /\
    pixel ndvi 0 0 = Some v /\
    v = Float64.of_Z (-1).
Proof.
  intros src.
  destruct (ndvi_landmarks (single_file "scene.tif" src) "scene.tif" src 0 0 300%Z 0%Z)
    as (ndvi & v & Hok & Hpix & _ & _ & Hminus);
    [reflexivity|apply Nat.leb_le; reflexivity|reflexivity|reflexivity| | |].
  - cbn. lia.
  - cbn. lia.
  - exists ndvi, v. split; [exact Hok|]. split; [exact Hpix|].
    apply Hminus; cbn; [reflexivity|discriminate|lia].
Defined.

(** X5. Exchanging the red and the near-infrared band changes the
    sign of the index: at a pixel where both differences fit the
    dtype (always on floats) the element of the one result is the
    opposite of the element of the other, up to the sign of a
    zero. *)
Theorem ndvi_of_swapped_bands
    (fs1 fs2 : filesystem) (path1 path2 : String.string) (src1 src2 : DatasetReader)
    (d : dtype) (data swapped : array3 (elem d)) (red_band nir_band : array2 (elem d))
    (i j : nat) (red nir : elem d) :
  fs1 path1 = Some src1 ->
  fs2 path2 = Some src2 ->
  read src1 = stack d data ->
  read src2 = stack d swapped ->
  nth_error data 2 = Some red_band ->
  nth_error data 3 = Some nir_band ->
  nth_error swapped 2 = Some nir_band ->
  nth_error swapped 3 = Some red_band ->
  pixel red_band i j = Some red ->
  pixel nir_band i j = Some nir ->
  difference_fits d nir red ->
  exists (a b : array2 float) (v w : float),
    calculate_ndvi fs1 path1 = Ok a /\
    calculate_ndvi fs2 path2 = Ok b /\
    pixel a i j = Some v /\
    pixel b i j = Some w /\
    same_number w (Float64.opp v).
Proof.
  intros H1 H2 R1 R2 D2 D3 S2 S3 Pr Pn Hfit.
  exists (ndvi_array d nir_band red_band), (ndvi_array d red_band nir_band).
  exists (ndvi_at d nir red), (ndvi_at d red nir).
  rewrite (calculate_ndvi_reads fs1 path1 src1 H1), (calculate_ndvi_reads fs2 path2 src2 H2).
  rewrite R1, R2.
  split; [apply (ndvi_of_bands_eq (stack d data)); assumption|].
  split; [apply (ndvi_of_bands_eq (stack d swapped)); assumption|].
  rewrite !pixel_ndvi_array, Pr, Pn.
  split; [reflexivity|]. split; [reflexivity|].
  apply ndvi_at_swap. exact Hfit.
Qed.

Lemma ndvi_of_swapped_bands_witness :
  let a := stack Float64 [[[Float64.zero]]; [[Float64.zero]];
                          [[Float64.of_Z 100]]; [[Float64.of_Z 300]]] in
  let b := stack Float64 [[[Float64.zero]]; [[Float64.zero]];
                          [[Float64.of_Z 300]]; [[Float64.of_Z 100]]] in
  calculate_ndvi (single_file "a.tif" (dataset a)) "a.tif" = Ok [[half]] /\
  calculate_ndvi (single_file "b.tif" (dataset b)) "b.tif" = Ok [[minus_half]] /\
  exists (x y : array2 float) (v w : float),
    calculate_ndvi (single_file "a.tif" (dataset a)) "a.tif" = Ok x /\
    calculate_ndvi (single_file "b.tif" (dataset b)) "b.tif" = Ok y /\
    pixel x 0 0 = Some v /\
    pixel y 0 0 = Some w /\
    same_number w (Float64.opp v).
Proof.
  intros a b. split; [vm_compute; reflexivity|]. split; [vm_compute; reflexivity|].
  apply (ndvi_of_swapped_bands
           (single_file "a.tif" (dataset a)) (single_file "b.tif" (dataset b))
           "a.tif" "b.tif" (dataset a) (dataset b) Float64
           [[[Float64.zero]]; [[Float64.zero]]; [[Float64.of_Z 100]]; [[Float64.of_Z 300]]]
           [[[Float64.zero]]; [[Float64.zero]]; [[Float64.of_Z 300]]; [[Float64.of_Z 100]]]
           [[Float64.of_Z 100]] [[Float64.of_Z 300]] 0 0
           (Float64.of_Z 100) (Float64.of_Z 300));
    first [reflexivity | exact I].
Defined.

(** * Further properties of get_top_ndvi_values *)

(** Both tables are cut from the end of the same sorted array. *)
Lemma ranked_nested (ndvi : array2 float) (n m : Z) :
  (0 < n <= m)%Z ->
  ranked ndvi n = firstn (Z.to_nat n) (ranked ndvi m).
Proof.
  intros H. unfold ranked.
  rewrite !slice_from_last by lia.
  rewrite firstn_rev, skipn_skipn, length_skipn.
  f_equal. f_equal. lia.
Qed.

(** X6. Asking for more rows only adds rows at the end: for
    0 < n <= m the table for n is the first n rows of the table for
    m. *)
Theorem top_values_nested (ndvi : array2 float) (n m : Z) :
  (0 < n <= m)%Z ->
  exists small large : DataFrame,
    get_top_ndvi_values ndvi n = Ok small /\
    get_top_ndvi_values ndvi m = Ok large /\
    NDVI small = firstn (Z.to_nat n) (NDVI large) /\
    Index small = firstn (Z.to_nat n) (Index large) /\
    rows small = firstn (Z.to_nat n) (rows large).
Proof.
  intros H. do 2 eexists.
  split; [apply get_top_ndvi_values_ranked|].
  split; [apply get_top_ndvi_values_ranked|].
  unfold rows. cbn [NDVI Index]. rewrite !combine_fst_snd.
  rewrite !firstn_map, <- (ranked_nested ndvi n m H). repeat split.
Qed.

Lemma ranked_length_le (ndvi : array2 float) (n : Z) :
  length (ranked ndvi n) <= length (np.flatten ndvi).
Proof.
  unfold ranked, slice_from.
  rewrite length_rev, length_skipn, sorted_pairs_length. lia.
Qed.

Lemma ranked_in_bounds (ndvi : array2 float) (n : Z) :
  Forall (fun i => i < length (np.flatten ndvi)) (map snd (ranked ndvi n)).
Proof.
  apply Forall_map. eapply Forall_impl; [|apply ranked_deref].
  intros [v i] H. unfold dereferences in H. cbn [fst snd] in *.
  apply nth_error_Some. congruence.
Qed.

(** X7. [get_top_ndvi_values] never raises: for every array, empty or
    with NaN, and every count, it returns a table whose two columns
    have the same length, at most the number of elements; the indices
    are distinct and inside the flattened array, each points at the
    value of its row, and the values descend in NumPy's sort order. *)
Theorem top_values_always_a_table (ndvi : array2 float) (num_values : Z) :
  exists df : DataFrame,
    get_top_ndvi_values ndvi num_values = Ok df /\
    length (Index df) = length (NDVI df) /\
    length (NDVI df) <= length (np.flatten ndvi) /\
    NoDup (Index df) /\
    Forall (fun i => i < length (np.flatten ndvi)) (Index df) /\
    Forall (dereferences (np.flatten ndvi)) (rows df) /\
    StronglySorted (fun x y => np.sort_le y x = true) (NDVI df).
Proof.
  eexists. split; [apply get_top_ndvi_values_ranked|].
  unfold rows. cbn [NDVI Index]. rewrite combine_fst_snd, !length_map.
  split; [reflexivity|].
  split; [apply ranked_length_le|].
  split; [apply ranked_NoDup|].
  split; [apply ranked_in_bounds|].
  split; [apply ranked_deref|apply ranked_values_sorted].
Qed.

(** A position of the flattened array, as row and column. *)
Lemma flat_index_pixel (ndvi : array2 float) (w k : nat) :
  0 < w ->
  Forall (fun row => length row = w) ndvi ->
  nth_error (np.flatten ndvi) k = pixel ndvi (k / w) (k mod w).
Proof.
  intros Hw Hrect.
  rewrite <- (flatten_row_major ndvi w (k / w) (k mod w) Hrect).
  - f_equal. rewrite Nat.mul_comm. apply Nat.div_mod_eq.
  - apply Nat.mod_upper_bound. lia.
Qed.

(** X8. On an array whose rows all have w > 0 elements, the index k
    of a row of the table locates the pixel: the element in row
    k // w and column k % w of the array is the row's value. *)
Theorem top_values_locate_pixels (ndvi : array2 float) (num_values : Z) (w : nat) :
  0 < w ->
  Forall (fun row => length row = w) ndvi ->
  exists df : DataFrame,
    get_top_ndvi_values ndvi num_values = Ok df /\
    Forall (fun p => pixel ndvi (snd p / w) (snd p mod w) = Some (fst p)) (rows df).
Proof.
  intros Hw Hrect. eexists. split; [apply get_top_ndvi_values_ranked|].
  unfold rows. cbn [NDVI Index]. rewrite combine_fst_snd.
  eapply Forall_impl; [|apply ranked_deref].
  intros p Hp. unfold dereferences in Hp.
  rewrite <- (flat_index_pixel ndvi w (snd p) Hw Hrect). exact Hp.
Qed.

Lemma top_values_locate_pixels_witness :
  0 < 2 /\
  Forall (fun row => length row = 2) example_ndvi /\
  exists df : DataFrame,
    get_top_ndvi_values example_ndvi 3 = Ok df /\
    Forall (fun p => pixel example_ndvi (snd p / 2) (snd p mod 2) = Some (fst p)) (rows df).
Proof.
  split; [lia|]. split; [repeat constructor|].
  apply (top_values_locate_pixels example_ndvi 3 2); [lia|repeat constructor].
Defined.

Lemma top_values_nested_witness :
  (0 < 1 <= 3)%Z /\
  exists small large : DataFrame,
    get_top_ndvi_values example_ndvi 1 = Ok small /\
    get_top_ndvi_values example_ndvi 3 = Ok large /\
    NDVI small = firstn (Z.to_nat 1) (NDVI large) /\
    Index small = firstn (Z.to_nat 1) (Index large) /\
    rows small = firstn (Z.to_nat 1) (rows large).
Proof.
  split; [lia|]. apply (top_values_nested example_ndvi 1 3). lia.
Defined.

(** ** The first row and the maximum *)

Lemma numbers_without_nan (a : array2 float) :
  Forall (fun x => Float64.is_nan x = false) (np.flatten a) ->
  numbers a = np.flatten a.
Proof.
  unfold numbers. induction (np.flatten a) as [|x l IH]; intros H; [reflexivity|].
  inversion H as [|? ? Hx Hl]; subst. cbn [filter]. unfold not_nan at 1.
  rewrite Hx. cbn [negb]. f_equal. apply IH. exact Hl.
Qed.

(** Nothing in the array is above the first row of the table. *)
Lemma ranked_first_is_greatest (ndvi : array2 float) (n : Z) (v : float) (i : nat)
    (rest : list (float * nat)) :
  ranked ndvi n = (v, i) :: rest ->
  Forall (fun x => np.sort_le x v = true) (np.flatten ndvi).
Proof.
  intros Hr. apply Forall_forall. intros x Hx.
  apply In_nth_error in Hx. destruct Hx as [j Hj].
  destruct (in_dec Nat.eq_dec j (map snd (ranked ndvi n))) as [Hin|Hout].
  - apply in_map_iff in Hin. destruct Hin as ([y j'] & Hj' & Hin). cbn [snd] in Hj'. subst j'.
    pose proof (ranked_deref ndvi n) as Hd. rewrite Forall_forall in Hd.
    pose proof (Hd _ Hin) as Hy. unfold dereferences in Hy. cbn [fst snd] in Hy.
    assert (y = x) by congruence. subst y.
    pose proof (ranked_sorted ndvi n) as Hs. rewrite Hr in Hs, Hin.
    destruct Hin as [Heq|Hin].
    + inversion Heq; subst. apply sort_le_refl.
    + apply StronglySorted_inv in Hs. destruct Hs as [_ Hall].
      rewrite Forall_forall in Hall. apply (Hall _ Hin).
  - pose proof (ranked_top ndvi n j x Hj Hout) as Htop. rewrite Hr in Htop.
    inversion Htop; subst. assumption.
Qed.

(** X9. On an array with at least one element and no NaN, the table
    for one value holds the maximum [print_ndvi_stats] prints: the
    two compare equal (they can differ in the sign of a zero). *)
Theorem top_value_is_the_maximum (ndvi : array2 float) :
  np.flatten ndvi <> [] ->
  Forall (fun x => Float64.is_nan x = false) (np.flatten ndvi) ->
  exists (v : float) (i : nat) (maximum : float),
    get_top_ndvi_values ndvi 1 = Ok {| NDVI := [v]; Index := [i] |} /\
    np.nanmax ndvi = Ok maximum /\
    In (Labelled "Maximum:" maximum) (fst (print_ndvi_stats ndvi)) /\
    Float64.leb v maximum = true /\
    Float64.leb maximum v = true.
Proof.
  intros Hne Hnum.
  pose proof (ranked_length_positive ndvi 1 eq_refl) as Hlen.
  destruct (ranked ndvi 1) as [|[v i] rest] eqn:Hr.
  { destruct (np.flatten ndvi); [contradiction|discriminate]. }
  destruct rest as [|q rest].
  2:{ cbn [length] in Hlen. destruct (np.flatten ndvi); cbn in Hlen; lia. }
  pose proof (nanmax_spec ndvi) as Hmax. pose proof (nanmin_spec ndvi) as Hmin.
  destruct (np.nanmax ndvi) as [maximum|e] eqn:Emax; [|destruct Hmax; contradiction].
  destruct (np.nanmin ndvi) as [minimum|e] eqn:Emin; [|destruct Hmin; contradiction].
  exists v, i, maximum.
  split; [rewrite get_top_ndvi_values_ranked, Hr; reflexivity|].
  split; [reflexivity|].
  split.
  { rewrite (print_ndvi_stats_report ndvi minimum maximum Emin Emax).
    cbn [fst report]. right; right; left. reflexivity. }
  destruct Hmax as [_ Hmax]. rewrite (numbers_without_nan ndvi Hnum) in Hmax.
  unfold extremum in Hmax. destruct (np.flatten ndvi) as [|x0 flat] eqn:Hflat; [contradiction|].
  destruct Hmax as [Hin Hall]. rewrite <- Hflat in *.
  pose proof (ranked_first_is_greatest ndvi 1 v i [] Hr) as Htop.
  pose proof (ranked_deref ndvi 1) as Hd. rewrite Hr in Hd.
  inversion Hd as [|? ? Hv _]; subst. unfold dereferences in Hv. cbn [fst snd] in Hv.
  apply nth_error_In in Hv.
  rewrite Forall_forall in Hall, Htop, Hnum.
  split.
  - apply (Hall v Hv).
  - apply sort_le_leb; [apply Hnum; exact Hin|apply Hnum; exact Hv|apply Htop; exact Hin].
Qed.

Lemma top_value_is_the_maximum_witness :
  np.flatten example_ndvi <> [] /\
  Forall (fun x => Float64.is_nan x = false) (np.flatten example_ndvi) /\
  exists (v : float) (i : nat) (maximum : float),
    get_top_ndvi_values example_ndvi 1 = Ok {| NDVI := [v]; Index := [i] |} /\
    np.nanmax example_ndvi = Ok maximum /\
    In (Labelled "Maximum:" maximum) (fst (print_ndvi_stats example_ndvi)) /\
    Float64.leb v maximum = true /\
    Float64.leb maximum v = true.
Proof.
  split; [discriminate|]. split; [repeat constructor|].
  apply (top_value_is_the_maximum example_ndvi); [discriminate|repeat constructor].
Defined.

(** * Further properties of print_ndvi_stats *)

(** X10. [print_ndvi_stats] on an array without elements prints its
    heading and raises ValueError (np.nanmin of an empty array); on
    every other array it raises nothing and prints its six lines, in
    the order heading, minimum, maximum, mean, median, standard
    deviation. *)
Theorem statistics_raise_only_on_empty (ndvi : array2 float) :
  match np.flatten ndvi with
  | [] => print_ndvi_stats ndvi = ([Text "NDVI Statistics:"], Raise ValueError)
  | _ :: _ =>
      snd (print_ndvi_stats ndvi) = Ok tt /\
      map (fun l => match l with Text s => s | Labelled s _ => s end)
          (fst (print_ndvi_stats ndvi))
      = ["NDVI Statistics:"; "Minimum:"; "Maximum:"; "Mean:"; "Median:";
         "Standard Deviation:"]
  end.
Proof.
  destruct (np.flatten ndvi) as [|x l] eqn:Hflat.
  - apply print_ndvi_stats_empty. exact Hflat.
  - pose proof (nanmin_spec ndvi) as Hmin. pose proof (nanmax_spec ndvi) as Hmax.
    destruct (np.nanmin ndvi) as [minimum|e] eqn:Emin;
      [|destruct Hmin; congruence].
    destruct (np.nanmax ndvi) as [maximum|e] eqn:Emax;
      [|destruct Hmax; congruence].
    rewrite (print_ndvi_stats_report ndvi minimum maximum Emin Emax).
    split; reflexivity.
Qed.

Lemma same_number_nan (x : float) : same_number x Float64.nan -> x = Float64.nan.
Proof. intros [H|[_ H]]; [exact H|discriminate H]. Qed.

(** X11. On an array that has elements, all of them NaN, the five
    statistics printed are all NaN and nothing is raised. *)
Theorem statistics_of_all_nan (ndvi : array2 float) :
  np.flatten ndvi <> [] ->
  Forall (fun x => Float64.is_nan x = true) (np.flatten ndvi) ->
  print_ndvi_stats ndvi =
  (report Float64.nan Float64.nan Float64.nan Float64.nan Float64.nan, Ok tt).
Proof.
  intros Hne Hnan.
  assert (Hnum : numbers ndvi = []) by (apply filter_all_nan; exact Hnan).
  pose proof (nanmin_spec ndvi) as Hmin. pose proof (nanmax_spec ndvi) as Hmax.
  destruct (np.nanmin ndvi) as [minimum|e] eqn:Emin; [|destruct Hmin; contradiction].
  destruct (np.nanmax ndvi) as [maximum|e] eqn:Emax; [|destruct Hmax; contradiction].
  rewrite (print_ndvi_stats_report ndvi minimum maximum Emin Emax).
  destruct Hmin as [_ Hmin], Hmax as [_ Hmax]. rewrite Hnum in Hmin, Hmax.
  cbn [extremum] in Hmin, Hmax. subst minimum maximum.
  pose proof (nanmean_is_mean ndvi) as Hmean.
  pose proof (nanstd_is_std ndvi) as Hstd.
  pose proof (nanmedian_is_median ndvi) as Hmed.
  rewrite Hnum in Hmean, Hstd, Hmed.
  apply is_mean_nil in Hmean. apply is_population_std_nil in Hstd.
  rewrite Hmean, Hstd, Hmed. reflexivity.
Qed.

Lemma statistics_of_all_nan_witness :
  print_ndvi_stats [[Float64.nan; Float64.nan]; [Float64.nan; Float64.nan]] =
  (report Float64.nan Float64.nan Float64.nan Float64.nan Float64.nan, Ok tt).
Proof.
  apply (statistics_of_all_nan [[Float64.nan; Float64.nan]; [Float64.nan; Float64.nan]]).
  - discriminate.
  - repeat constructor.
Defined.

(** * calculate_ndvi followed by the other functions *)

(** What [np.clip] leaves: NaN, or a number in [-1, 1]. *)
Lemma ndvi_array_nan_or_range (d : dtype) (nir red : array2 (elem d)) :
  Forall nan_or_in_unit_range (np.flatten (ndvi_array d nir red)).
Proof.
  unfold np.flatten. apply Forall_concat.
  rewrite ndvi_array_elementwise. apply Forall2d_lift2.
  intros n r. apply ndvi_at_nan_or_range.
Qed.

Lemma ndvi_array_in_range (d : dtype) (nir red : array2 (elem d)) :
  Forall (Forall (finite_elem d)) nir ->
  Forall (Forall (finite_elem d)) red ->
  Forall (fun v => in_unit_range v = true) (np.flatten (ndvi_array d nir red)).
Proof.
  intros Hn Hr. unfold np.flatten. apply Forall_concat.
  rewrite ndvi_array_elementwise.
  apply Forall2d_lift2_from with (P := finite_elem d) (Q := finite_elem d);
    [|exact Hn|exact Hr].
  intros n r. apply ndvi_at_in_unit_range.
Qed.

Lemma in_unit_range_not_nan (v : float) :
  in_unit_range v = true -> Float64.is_nan v = false.
Proof. destruct v; [reflexivity|reflexivity|discriminate|reflexivity]. Qed.

Lemma numbers_in_range (a : array2 float) :
  Forall nan_or_in_unit_range (np.flatten a) ->
  Forall (fun v => in_unit_range v = true) (numbers a).
Proof.
  intros H. unfold numbers. apply Forall_forall. intros v Hv.
  apply filter_In in Hv. destruct Hv as [Hin Hnum].
  rewrite Forall_forall in H. destruct (H v Hin) as [Hnan|Hr]; [|exact Hr].
  unfold not_nan in Hnum. rewrite Hnan in Hnum. discriminate.
Qed.

(** X12. The summary of an array [calculate_ndvi] returned: when the
    array has an element that is not NaN, the minimum and the maximum
    printed lie in [-1, 1], the minimum not above the maximum. *)
Theorem ndvi_statistics_in_range
    (fs : filesystem) (path_tiff : String.string) (src : DatasetReader) :
  fs path_tiff = Some src ->
  4 <= band_count (read src) ->
  exists ndvi : array2 float,
    calculate_ndvi fs path_tiff = Ok ndvi /\
    (numbers ndvi <> [] ->
     exists minimum maximum : float,
       print_ndvi_stats ndvi =
         (report minimum maximum (np.nanmean ndvi) (np.nanmedian ndvi) (np.nanstd ndvi),
          Ok tt) /\
       in_unit_range minimum = true /\
       in_unit_range maximum = true /\
       Float64.leb minimum maximum = true).
Proof.
  intros Hsrc Hcount. eexists.
  split.
  { rewrite (calculate_ndvi_reads fs path_tiff src Hsrc).
    apply ndvi_of_four_bands. exact Hcount. }
  set (ndvi := ndvi_array _ _ _). intros Hnum.
  pose proof (numbers_in_range ndvi (ndvi_array_nan_or_range _ _ _)) as Hrange.
  pose proof (nanmin_spec ndvi) as Hmin. pose proof (nanmax_spec ndvi) as Hmax.
  assert (Hne : np.flatten ndvi <> []).
  { intros E. apply Hnum. unfold numbers. rewrite E. reflexivity. }
  destruct (np.nanmin ndvi) as [minimum|e] eqn:Emin; [|destruct Hmin; contradiction].
  destruct (np.nanmax ndvi) as [maximum|e] eqn:Emax; [|destruct Hmax; contradiction].
  exists minimum, maximum.
  split; [apply print_ndvi_stats_report; assumption|].
  destruct Hmin as [_ Hmin], Hmax as [_ Hmax]. unfold extremum in Hmin, Hmax.
  destruct (numbers ndvi) as [|x l] eqn:E; [contradiction|].
  destruct Hmin as [Imin Amin], Hmax as [Imax Amax].
  rewrite Forall_forall in Hrange, Amin.
  split; [apply Hrange; exact Imin|].
  split; [apply Hrange; exact Imax|].
  apply Amin. exact Imax.
Qed.

Lemma ndvi_statistics_in_range_witness :
  let src := dataset (one_pixel (Int uint16) 0 100 300)%Z in
  exists (ndvi : array2 float) (minimum maximum : float),
    calculate_ndvi (single_file "scene.tif" src) "scene.tif" = Ok ndvi /\
    print_ndvi_stats ndvi =
      (report minimum maximum (np.nanmean ndvi) (np.nanmedian ndvi) (np.nanstd ndvi),
       Ok tt) /\
    in_unit_range minimum = true /\
    in_unit_range maximum = true /\
    Float64.leb minimum maximum = true.
Proof.
  intros src.
  destruct (ndvi_statistics_in_range (single_file "scene.tif" src) "scene.tif" src)
    as (ndvi & Hok & Hstats); [reflexivity|apply Nat.leb_le; reflexivity|].
  assert (Hc : calculate_ndvi (single_file "scene.tif" src) "scene.tif" = Ok [[half]])
    by (vm_compute; reflexivity).
  rewrite Hc in Hok. injection Hok as <-.
  destruct Hstats as (minimum & maximum & H); [vm_compute; discriminate|].
  exists [[half]], minimum, maximum. split; [exact Hc|exact H].
Defined.

(** X13. The ranking of an array [calculate_ndvi] returned from
    finite band values (any integer bands): for every count, every
    value of the table lies in [-1, 1], and the values descend. *)
Theorem ndvi_ranking_in_range
    (fs : filesystem) (path_tiff : String.string) (src : DatasetReader) (num_values : Z) :
  fs path_tiff = Some src ->
  4 <= band_count (read src) ->
  Forall (Forall (finite_elem _)) (band (read src) 2) ->
  Forall (Forall (finite_elem _)) (band (read src) 3) ->
  exists (ndvi : array2 float) (df : DataFrame),
    calculate_ndvi fs path_tiff = Ok ndvi /\
    get_top_ndvi_values ndvi num_values = Ok df /\
    Forall (fun v => in_unit_range v = true) (NDVI df) /\
    StronglySorted (fun x y => Float64.leb y x = true) (NDVI df).
Proof.
  intros Hsrc Hcount Hred Hnir. do 2 eexists.
  split.
  { rewrite (calculate_ndvi_reads fs path_tiff src Hsrc).
    apply ndvi_of_four_bands. exact Hcount. }
  set (ndvi := ndvi_array _ _ _).
  split; [apply get_top_ndvi_values_ranked|]. cbn [NDVI].
  pose proof (ndvi_array_in_range _ _ _ Hnir Hred) as Hrange. fold ndvi in Hrange.
  assert (Hv : Forall (fun p => in_unit_range (fst p) = true) (ranked ndvi num_values)).
  { apply Forall_forall. intros p Hp.
    pose proof (ranked_deref ndvi num_values) as Hd. rewrite Forall_forall in Hd, Hrange.
    apply Hrange. eapply nth_error_In. apply Hd. exact Hp. }
  split; [apply Forall_map; exact Hv|].
  apply StronglySorted_map.
  apply StronglySorted_sub
    with (R := fun p q => key_le q p) (P := fun p => in_unit_range (fst p) = true);
    [|exact Hv|apply ranked_sorted].
  intros p q Hp Hq Hle. apply sort_le_leb; [| |exact Hle]; apply in_unit_range_not_nan; assumption.
Qed.

Lemma ndvi_ranking_in_range_witness :
  let src := dataset (stack (Int int16)
                 [[[0; 0]]; [[0; 0]]; [[100; -5]]; [[300; 3]]]%Z) in
  exists (ndvi : array2 float) (df : DataFrame),
    calculate_ndvi (single_file "scene.tif" src) "scene.tif" = Ok ndvi /\
    get_top_ndvi_values ndvi 1 = Ok df /\
    Forall (fun v => in_unit_range v = true) (NDVI df) /\
    StronglySorted (fun x y => Float64.leb y x = true) (NDVI df).
Proof.
  intros src.
  apply (ndvi_ranking_in_range (single_file "scene.tif" src) "scene.tif" src 1);
    [reflexivity|apply Nat.leb_le; reflexivity| |]; repeat constructor.
Defined.

(** * The plotting functions *)

(** A loop whose body always returns makes the calls of its
    iterations in order, and returns. *)
Lemma for_each_run {A : Type} (items : list A) (body : A -> script unit)
    (calls : A -> list event) (keyboard : list typed) :
  (forall x kb, In x items -> body x kb = (calls x, kb, Returned tt)) ->
  for_each items body keyboard = (flat_map calls items, keyboard, Returned tt).
Proof.
  intros Hbody. induction items as [|x rest IH]; [reflexivity|].
  cbn [for_each flat_map]. unfold then_.
  rewrite (Hbody x keyboard (or_introl eq_refl)).
  rewrite IH; [reflexivity|].
  intros y kb Hy. apply Hbody. right. exact Hy.
Qed.

(** The axes of a grid, flattened, are numbered from 0. *)
Lemma flatten_axes_from (ncols nrows a : nat) :
  concat (map (fun r => seq (r * ncols) ncols) (seq a nrows)) = seq (a * ncols) (nrows * ncols).
Proof.
  revert a. induction nrows as [|n IH]; intros a; [reflexivity|].
  cbn [seq map concat]. rewrite IH.
  replace (S n * ncols) with (ncols + n * ncols) by lia.
  rewrite seq_app. f_equal. f_equal. lia.
Qed.

Lemma flatten_axes_grid (nrows ncols : nat) :
  np.flatten (axes_grid nrows ncols) = seq 0 (nrows * ncols).
Proof. apply (flatten_axes_from ncols nrows 0). Qed.

Lemma combine_seq_seq (a n m : nat) :
  n <= m -> combine (seq a n) (seq a m) = map (fun k => (k, k)) (seq a n).
Proof.
  revert a m. induction n as [|n IH]; intros a m H; [reflexivity|].
  destruct m as [|m]; [lia|]. cbn [seq combine map]. f_equal. apply IH. lia.
Qed.

(** [(n + 1) // 2] rows of two axes hold n panels, with at most one
    axis to spare. *)
Lemma half_rows (n : nat) : n <= (n + 1) / 2 * 2 <= n + 1.
Proof.
  pose proof (Nat.div_mod_eq (n + 1) 2) as H.
  pose proof (Nat.mod_upper_bound (n + 1) 2). lia.
Qed.

Lemma getitem_band_of (bands : ndarray3) (b : nat) :
  b < band_count bands ->
  getitem_band (raster_of bands) b = Ok (band_plane bands b).
Proof.
  intros H. unfold getitem_band, np.getitem. cbn [values raster_of].
  rewrite (band_nth_error bands b H). reflexivity.
Qed.

(** Sequencing, after a step that returned or raised. *)
Lemma then_returned {A B : Type} (c : script A) (k : A -> script B)
    (keyboard kb' : list typed) (out : list event) (a : A) :
  c keyboard = (out, kb', Returned a) ->
  then_ c k keyboard = (out ++ shown (k a kb'), unread (k a kb'), ended (k a kb')).
Proof.
  intros H. unfold then_, shown, unread, ended. rewrite H.
  destruct (k a kb') as [[out' kb''] r]. reflexivity.
Qed.

Lemma then_raised {A B : Type} (c : script A) (k : A -> script B)
    (keyboard kb' : list typed) (out : list event) (e : error) :
  c keyboard = (out, kb', Raised e) ->
  then_ c k keyboard = (out, kb', Raised e).
Proof. intros H. unfold then_. rewrite H. reflexivity. Qed.

Lemma run_eta {A : Type} (run : list event * list typed * outcome A) :
  (shown run, unread run, ended run) = run.
Proof. destruct run as [[out kb] r]. reflexivity. Qed.

(** The whole run on a file with at least one band. *)
Lemma read_and_plot_tiff_run
    (fs : filesystem) (glob_glob : glob_results) (file_path first : String.string)
    (others : list String.string) (src : DatasetReader) (keyboard : list typed) :
  glob_glob (os_path.join file_path "*.tif") = first :: others ->
  fs first = Some src ->
  1 <= band_count (read src) ->
  let n := band_count (read src) in
  let nrows := (n + 1) / 2 in
  read_and_plot_tiff fs glob_glob file_path keyboard =
  (Subplots nrows 2 (12, 4 * nrows)
     :: flat_map (band_panel (read src)) (seq 0 n)
     ++ [TightLayout; ShowFigure;
         Imshow (MeanOverBands (raster_of (read src))) viridis;
         Title "Combined Bands"; Colorbar "Pixel Value"; Axis "on"; ShowFigure;
         Printed "Raster Cell Values:"; PrintedData (raster_of (read src))],
   keyboard, Returned (raster_of (read src))).
Proof.
  intros Hglob Hsrc Hn n nrows.
  pose proof (half_rows n) as Hhalf. fold nrows in Hhalf.
  unfold read_and_plot_tiff. rewrite Hglob.
  unfold rasterio_open. rewrite Hsrc. cbn [lift].
  rewrite (then_returned _ _ keyboard keyboard [] src eq_refl).
  cbn [app]. rewrite run_eta. unfold shape0. cbn [values].
  fold (raster_of (read src)). fold n. fold nrows.
  assert (Hrows : (nrows =? 0) = false) by (apply Nat.eqb_neq; lia).
  rewrite (then_returned _ _ keyboard keyboard [Subplots nrows 2 (12, 4 * nrows)]
             (axes_grid nrows 2)).
  2:{ unfold plt_subplots. rewrite Hrows. reflexivity. }
  rewrite flatten_axes_grid, combine_seq_seq by lia.
  rewrite (then_returned _ _ keyboard keyboard
             (flat_map (fun p => band_panel (read src) (fst p))
                (map (fun k => (k, k)) (seq 0 n))) tt).
  2:{ apply for_each_run.
      intros [b ax] kb Hin. apply in_map_iff in Hin. destruct Hin as (k & Hk & Hin).
      inversion Hk; subst. apply in_seq in Hin.
      unfold then_. rewrite getitem_band_of by (fold n; lia). reflexivity. }
  rewrite flat_map_concat_map, map_map, <- flat_map_concat_map.
  cbn [fst]. reflexivity.
Qed.

(** ** read_and_plot_tiff *)

(** X14. How [read_and_plot_tiff] ends: with ValueError, and nothing
    read, drawn or printed, when no path matches [*.tif] in the
    directory; with RasterioIOError when the first match cannot be
    opened; and on a first match of one band or more it returns the
    bands of that file as a DataArray named raster with the
    dimensions band, y, x, the last two things it does being to print
    the heading and the DataArray.  The other matches are not
    read. *)
Theorem read_and_plot_tiff_outcome
    (fs : filesystem) (glob_glob : glob_results) (file_path : String.string)
    (keyboard : list typed) :
  let run := read_and_plot_tiff fs glob_glob file_path keyboard in
  match glob_glob (os_path.join file_path "*.tif") with
  | [] => run = ([], keyboard, Raised (Exception ValueError))
  | first :: _ =>
      match fs first with
      | None => run = ([], keyboard, Raised (Exception RasterioIOError))
      | Some src =>
          1 <= band_count (read src) ->
          ended run = Returned (raster_of (read src)) /\
          unread run = keyboard /\
          exists plots : list event,
            shown run =
            plots ++ [Printed "Raster Cell Values:"; PrintedData (raster_of (read src))]
      end
  end.
Proof.
  intros run. subst run.
  destruct (glob_glob (os_path.join file_path "*.tif")) as [|first others] eqn:Hglob.
  - unfold read_and_plot_tiff. rewrite Hglob. reflexivity.
  - destruct (fs first) as [src|] eqn:Hsrc.
    + intros Hn.
      rewrite (read_and_plot_tiff_run fs glob_glob file_path first others src keyboard
                 Hglob Hsrc Hn).
      split; [reflexivity|]. split; [reflexivity|].
      cbn [shown fst].
      eexists (Subplots _ 2 _ :: flat_map (band_panel (read src)) _
                 ++ [TightLayout; ShowFigure; Imshow _ viridis; Title _; Colorbar _; Axis _; ShowFigure]).
      cbn [app]. rewrite <- app_assoc. reflexivity.
    + unfold read_and_plot_tiff. rewrite Hglob.
      unfold rasterio_open. rewrite Hsrc. reflexivity.
Qed.

Lemma read_and_plot_tiff_outcome_witness :
  let fs := single_file "data/a.tif" three_band_file in
  let glob_glob := fun pattern : String.string =>
    if String.eqb pattern "data/*.tif" then ["data/a.tif"; "data/b.tif"] else [] in
  let run := read_and_plot_tiff fs glob_glob "data" [] in
  ended run = Returned (raster_of (read three_band_file)) /\
  unread run = [] /\
  exists plots : list event,
    shown run =
    plots ++ [Printed "Raster Cell Values:"; PrintedData (raster_of (read three_band_file))].
Proof.
  intros fs glob_glob run.
  apply (read_and_plot_tiff_outcome fs glob_glob "data" []).
  apply Nat.leb_le. reflexivity.
Defined.

Lemma panels_app (a b : list event) : panels (a ++ b) = panels a ++ panels b.
Proof. apply flat_map_app. Qed.

Lemma titles_app (a b : list event) : titles (a ++ b) = titles a ++ titles b.
Proof. apply flat_map_app. Qed.

Lemma panels_band_panels (bands : ndarray3) (l : list nat) :
  panels (flat_map (band_panel bands) l) =
  map (fun b => (b, Plane (band_plane bands b))) l.
Proof.
  induction l as [|b l IH]; [reflexivity|].
  cbn [flat_map map]. rewrite panels_app, IH. reflexivity.
Qed.

Lemma titles_band_panels (bands : ndarray3) (l : list nat) :
  titles (flat_map (band_panel bands) l) =
  map (fun b => (b, ("Band " ++ decimal (b + 1))%string)) l.
Proof.
  induction l as [|b l IH]; [reflexivity|].
  cbn [flat_map map]. rewrite titles_app, IH. reflexivity.
Qed.

(** X15. The grid of [read_and_plot_tiff] shows every band once: for
    a file of n >= 1 bands the images put on the axes are band 0 on
    axis 0, ..., band n - 1 on axis n - 1, titled Band 1, ...,
    Band n; the grid has two columns and just enough rows, so at most
    one axis stays empty. *)
Theorem every_band_gets_a_panel
    (fs : filesystem) (glob_glob : glob_results) (file_path first : String.string)
    (others : list String.string) (src : DatasetReader) (keyboard : list typed) :
  glob_glob (os_path.join file_path "*.tif") = first :: others ->
  fs first = Some src ->
  1 <= band_count (read src) ->
  let n := band_count (read src) in
  let out := shown (read_and_plot_tiff fs glob_glob file_path keyboard) in
  panels out = map (fun b => (b, Plane (band_plane (read src) b))) (seq 0 n) /\
  titles out = map (fun b => (b, ("Band " ++ decimal (b + 1))%string)) (seq 0 n) /\
  exists nrows : nat,
    In (Subplots nrows 2 (12, 4 * nrows)) out /\
    n <= nrows * 2 <= n + 1.
Proof.
  intros Hglob Hsrc Hn n out. subst out.
  rewrite (read_and_plot_tiff_run fs glob_glob file_path first others src keyboard
             Hglob Hsrc Hn).
  fold n. cbn [shown fst].
  split; [|split].
  - change (Subplots ?r 2 ?f :: ?l) with ([Subplots r 2 f] ++ l).
    rewrite !panels_app, panels_band_panels. cbn. apply app_nil_r.
  - change (Subplots ?r 2 ?f :: ?l) with ([Subplots r 2 f] ++ l).
    rewrite !titles_app, titles_band_panels. cbn. apply app_nil_r.
  - exists ((n + 1) / 2). split; [left; reflexivity|apply half_rows].
Qed.

Lemma every_band_gets_a_panel_witness :
  let fs := single_file "data/a.tif" three_band_file in
  let glob_glob := fun pattern : String.string =>
    if String.eqb pattern "data/*.tif" then ["data/a.tif"; "data/b.tif"] else [] in
  let out := shown (read_and_plot_tiff fs glob_glob "data" []) in
  titles out = [(0, "Band 1"); (1, "Band 2"); (2, "Band 3")] /\
  panels out = map (fun b => (b, Plane (band_plane (read three_band_file) b))) (seq 0 3) /\
  exists nrows : nat,
    In (Subplots nrows 2 (12, 4 * nrows)) out /\
    3 <= nrows * 2 <= 3 + 1.
Proof.
  intros fs glob_glob out.
  destruct (every_band_gets_a_panel fs glob_glob "data" "data/a.tif" ["data/b.tif"]
              three_band_file [] eq_refl eq_refl) as (Hp & Ht & Hs).
  - apply Nat.leb_le. reflexivity.
  - split; [exact Ht|]. split; [exact Hp|exact Hs].
Defined.

(** *** The directory path *)

Lemma endswith_sep_app_sep (p : String.string) :
  os_path.endswith_sep (p ++ "/") = true.
Proof.
  induction p as [|c p IH]; [reflexivity|].
  cbn [String.append os_path.endswith_sep].
  destruct (p ++ "/")%string eqn:E; [destruct p; discriminate|exact IH].
Qed.

Lemma append_assoc (a b c : String.string) :
  ((a ++ b) ++ c = a ++ (b ++ c))%string.
Proof. induction a as [|x a IH]; [reflexivity|]. cbn. rewrite IH. reflexivity. Qed.

Lemma join_trailing_sep (p b : String.string) :
  p <> "" ->
  os_path.endswith_sep p = false ->
  os_path.join (p ++ "/") b = os_path.join p b.
Proof.
  intros Hne Hsep. unfold os_path.join.
  destruct (os_path.startswith_sep b); [reflexivity|].
  rewrite endswith_sep_app_sep, orb_true_r, Hsep, orb_false_r.
  apply String.eqb_neq in Hne. rewrite Hne.
  rewrite append_assoc. reflexivity.
Qed.

(** X16. A separator at the end of the directory path makes no
    difference: for a path that is not empty and does not end in a
    separator, [read_and_plot_tiff] does the same with and without
    one appended. *)
Theorem trailing_separator_is_ignored
    (fs : filesystem) (glob_glob : glob_results) (file_path : String.string)
    (keyboard : list typed) :
  file_path <> "" ->
  os_path.endswith_sep file_path = false ->
  read_and_plot_tiff fs glob_glob (file_path ++ "/") keyboard =
  read_and_plot_tiff fs glob_glob file_path keyboard.
Proof.
  intros Hne Hsep. unfold read_and_plot_tiff.
  rewrite (join_trailing_sep file_path "*.tif" Hne Hsep). reflexivity.
Qed.

Lemma trailing_separator_is_ignored_witness :
  let fs := single_file "data/a.tif" three_band_file in
  let glob_glob := fun pattern : String.string =>
    if String.eqb pattern "data/*.tif" then ["data/a.tif"] else [] in
  os_path.join "data/" "*.tif" = "data/*.tif" /\
  read_and_plot_tiff fs glob_glob "data/" [] = read_and_plot_tiff fs glob_glob "data" [].
Proof.
  intros fs glob_glob. split; [reflexivity|].
  apply (trailing_separator_is_ignored fs glob_glob "data" []); [discriminate|reflexivity].
Defined.

(** ** plot_raster_with_coordinates *)

Lemma plot_raster_with_coordinates_run
    (fs : filesystem) (path_tiff : String.string) (src : DatasetReader)
    (keyboard : list typed) :
  fs path_tiff = Some src ->
  plot_raster_with_coordinates fs path_tiff keyboard =
  match crs src with
  | None => ([], keyboard, Raised AttributeError)
  | Some crs_name =>
      if valid_image (Channels (read src))
      then
        let '(left_, bottom, right_, top) := bounds src in
        ([Imshow (Channels (read src))
            {| cmap := None; extent := Some [left_; right_; bottom; top];
               vmin := None; vmax := None |};
          Xlabel "X Coordinate"; Ylabel "Y Coordinate";
          Title ("Raster Image - Coordinate System: " ++ crs_name);
          Colorbar "Pixel Value"; ShowFigure],
         keyboard, Returned crs_name)
      else ([], keyboard, Raised TypeError)
  end.
Proof.
  intros Hsrc. unfold plot_raster_with_coordinates, rasterio_open. rewrite Hsrc.
  cbn [lift]. rewrite (then_returned _ _ keyboard keyboard [] src eq_refl).
  cbn [app]. rewrite run_eta.
  destruct (crs src) as [crs_name|]; [|reflexivity].
  cbn [to_string]. rewrite (then_returned _ _ keyboard keyboard [] crs_name eq_refl).
  cbn [app]. rewrite run_eta.
  destruct (bounds src) as [[[l b] r] t].
  unfold plt_imshow. destruct (valid_image (Channels (read src))); reflexivity.
Qed.

(** X17. [plot_raster_with_coordinates] on a file that opens: when
    the file has no coordinate system, [src.crs.to_string()] raises
    AttributeError and nothing is drawn; when it has one, the function
    returns its name exactly when the file has 1, 3 or 4 bands, and
    raises the TypeError of [imshow] otherwise.  So it and
    [calculate_ndvi] both succeed on a file exactly when the file has
    a coordinate system and 4 bands. *)
Theorem coordinates_plot_and_ndvi
    (fs : filesystem) (path_tiff : String.string) (src : DatasetReader)
    (keyboard : list typed) :
  fs path_tiff = Some src ->
  let n := band_count (read src) in
  let run := plot_raster_with_coordinates fs path_tiff keyboard in
  match crs src with
  | None => run = ([], keyboard, Raised AttributeError)
  | Some crs_name =>
      (ended run = Returned crs_name <-> n = 1 \/ n = 3 \/ n = 4) /\
      (ended run = Raised TypeError <-> ~ (n = 1 \/ n = 3 \/ n = 4))
  end /\
  ((exists crs_name : String.string, ended run = Returned crs_name) /\
   raises (calculate_ndvi fs path_tiff) = false
   <-> crs src <> None /\ n = 4).
Proof.
  intros Hsrc n run. subst run.
  rewrite (plot_raster_with_coordinates_run fs path_tiff src keyboard Hsrc).
  assert (Hvalid : valid_image (Channels (read src)) = true <-> n = 1 \/ n = 3 \/ n = 4).
  { cbn [valid_image]. fold n. rewrite !orb_true_iff, !Nat.eqb_eq. tauto. }
  assert (Hndvi : raises (calculate_ndvi fs path_tiff) = false <-> 4 <= n).
  { rewrite (calculate_ndvi_reads fs path_tiff src Hsrc).
    destruct (Nat.leb_spec 4 n) as [Hle|Hlt].
    - rewrite (ndvi_of_four_bands (read src) Hle). cbn [raises]. tauto.
    - rewrite (ndvi_of_few_bands (read src) Hlt). cbn [raises]. split; [discriminate|lia]. }
  destruct (crs src) as [crs_name|].
  - destruct (bounds src) as [[[l b] r] t].
    destruct (valid_image (Channels (read src))); cbn [ended snd].
    + assert (Hn : n = 1 \/ n = 3 \/ n = 4) by (apply Hvalid; reflexivity).
      split; [split; [tauto|split; [discriminate|tauto]]|].
      rewrite Hndvi. split.
      * intros [_ H4]. split; [discriminate|lia].
      * intros [_ ->]. split; [exists crs_name; reflexivity|lia].
    + assert (Hn : ~ (n = 1 \/ n = 3 \/ n = 4)).
      { intros H. apply Hvalid in H. discriminate. }
      split; [split; [split; [discriminate|tauto]|tauto]|].
      split.
      * intros [[name H] _]. discriminate.
      * intros [_ E]. exfalso. apply Hn. tauto.
  - split; [reflexivity|]. cbn [ended snd]. split.
    + intros [[name H] _]. discriminate.
    + intros [H _]. congruence.
Qed.

Lemma coordinates_plot_and_ndvi_witness :
  let bands := one_pixel (Int uint16) 0%Z 100%Z 300%Z in
  let src := {| read := bands; crs := None; bounds := (0, 0, 1, 1)%Z |} in
  let fs := single_file "scene.tif" src in
  plot_raster_with_coordinates fs "scene.tif" [] = ([], [], Raised AttributeError) /\
  raises (calculate_ndvi fs "scene.tif") = false.
Proof.
  intros bands src fs. split; [|reflexivity].
  apply (coordinates_plot_and_ndvi fs "scene.tif" src [] eq_refl).
Defined.

(** ** draw_square_on_raster *)

(** X18. [draw_square_on_raster] checks none of the numbers typed:
    whatever four integers are entered, inside the limits the prompts
    name or not, the corners in order or not, it reads exactly four
    lines and draws the closed path through (xmin, ymin),
    (xmax, ymin), (xmax, ymax), (xmin, ymax) and back. *)
Theorem square_is_drawn_as_typed
    (fs : filesystem) (path_tiff : String.string) (src : DatasetReader)
    (xmin ymin xmax ymax : Z) (rest : list typed) :
  fs path_tiff = Some src ->
  valid_image (Channels (read src)) = true ->
  draw_square_on_raster fs path_tiff
    (Integer xmin :: Integer ymin :: Integer xmax :: Integer ymax :: rest) =
  (square_prompts (read src)
     ++ [Plot [xmin; xmax; xmax; xmin; xmin] [ymin; ymin; ymax; ymax; ymin] "red"; ShowFigure],
   rest, Returned tt).
Proof.
  intros Hsrc Hvalid. unfold draw_square_on_raster, rasterio_open. rewrite Hsrc.
  cbn [lift]. rewrite (then_returned _ _ _ _ [] src eq_refl).
  cbn [app]. rewrite run_eta.
  unfold plt_imshow. rewrite Hvalid. reflexivity.
Qed.

Lemma square_is_drawn_as_typed_witness :
  let src := dataset (one_pixel (Int uint8) 0 100 200)%Z in
  draw_square_on_raster (single_file "scene.tif" src) "scene.tif"
    [Integer 500; Integer (-3); Integer 10; Integer (-3); NotAnInteger] =
  (square_prompts (read src)
     ++ [Plot [500; 10; 10; 500; 500]%Z [-3; -3; -3; -3; -3]%Z "red"; ShowFigure],
   [NotAnInteger], Returned tt).
Proof.
  intros src.
  apply (square_is_drawn_as_typed (single_file "scene.tif" src) "scene.tif" src);
    reflexivity.
Defined.

(** X19. Unless the first four lines typed are integers,
    [draw_square_on_raster] raises: ValueError at the first line that
    is no integer, EOFError when the lines run out before. The image
    is on the figure by then, the square is never drawn, and no line
    after the fourth is read. *)
Theorem square_needs_four_integers
    (fs : filesystem) (path_tiff : String.string) (src : DatasetReader)
    (keyboard : list typed) :
  fs path_tiff = Some src ->
  valid_image (Channels (read src)) = true ->
  four_integers keyboard = false ->
  let run := draw_square_on_raster fs path_tiff keyboard in
  (ended run = Raised (Exception ValueError) \/ ended run = Raised EOFError) /\
  (ended run = Raised EOFError <-> length keyboard < 4 /\ Forall (fun l => l <> NotAnInteger) keyboard) /\
  existsb is_plot (shown run) = false /\
  In (Imshow (Channels (read src)) no_kw) (shown run) /\
  length (unread run) + 4 >= length keyboard.
Proof.
  intros Hsrc Hvalid Hfour run. subst run.
  unfold draw_square_on_raster, rasterio_open. rewrite Hsrc.
  cbn [lift]. rewrite (then_returned _ _ _ _ [] src eq_refl).
  cbn [app]. rewrite run_eta.
  unfold plt_imshow. rewrite Hvalid.
  destruct keyboard as [|[a|] [|[b|] [|[c|] [|[d|] kb]]]]; try discriminate Hfour;
    cbn; (split; [auto|]);
    (split; [split;
      [intros H; first [discriminate H
                       |split; [lia|repeat (apply Forall_cons; [discriminate|]); apply Forall_nil]]
      |intros [Hlen Hall];
       first [reflexivity
             |exfalso; lia
             |exfalso;
              repeat match goal with
                | H : Forall _ (_ :: _) |- _ => inversion H; subst; clear H
                end; congruence]]|]);
    (split; [reflexivity|]); (split; [left; reflexivity|lia]).
Qed.

Lemma square_needs_four_integers_witness :
  let src := dataset (one_pixel (Int uint8) 0 100 200)%Z in
  let run := draw_square_on_raster (single_file "scene.tif" src) "scene.tif"
               [Integer 250; NotAnInteger; Integer 300; Integer 300] in
  ended run = Raised (Exception ValueError) /\
  unread run = [Integer 300; Integer 300] /\
  existsb is_plot (shown run) = false.
Proof.
  intros src run.
  destruct (square_needs_four_integers (single_file "scene.tif" src) "scene.tif" src
              [Integer 250; NotAnInteger; Integer 300; Integer 300])
    as (_ & _ & Hplot & _); [reflexivity|reflexivity|reflexivity|].
  split; [reflexivity|]. split; [reflexivity|exact Hplot].
Defined.

(** ** plot_ndvi *)

(** X20. [plot_ndvi] of an array [calculate_ndvi] returned: the
    colour limits handed to [imshow] are the limits the values were
    cut to, so every element is NaN or lies between them. *)
Theorem ndvi_fits_the_colour_scale
    (fs : filesystem) (path_tiff : String.string) (src : DatasetReader)
    (keyboard : list typed) :
  fs path_tiff = Some src ->
  4 <= band_count (read src) ->
  exists (ndvi : array2 float) (lo hi : Z),
    calculate_ndvi fs path_tiff = Ok ndvi /\
    plot_ndvi ndvi keyboard =
      ([Imshow (Floats ndvi)
          {| cmap := Some "RdYlGn"; extent := None; vmin := Some lo; vmax := Some hi |};
        Title "Normalized Difference Vegetation Index (NDVI)";
        Colorbar "NDVI"; ShowFigure],
       keyboard, Returned tt) /\
    Forall (fun v => Float64.is_nan v = true \/
                     Float64.between (Float64.of_Z lo) (Float64.of_Z hi) v = true)
           (np.flatten ndvi).
Proof.
  intros Hsrc Hcount.
  exists (ndvi_array (stack_dtype (read src)) (band (read src) 3) (band (read src) 2)).
  exists (-1)%Z, 1%Z.
  split.
  { rewrite (calculate_ndvi_reads fs path_tiff src Hsrc).
    apply ndvi_of_four_bands. exact Hcount. }
  split; [reflexivity|]. apply ndvi_array_nan_or_range.
Qed.

Lemma ndvi_fits_the_colour_scale_witness :
  let src := dataset (one_pixel (Int uint16) 0 100 300)%Z in
  exists (ndvi : array2 float) (lo hi : Z),
    calculate_ndvi (single_file "scene.tif" src) "scene.tif" = Ok ndvi /\
    plot_ndvi ndvi [] =
      ([Imshow (Floats ndvi)
          {| cmap := Some "RdYlGn"; extent := None; vmin := Some lo; vmax := Some hi |};
        Title "Normalized Difference Vegetation Index (NDVI)";
        Colorbar "NDVI"; ShowFigure],
       [], Returned tt) /\
    Forall (fun v => Float64.is_nan v = true \/
                     Float64.between (Float64.of_Z lo) (Float64.of_Z hi) v = true)
           (np.flatten ndvi).
Proof.
  intros src.
  apply (ndvi_fits_the_colour_scale (single_file "scene.tif" src) "scene.tif" src []);
    [reflexivity|apply Nat.leb_le; reflexivity].
Defined.
